(** * supervoxel_affinity_3d: a shallow embedding of the affinity loss

    The development follows [src/supervoxel_loss/supervoxel_affinity_3d.py]:
    - tensors (torch / numpy arrays) are a size vector together with nested
      lists, outermost axis first;
    - Python exceptions are the constructors of [exn], and every function
      that may raise returns a [result];
    - integer labels are [Z]; float data are exact rationals [Qc] where
      only shapes, control flow, exceptions and bounds are at stake, and
      IEEE numbers with their rounding (module [Fp]) where the computed
      values are. *)

From Stdlib Require Import String.
From Stdlib Require Import List ZArith Lia Bool Permutation.
From Stdlib Require Import QArith Qcanon.
From Stdlib Require Import SpecFloat.
Import ListNotations.

Set Implicit Arguments.
Local Open Scope nat_scope.

(** ** Exceptions and the error monad *)

Inductive exn : Type :=
| NameError (name : string)
| IndexError
| AssertionError
| TypeError
| RuntimeError      (* torch: operand sizes do not broadcast *)
| ValueError        (* numpy: operands could not be broadcast together *)
| StopIteration.

Inductive result (X : Type) : Type :=
| Ok (x : X)
| Err (e : exn).

Arguments Ok {X} x.
Arguments Err {X} e.

Definition rbind {X Y} (m : result X) (k : X -> result Y) : result Y :=
  match m with
  | Ok x => k x
  | Err e => Err e
  end.

Declare Scope py_scope.
Delimit Scope py_scope with py.
Notation "x <- m ;; k" := (rbind m (fun x => k))
  (at level 100, m at next level, right associativity) : py_scope.
Notation "' p <- m ;; k" := (rbind m (fun v => match v with p => k end))
  (at level 100, p pattern, m at next level, right associativity) : py_scope.
Open Scope py_scope.

Definition assert (b : bool) : result unit :=
  if b then Ok tt else Err AssertionError.

(** ** Tensors *)

#[warnings="-register-all"]
Inductive nd (A : Type) : Type :=
| Leaf (a : A)
| Node (l : list (nd A)).

Arguments Leaf {A} a.
Arguments Node {A} l.

Record tensor (A : Type) : Type := mkTensor {
  size : list nat;
  data : nd A
}.

Section Nd.
Context {A : Type}.

(** [wf s d]: the nested lists [d] are rectangular with extents [s]. *)
Fixpoint wf (s : list nat) (d : nd A) : Prop :=
  match s, d with
  | [], Leaf _ => True
  | n :: s', Node l => length l = n /\ Forall (wf s') l
  | _, _ => False
  end.

(** Element at a full multi-index; [None] outside the array. *)
Fixpoint get (idx : list nat) (d : nd A) : option A :=
  match idx, d with
  | [], Leaf a => Some a
  | i :: idx', Node l =>
      match nth_error l i with
      | Some d' => get idx' d'
      | None => None
      end
  | _, _ => None
  end.

(** Apply [f] below [k] leading axes: the work of an Ellipsis. *)
Fixpoint map_lead (k : nat) (f : nd A -> nd A) (d : nd A) : nd A :=
  match k with
  | O => f d
  | S k' =>
      match d with
      | Node l => Node (map (map_lead k' f) l)
      | Leaf a => Leaf a
      end
  end.

(** Keep the entries [lo <= p < hi] of the outermost axis. *)
Definition cut (lo hi : nat) (d : nd A) : nd A :=
  match d with
  | Node l => Node (firstn (hi - lo) (skipn lo l))
  | Leaf a => Leaf a
  end.

(** Keep only entry [i] of the outermost axis, as a length-one axis:
    indexing with the list [[i]]. *)
Definition pick (i : nat) (d : nd A) : nd A :=
  match d with
  | Node l => Node (firstn 1 (skipn i l))
  | Leaf a => Leaf a
  end.

(** Entry [i] of the outermost axis, the axis dropped: indexing with
    the integer [i]. *)
Definition sub (i : nat) (d : nd A) : result (nd A) :=
  match d with
  | Node l =>
      match nth_error l i with
      | Some d' => Ok d'
      | None => Err IndexError
      end
  | Leaf _ => Err IndexError
  end.
End Nd.

Definition tget {A} (idx : list nat) (t : tensor A) : option A :=
  get idx (data t).

Definition twf {A} (t : tensor A) : Prop := wf (size t) (data t).

Definition rank {A} (t : tensor A) : nat := length (size t).

(** ** Python sequence indexing and slicing *)

(** [l[i]] on a tuple or list, for [i >= 0]. *)
Definition py_index {X} (l : list X) (i : nat) : result X :=
  match nth_error l i with
  | Some x => Ok x
  | None => Err IndexError
  end.

(** [tup[-3:]]: the last three entries, or all of them when there are
    fewer. *)
Definition last3 {X} (l : list X) : list X :=
  skipn (length l - 3) l.

(** A slice bound [x] normalised against an axis of length [n]: negative
    bounds count from the end, and everything is clamped to [0..n]. *)
Definition py_bound (n : nat) (x : Z) : nat :=
  if (x <? 0)%Z then Z.to_nat (Z.max 0 (x + Z.of_nat n))
  else Z.to_nat (Z.min x (Z.of_nat n)).

(** The slice [start:stop] applied to axis [axis] of a tensor. *)
Definition slice_axis {A} (axis : nat) (start stop : Z) (t : tensor A)
  : tensor A :=
  let n := nth axis (size t) 0 in
  let lo := py_bound n start in
  let hi := py_bound n stop in
  mkTensor
    (firstn axis (size t) ++ (hi - lo) :: skipn (S axis) (size t))
    (map_lead axis (cut lo hi) (data t)).

(** [t[..., a0:b0, a1:b1, a2:b2]] *)
Definition slice3 {A} (t : tensor A) (a0 b0 a1 b1 a2 b2 : Z) : tensor A :=
  let k := rank t - 3 in
  slice_axis (k + 2) a2 b2 (slice_axis (k + 1) a1 b1 (slice_axis k a0 b0 t)).

(** ** get_pair *)

(** [np.maximum(edge, 0)] and [np.maximum(-edge, 0)], on the integers that
    the int64 array [np.array(edge)] holds (see [int64_offset]). *)
Definition np_maximum0 (edge : list Z) : list Z := map (Z.max 0) edge.
Definition np_neg (edge : list Z) : list Z := map Z.opp edge.

(** The index expression shared by [get_pair] and [get_pair_first]:
    [t[..., lo[0]: shape[0] - hi[0], lo[1]: shape[1] - hi[1],
            lo[2]: shape[2] - hi[2]]].  The subscripts are evaluated left
    to right before the tensor is indexed. *)
Definition window {A} (t : tensor A) (shape : list nat) (lo hi : list Z)
  : result (tensor A) :=
  a0 <- py_index lo 0 ;; s0 <- py_index shape 0 ;; b0 <- py_index hi 0 ;;
  a1 <- py_index lo 1 ;; s1 <- py_index shape 1 ;; b1 <- py_index hi 1 ;;
  a2 <- py_index lo 2 ;; s2 <- py_index shape 2 ;; b2 <- py_index hi 2 ;;
  Ok (slice3 t a0 (Z.of_nat s0 - b0) a1 (Z.of_nat s1 - b1)
               a2 (Z.of_nat s2 - b2)).

Definition get_pair {A} (labels : tensor A) (edge : list Z)
  : result (tensor A * tensor A) :=
  let shape := last3 (size labels) in
  let offset1 := np_maximum0 edge in
  let offset2 := np_maximum0 (np_neg edge) in
  labels1 <- window labels shape offset1 offset2 ;;
  labels2 <- window labels shape offset2 offset1 ;;
  Ok (labels1, labels2).

(** ** Element-wise operations and broadcasting *)

Section Elementwise.
Context {A B C : Type}.

Fixpoint map_nd (f : A -> B) (d : nd A) : nd B :=
  match d with
  | Leaf a => Leaf (f a)
  | Node l => Node (map (map_nd f) l)
  end.

Section Map2.
Context {X Y W : Type} (g : X -> Y -> W).
Fixpoint map2 (l1 : list X) (l2 : list Y) : list W :=
  match l1, l2 with
  | x :: l1', y :: l2' => g x y :: map2 l1' l2'
  | _, _ => []
  end.
End Map2.

Fixpoint zip_nd (f : A -> B -> C) (d1 : nd A) (d2 : nd B) : nd C :=
  match d1, d2 with
  | Leaf a, Leaf b => Leaf (f a b)
  | Node l1, Node l2 => Node (map2 (zip_nd f) l1 l2)
  | _, _ => Node []
  end.
End Elementwise.

Definition tmap {A B} (f : A -> B) (t : tensor A) : tensor B :=
  mkTensor (size t) (map_nd f (data t)).

(** Sizes are aligned on the trailing axis; missing leading axes count
    as 1. *)
Definition pad_shape (r : nat) (s : list nat) : list nat :=
  repeat 1 (r - length s) ++ s.

Fixpoint pad_data {A} (k : nat) (d : nd A) : nd A :=
  match k with
  | O => d
  | S k' => Node [pad_data k' d]
  end.

Fixpoint join_shapes (s1 s2 : list nat) : option (list nat) :=
  match s1, s2 with
  | [], [] => Some []
  | a :: s1', b :: s2' =>
      match join_shapes s1' s2' with
      | Some s =>
          if a =? b then Some (a :: s)
          else if a =? 1 then Some (b :: s)
          else if b =? 1 then Some (a :: s)
          else None
      | None => None
      end
  | _, _ => None
  end.

Definition broadcast_shapes (s1 s2 : list nat) : option (list nat) :=
  let r := Nat.max (length s1) (length s2) in
  join_shapes (pad_shape r s1) (pad_shape r s2).

(** Stretch the length-one axes of [d] (extents [src]) to the extents
    [tgt] of the same rank. *)
Fixpoint stretch {A} (tgt src : list nat) (d : nd A) : nd A :=
  match tgt, src, d with
  | n :: tgt', m :: src', Node l =>
      if m =? n then Node (map (stretch tgt' src') l)
      else Node (repeat (stretch tgt' src' (hd (Node []) l)) n)
  | _, _, _ => d
  end.

Definition expand {A} (tgt : list nat) (t : tensor A) : nd A :=
  let k := length tgt - rank t in
  stretch tgt (pad_shape (length tgt) (size t)) (pad_data k (data t)).

(** A binary element-wise operator; [e] is what the library raises when
    the operand sizes do not broadcast. *)
Definition binop {A B C} (e : exn) (f : A -> B -> C)
    (t1 : tensor A) (t2 : tensor B) : result (tensor C) :=
  match broadcast_shapes (size t1) (size t2) with
  | Some s => Ok (mkTensor s (zip_nd f (expand s t1) (expand s t2)))
  | None => Err e
  end.

(** ** get_aff *)

(** What an element type has to provide for [==], [!= 0] and the cast of
    a boolean back to that type. *)
Class Dtype (A : Type) : Type := {
  d_zero : A;
  d_one : A;
  d_eqb : A -> A -> bool
}.

#[export] Instance Dtype_Z : Dtype Z :=
  {| d_zero := 0%Z; d_one := 1%Z; d_eqb := Z.eqb |}.

#[export] Instance Dtype_Qc : Dtype Qc :=
  {| d_zero := 0%Qc; d_one := 1%Qc; d_eqb := Qc_eq_bool |}.

(** [==] is symmetric and respects the test against zero. *)
Class DtypeLaws (A : Type) `{Dtype A} : Prop := {
  d_eqb_sym : forall a b : A, d_eqb a b = d_eqb b a;
  d_eqb_zero : forall a b : A,
    d_eqb a b = true -> d_eqb a d_zero = d_eqb b d_zero
}.

Arguments DtypeLaws A {_}.

Definition of_bool {A} `{Dtype A} (b : bool) : A :=
  if b then d_one else d_zero.

Definition get_aff {A} `{Dtype A} (labels : tensor A) (edge : list Z)
  : result (tensor A) :=
  '(o1, o2) <- get_pair labels edge ;;
  eq12 <- binop RuntimeError d_eqb o1 o2 ;;
  let nz := tmap (fun a => negb (d_eqb a d_zero)) o1 in
  ret <- binop RuntimeError andb eq12 nz ;;
  Ok (tmap of_bool ret).

(** ** get_pair_first *)

Local Open Scope string_scope.

(** Names bound at module level: the imports, the class and the helper
    functions. *)
Definition module_globals : list string :=
  [ "ProcessPoolExecutor"; "as_completed"; "Variable"; "run_watershed";
    "np"; "torch"; "nn"; "detect_critical"; "SuperVoxelAffinity";
    "toCPU"; "get_critical_mask"; "get_aff"; "get_pair";
    "get_pair_first" ].

Inductive pyval (A : Type) : Type :=
| VTensor (t : tensor A)
| VOther.

Arguments VTensor {A} t.
Arguments VOther {A}.

(** Loading a name that is then subscripted as a tensor: locals first,
    then the module, then nothing. *)
Definition load_tensor {A} (locals : list (string * pyval A))
    (name : string) : result (tensor A) :=
  match find (fun kv => String.eqb (fst kv) name) locals with
  | Some (_, VTensor t) => Ok t
  | Some (_, VOther) => Err TypeError
  | None =>
      if existsb (String.eqb name) module_globals then Err TypeError
      else Err (NameError name)
  end.

Definition get_pair_first {A} (labels : tensor A) (edge : list Z)
  : result (tensor A) :=
  let shape := last3 (size labels) in
  let offset1 := np_maximum0 edge in
  let offset2 := np_maximum0 (np_neg edge) in
  let locals :=
    [ ("labels", VTensor labels); ("edge", VOther); ("shape", VOther);
      ("offset1", VOther); ("offset2", VOther) ] in
  arr <- load_tensor locals "arr" ;;
  ret <- window arr shape offset1 offset2 ;;
  Ok ret.

Local Close Scope string_scope.

(** ** Whole-array helpers *)

Definition Qc_of_Z (z : Z) : Qc := Q2Qc (inject_Z z).
Definition Qc_of_nat (n : nat) : Qc := Qc_of_Z (Z.of_nat n).

(** [t[i, ...]] *)
Definition tsub {A} (i : nat) (t : tensor A) : result (tensor A) :=
  match size t with
  | [] => Err IndexError
  | n :: s =>
      if i <? n then d <- sub i (data t) ;; Ok (mkTensor s d)
      else Err IndexError
  end.

(** [np.zeros(s)] *)
Fixpoint zeros (s : list nat) : nd Qc :=
  match s with
  | [] => Leaf 0%Qc
  | n :: s' => Node (repeat (zeros s') n)
  end.

Fixpoint update {X} (i : nat) (x : X) (l : list X) : list X :=
  match l, i with
  | [], _ => []
  | _ :: l', O => x :: l'
  | y :: l', S i' => y :: update i' x l'
  end.

Definition set_slot {A} (i : nat) (d : nd A) (t : tensor A) : tensor A :=
  match data t with
  | Node l => mkTensor (size t) (Node (update i d l))
  | Leaf _ => t
  end.

(** [masks[i, ...] += v]: [v] has to broadcast to the extents of the
    slot. *)
Definition iadd_slot (masks : tensor Qc) (i : nat) (v : tensor Qc)
  : result (tensor Qc) :=
  slot <- tsub i masks ;;
  match broadcast_shapes (size slot) (size v) with
  | Some s =>
      if list_eq_dec Nat.eq_dec s (size slot)
      then Ok (set_slot i (zip_nd Qcplus (data slot) (expand s v)) masks)
      else Err ValueError
  | None => Err ValueError
  end.

Fixpoint flatten {A} (d : nd A) : list A :=
  match d with
  | Leaf a => [a]
  | Node l => flat_map flatten l
  end.

Definition Qcsum (l : list Qc) : Qc := fold_right Qcplus 0%Qc l.

(** [t.mean()]; the quotient by zero elements is [0] here. *)
Definition mean (t : tensor Qc) : Qc :=
  let xs := flatten (data t) in
  (Qcsum xs / Qc_of_nat (length xs))%Qc.

(** ** The loss object *)

Record Stats : Type := mkStats {
  Splits : Qc;
  Merges : Qc
}.

(** A future of the process pool: the call it was submitted with. *)
Record task : Type := mkTask {
  t_target : tensor Z;
  t_pred : tensor Z;
  t_process_id : nat;
  t_critical_type : Z
}.

(** What [get_critical_masks] leaves behind: the futures it submitted, in
    submission order, and its return value or exception. *)
Record run (X : Type) : Type := mkRun {
  processes : list task;
  outcome : result X
}.

Module SuperVoxelAffinity.

Module Decoder.
(** [x.size(-4)] *)
Definition size_m4 {A} (x : tensor A) : result nat :=
  if rank x <? 4 then Err IndexError
  else py_index (size x) (rank x - 4).

(** [x[..., [i], :, :, :]] *)
Definition channel {A} (i : nat) (x : tensor A) : tensor A :=
  let k := rank x - 4 in
  mkTensor (firstn k (size x) ++ 1 :: skipn (S k) (size x))
           (map_lead k (pick i) (data x)).

Definition forward {A} (edges : list (list Z)) (x : tensor A) (i : Z)
  : result (tensor A) :=
  num_channels <- size_m4 x ;;
  _ <- assert (num_channels =? length edges) ;;
  _ <- assert ((i <? Z.of_nat num_channels)%Z && (i >=? 0)%Z) ;;
  let xi := channel (Z.to_nat i) x in
  edge <- py_index edges (Z.to_nat i) ;;
  get_pair_first xi edge.
End Decoder.

Record self : Type := mkSelf {
  alpha : Qc;
  beta : Qc;
  decoder : tensor Qc -> Z -> result (tensor Qc);
  edges : list (list Z);
  threshold : Qc;
  criterion : tensor Qc -> tensor Qc -> result (tensor Qc)
}.

(** [__init__]; the device and the unused [return_cnts] flag are left
    out, and the criterion is always given. *)
Definition init (edges : list (list Z)) (alpha beta : Qc)
    (criterion : tensor Qc -> tensor Qc -> result (tensor Qc))
    (threshold : Qc) : self :=
  mkSelf alpha beta (Decoder.forward edges) edges threshold criterion.

(** Moving data between host and device changes no value; the conversion
    to float32 that comes with it, which leaves a float32 number as it is,
    is made in [Fp.toGPU] and [Fp.toCPU]. *)
Definition toGPU (arr : tensor Qc) : tensor Qc := arr.
Definition toCPU (arr : tensor Qc) : tensor Qc := arr.

Definition binarize (s : self) (pred : tensor Qc) : tensor Qc :=
  tmap (fun x => match (x ?= threshold s)%Qc with
                 | Gt => 1%Qc
                 | _ => 0%Qc
                 end) pred.

Section Collaborators.
(** waterz: the sequence of segmentations, finest first. *)
Variable run_watershed : tensor Qc -> list Z -> result (list (tensor Z)).
(** supervoxel_loss.critical_detection_3d *)
Variable detect_critical :
  tensor Z -> tensor Z -> result (tensor Qc * Z).
(** The order in which the pool hands back finished futures. *)
Variable as_completed : list task -> list task.

Definition to_labels (s : self) (pred_affs_i : tensor Qc)
  : result (tensor Z) :=
  iterator <- run_watershed (binarize s pred_affs_i) [0%Z] ;;
  match iterator with
  | first :: _ => Ok first
  | [] => Err StopIteration
  end.

Fixpoint get_pred_labels_loop (s : self) (pred_affs : tensor Qc)
    (ixs : list nat) (pred_labels : list (tensor Z))
  : result (list (tensor Z)) :=
  match ixs with
  | [] => Ok pred_labels
  | i :: ixs' =>
      x <- tsub i pred_affs ;;
      l <- to_labels s x ;;
      get_pred_labels_loop s pred_affs ixs' (pred_labels ++ [l])
  end.

Definition get_pred_labels (s : self) (pred_affs : tensor Qc)
  : result (list (tensor Z)) :=
  let pred_affs := toCPU pred_affs in
  n <- py_index (size pred_affs) 0 ;;
  get_pred_labels_loop s pred_affs (seq 0 n) [].

Definition get_critical_mask (target pred : tensor Z)
    (process_id : nat) (critical_type : Z)
  : result (nat * tensor Qc * Z * Z) :=
  '(mask, n_criticals) <- detect_critical target pred ;;
  Ok (process_id, mask, n_criticals, critical_type).

(** [process.result()] *)
Definition process_result (p : task) : result (nat * tensor Qc * Z * Z) :=
  get_critical_mask (t_target p) (t_pred p) (t_process_id p)
                    (t_critical_type p).

(** [targets[i, 0, ...]] *)
Definition target_volume (targets : tensor Z) (i : nat)
  : result (tensor Z) :=
  ti <- tsub i targets ;; tsub 0 ti.

(** The submission loop of [get_critical_masks]. *)
Fixpoint submit_loop (preds : list (tensor Z)) (targets : tensor Z)
    (ixs : list nat) (processes : list task) : run unit :=
  match ixs with
  | [] => mkRun processes (Ok tt)
  | i :: ixs' =>
      match (t0 <- target_volume targets i ;;
             p <- py_index preds i ;; Ok (t0, p)) with
      | Ok (t0, p) =>
          submit_loop preds targets ixs'
            (processes ++ [mkTask t0 p i (-1); mkTask p t0 i 1])
      | Err e => mkRun processes (Err e)
      end
  end.

(** The loop over [as_completed(processes)]. *)
Fixpoint collect_loop (s : self) (n : nat) (completed : list task)
    (masks : tensor Qc) (stats : Stats) : result (tensor Qc * Stats) :=
  match completed with
  | [] => Ok (masks, stats)
  | process :: rest =>
      '(i, mask_i, n_criticals, critical_type) <- process_result process ;;
      let share := (Qc_of_Z n_criticals / Qc_of_nat n)%Qc in
      if (critical_type =? -1)%Z then
        masks' <- iadd_slot masks i (tmap (Qcmult (beta s)) mask_i) ;;
        collect_loop s n rest masks'
          (mkStats (Splits stats + share) (Merges stats))
      else
        masks' <- iadd_slot masks i
                    (tmap (Qcmult (1 - beta s)) mask_i) ;;
        collect_loop s n rest masks'
          (mkStats (Splits stats) (Merges stats + share))
  end.

Definition get_critical_masks (s : self) (preds : list (tensor Z))
    (targets : tensor Z) : run (tensor Qc * Stats) :=
  let stats := mkStats 0 0 in
  match py_index preds 0 with
  | Err e => mkRun [] (Err e)
  | Ok pred0 =>
      let n := length preds in
      let masks := mkTensor (n :: size pred0) (zeros (n :: size pred0)) in
      let submitted := submit_loop preds targets (seq 0 n) [] in
      mkRun (processes submitted)
        (_ <- outcome submitted ;;
         '(masks, stats) <-
            collect_loop s n (as_completed (processes submitted))
                         masks stats ;;
         Ok (toGPU masks, stats))
  end.

(** The body of the inner loop of [forward], for example [i] and
    edge [j]. *)
Definition edge_loss (s : self) (pred_affs : tensor Qc)
    (target_labels_i mask_i : tensor Qc) (i j : nat) (edge : list Z)
  : result Qc :=
  pred_affs_i <- tsub i pred_affs ;;
  pred_affs_j <- decoder s pred_affs_i (Z.of_nat j) ;;
  target_affs_j <- get_aff target_labels_i edge ;;
  mask_aff_j <- get_aff mask_i edge ;;
  loss_j <- criterion s pred_affs_j target_affs_j ;;
  let term_1 := tmap (Qcmult (1 - alpha s)) loss_j in
  term_2 <- binop RuntimeError Qcmult
              (tmap (Qcmult (alpha s)) mask_aff_j) loss_j ;;
  total <- binop RuntimeError Qcplus term_1 term_2 ;;
  Ok (mean total).

Fixpoint edges_loop (s : self) (pred_affs : tensor Qc)
    (target_labels_i mask_i : tensor Qc) (i j : nat)
    (es : list (list Z)) (loss : Qc) : result Qc :=
  match es with
  | [] => Ok loss
  | edge :: es' =>
      l <- edge_loss s pred_affs target_labels_i mask_i i j edge ;;
      edges_loop s pred_affs target_labels_i mask_i i (S j) es'
                 (loss + l)%Qc
  end.

Fixpoint batch_loop (s : self) (pred_affs : tensor Qc)
    (target_labels : tensor Z) (masks : tensor Qc) (ixs : list nat)
    (loss : Qc) : result Qc :=
  match ixs with
  | [] => Ok loss
  | i :: ixs' =>
      m <- tsub i masks ;;
      let mask_i := toGPU m in
      t <- tsub i target_labels ;;
      let target_labels_i := toGPU (tmap Qc_of_Z t) in
      loss' <- edges_loop s pred_affs target_labels_i mask_i i 0
                          (edges s) loss ;;
      batch_loop s pred_affs target_labels masks ixs' loss'
  end.

Definition forward (s : self) (pred_affs : tensor Qc)
    (target_labels : tensor Z) : result (Qc * Stats) :=
  pred_labels <- get_pred_labels s pred_affs ;;
  '(masks, stats) <-
     outcome (get_critical_masks s pred_labels target_labels) ;;
  n <- py_index (size pred_affs) 0 ;;
  loss <- batch_loop s pred_affs target_labels masks (seq 0 n) 0%Qc ;;
  Ok (loss, stats).
End Collaborators.

End SuperVoxelAffinity.

(** ** The numeric code over IEEE numbers

    Where a value that the code computes is at stake, floats are not
    rationals.  A Python [float] and an entry of a numpy float64 array are
    binary64 numbers; an entry of a float32 array or tensor is a binary32
    number.  Both are [spec_float]s, and the operations are those of the
    Standard Library, rounding to nearest, ties to even.  This module
    holds the methods of the class that compare, multiply, add or convert
    floats: [binarize], [get_pred_labels], [get_critical_masks].  The
    masks of the detector, which is not part of this file, are float64
    arrays (the product with [beta] turns a boolean or integer mask into
    one). *)

Module Fp.

Definition float : Type := spec_float.

Definition add64 : float -> float -> float := SFadd 53 1024.
Definition sub64 : float -> float -> float := SFsub 53 1024.
Definition mul64 : float -> float -> float := SFmul 53 1024.
Definition div64 : float -> float -> float := SFdiv 53 1024.

Definition zero : float := S754_zero false.

(** [float(z)] of a Python [int]. *)
Definition of_int (z : Z) : float := binary_normalize 53 1024 z 0 false.

Definition one : float := of_int 1.

(** Conversion to float32: [np.array(_, np.float32)],
    [.astype(np.float32)], [.to(dtype=torch.float32)]. *)
Definition float32 (x : float) : float :=
  match x with
  | S754_finite s m e => binary_round 24 128 s m e
  | _ => x
  end.

(** [x > y] on two numbers of one format; False as soon as one of them is
    nan. *)
Definition gt (x y : float) : bool := SFltb y x.

(** The real number a finite float stands for. *)
Definition value (x : float) : Qc :=
  match x with
  | S754_finite s m e =>
      Q2Qc (inject_Z (cond_Zopp s (Zpos m)) * 2 ^ e)%Q
  | _ => 0%Qc
  end.

(** The attributes of the loss object that the methods below read. *)
Record self : Type := mkSelf {
  beta : float;
  threshold : float
}.

Record Stats : Type := mkStats {
  Splits : float;
  Merges : float
}.

(** [np.array(arr.cpu().detach(), np.float32)] *)
Definition toCPU (arr : tensor float) : tensor float := tmap float32 arr.

(** [Variable(torch.from_numpy(arr)).to(device, dtype=torch.float32)] *)
Definition toGPU (arr : tensor float) : tensor float := tmap float32 arr.

(** [(pred > self.threshold).astype(np.float32)] on a float32 array: numpy
    converts the Python float to float32 and compares in float32. *)
Definition binarize (s : self) (pred : tensor float) : tensor float :=
  tmap (fun x => if gt x (float32 (threshold s)) then float32 one else zero)
       pred.

(** [np.zeros(s)] *)
Fixpoint zeros (s : list nat) : nd float :=
  match s with
  | [] => Leaf zero
  | n :: s' => Node (repeat (zeros s') n)
  end.

(** [masks[i, ...] += v] on float64 arrays. *)
Definition iadd_slot (masks : tensor float) (i : nat) (v : tensor float)
  : result (tensor float) :=
  slot <- tsub i masks ;;
  match broadcast_shapes (size slot) (size v) with
  | Some s =>
      if list_eq_dec Nat.eq_dec s (size slot)
      then Ok (set_slot i (zip_nd add64 (data slot) (expand s v)) masks)
      else Err ValueError
  | None => Err ValueError
  end.

Section Collaborators.
Variable run_watershed : tensor float -> list Z -> result (list (tensor Z)).
Variable detect_critical :
  tensor Z -> tensor Z -> result (tensor float * Z).
Variable as_completed : list task -> list task.

Definition to_labels (s : self) (pred_affs_i : tensor float)
  : result (tensor Z) :=
  iterator <- run_watershed (binarize s pred_affs_i) [0%Z] ;;
  match iterator with
  | first :: _ => Ok first
  | [] => Err StopIteration
  end.

Fixpoint get_pred_labels_loop (s : self) (pred_affs : tensor float)
    (ixs : list nat) (pred_labels : list (tensor Z))
  : result (list (tensor Z)) :=
  match ixs with
  | [] => Ok pred_labels
  | i :: ixs' =>
      x <- tsub i pred_affs ;;
      l <- to_labels s x ;;
      get_pred_labels_loop s pred_affs ixs' (pred_labels ++ [l])
  end.

Definition get_pred_labels (s : self) (pred_affs : tensor float)
  : result (list (tensor Z)) :=
  let pred_affs := toCPU pred_affs in
  n <- py_index (size pred_affs) 0 ;;
  get_pred_labels_loop s pred_affs (seq 0 n) [].

Definition get_critical_mask (target pred : tensor Z)
    (process_id : nat) (critical_type : Z)
  : result (nat * tensor float * Z * Z) :=
  '(mask, n_criticals) <- detect_critical target pred ;;
  Ok (process_id, mask, n_criticals, critical_type).

Definition process_result (p : task)
  : result (nat * tensor float * Z * Z) :=
  get_critical_mask (t_target p) (t_pred p) (t_process_id p)
                    (t_critical_type p).

(** The loop over [as_completed(processes)]: products, sums and quotients
    are binary64 operations, in the order the futures complete. *)
Fixpoint collect_loop (s : self) (n : nat) (completed : list task)
    (masks : tensor float) (stats : Stats)
  : result (tensor float * Stats) :=
  match completed with
  | [] => Ok (masks, stats)
  | process :: rest =>
      '(i, mask_i, n_criticals, critical_type) <- process_result process ;;
      let share := div64 (of_int n_criticals) (of_int (Z.of_nat n)) in
      if (critical_type =? -1)%Z then
        masks' <- iadd_slot masks i (tmap (mul64 (beta s)) mask_i) ;;
        collect_loop s n rest masks'
          (mkStats (add64 (Splits stats) share) (Merges stats))
      else
        masks' <- iadd_slot masks i
                    (tmap (mul64 (sub64 one (beta s))) mask_i) ;;
        collect_loop s n rest masks'
          (mkStats (Splits stats) (add64 (Merges stats) share))
  end.

Definition get_critical_masks (s : self) (preds : list (tensor Z))
    (targets : tensor Z) : run (tensor float * Stats) :=
  let stats := mkStats zero zero in
  match py_index preds 0 with
  | Err e => mkRun [] (Err e)
  | Ok pred0 =>
      let n := length preds in
      let masks := mkTensor (n :: size pred0) (zeros (n :: size pred0)) in
      let submitted :=
        SuperVoxelAffinity.submit_loop preds targets (seq 0 n) [] in
      mkRun (processes submitted)
        (_ <- outcome submitted ;;
         '(masks, stats) <-
            collect_loop s n (as_completed (processes submitted))
                         masks stats ;;
         Ok (toGPU masks, stats))
  end.
End Collaborators.

End Fp.

(** ** Vocabulary of the specification *)

(** The two offsets of an edge component, as the specification writes
    them: [max(edge, 0)] and [max(-edge, 0)]. *)
Definition offset1 (e : Z) : nat := Z.to_nat (Z.max e 0).
Definition offset2 (e : Z) : nat := Z.to_nat (Z.max (- e) 0).

(** [w] is [t[lo : hi]] on each of the three trailing axes, in the
    specification's reading of a window: the size is [hi - lo] per axis and
    entry [(i, j, k)] of [w] is entry [(lo + i, lo + j, lo + k)] of [t],
    whatever the leading indices. *)
Definition spec_window {A} (lead : list nat) (lo hi : nat * nat * nat)
    (t w : tensor A) : Prop :=
  let '(lo0, lo1, lo2) := lo in
  let '(hi0, hi1, hi2) := hi in
  size w = lead ++ [hi0 - lo0; hi1 - lo1; hi2 - lo2] /\
  forall pre i j k, length pre = length lead ->
    tget (pre ++ [i; j; k]) w =
      if (i <? hi0 - lo0) && (j <? hi1 - lo1) && (k <? hi2 - lo2)
      then tget (pre ++ [lo0 + i; lo1 + j; lo2 + k]) t
      else None.

(** The entries of [(o1 == o2) & (o1 != 0)], cast back, when no
    broadcasting takes place. *)
Definition aff_data {A} `{Dtype A} (d1 d2 : nd A) : nd A :=
  map_nd of_bool
    (zip_nd andb (zip_nd d_eqb d1 d2)
       (map_nd (fun a => negb (d_eqb a d_zero)) d1)).

(** An array built from a function of the index; used to write down
    concrete volumes. *)
Fixpoint tabulate {A} (s : list nat) (f : list nat -> A) : nd A :=
  match s with
  | [] => Leaf (f [])
  | n :: s' =>
      Node (map (fun i => tabulate s' (fun idx => f (i :: idx))) (seq 0 n))
  end.

Definition volume {A} (s : list nat) (f : list nat -> A) : tensor A :=
  mkTensor s (tabulate s f).

(** A labelling that gives every voxel its own positive label. *)
Definition distinct_labels (idx : list nat) : Z :=
  fold_left (fun acc i => (acc * 10 + Z.of_nat i)%Z) idx 1%Z.

(** [idx] addresses an entry of an array of extents [s]. *)
Fixpoint in_range (idx s : list nat) : bool :=
  match idx, s with
  | [], [] => true
  | i :: idx', n :: s' => (i <? n) && in_range idx' s'
  | _, _ => false
  end.

Definition entry (idx : list nat) (t : tensor Qc) : Qc :=
  match tget idx t with
  | Some a => a
  | None => 0%Qc
  end.

(** [preds[i]], and the two futures the batch loop submits for
    example [i]. *)
Definition pred_at (preds : list (tensor Z)) (i : nat) : tensor Z :=
  nth i preds (mkTensor [] (Leaf 0%Z)).

Definition split_task (preds : list (tensor Z)) (tv : nat -> tensor Z)
    (i : nat) : task :=
  mkTask (tv i) (pred_at preds i) i (-1).

Definition merge_task (preds : list (tensor Z)) (tv : nat -> tensor Z)
    (i : nat) : task :=
  mkTask (pred_at preds i) (tv i) i 1.

Definition analyses (preds : list (tensor Z)) (tv : nat -> tensor Z)
    (i : nat) : list task :=
  [split_task preds tv i; merge_task preds tv i].

Section Contributions.
Variable detect_critical : tensor Z -> tensor Z -> result (tensor Qc * Z).
Variable s : SuperVoxelAffinity.self.
Variable n : nat.

(** What a finished future holds. *)
Definition task_mask (p : task) : tensor Qc :=
  match detect_critical (t_target p) (t_pred p) with
  | Ok (m, _) => m
  | Err _ => mkTensor [] (Leaf 0%Qc)
  end.

Definition task_count (p : task) : Z :=
  match detect_critical (t_target p) (t_pred p) with
  | Ok (_, c) => c
  | Err _ => 0%Z
  end.

Definition weight (p : task) : Qc :=
  if (t_critical_type p =? -1)%Z then SuperVoxelAffinity.beta s
  else (1 - SuperVoxelAffinity.beta s)%Qc.

(** What future [p] adds to entry [idx] of slot [i]. *)
Definition term (i : nat) (idx : list nat) (p : task) : Qc :=
  if t_process_id p =? i then (weight p * entry idx (task_mask p))%Qc
  else 0%Qc.

Definition split_share (p : task) : Qc :=
  if (t_critical_type p =? -1)%Z
  then (Qc_of_Z (task_count p) / Qc_of_nat n)%Qc else 0%Qc.

Definition merge_share (p : task) : Qc :=
  if (t_critical_type p =? -1)%Z
  then 0%Qc else (Qc_of_Z (task_count p) / Qc_of_nat n)%Qc.

(** A future that finishes with a well-formed mask of extents [shp] for
    a slot of the batch. *)
Definition good_task (shp : list nat) (p : task) : Prop :=
  t_process_id p < n /\
  exists m c,
    detect_critical (t_target p) (t_pred p) = Ok (m, c) /\
    size m = shp /\ twf m.
End Contributions.

(** The arithmetic mean of [f 0, ..., f (n - 1)]. *)
Definition mean_of (n : nat) (f : nat -> Z) : Qc :=
  (Qcsum (map (fun i => Qc_of_Z (f i)) (seq 0 n)) / Qc_of_nat n)%Qc.

(** The assumptions on a batch under which the analyses are read: the
    batch is not empty, [targets[i, 0, ...]] exists for every example, and
    both calls of the detector for example [i] return a well-formed mask
    of the size of a prediction, with a count. *)
Record batch_ok
    (detect_critical : tensor Z -> tensor Z -> result (tensor Qc * Z))
    (preds : list (tensor Z)) (targets : tensor Z) (tv : nat -> tensor Z)
    (split_mask merge_mask : nat -> tensor Qc)
    (split_count merge_count : nat -> Z) : Prop := mkBatchOk {
  ok_batch : 0 < length preds;
  ok_targets : forall i, i < length preds ->
    SuperVoxelAffinity.target_volume targets i = Ok (tv i);
  ok_split : forall i, i < length preds ->
    detect_critical (tv i) (pred_at preds i)
      = Ok (split_mask i, split_count i) /\
    size (split_mask i) = size (pred_at preds 0) /\ twf (split_mask i);
  ok_merge : forall i, i < length preds ->
    detect_critical (pred_at preds i) (tv i)
      = Ok (merge_mask i, merge_count i) /\
    size (merge_mask i) = size (pred_at preds 0) /\ twf (merge_mask i)
}.

(** The pool may hand the futures back in any order. *)
Definition any_order (as_completed : list task -> list task) : Prop :=
  forall l, Permutation (as_completed l) l.

(** Every entry of the mask is 0 or 1. *)
Definition binary (m : tensor Qc) : Prop :=
  forall idx x, tget idx m = Some x -> x = 0%Qc \/ x = 1%Qc.

(** A batch of two examples to run the definitions on.  The detector
    marks the labelled voxels of its first argument on which the second
    differs, and counts them. *)
Definition demo_preds : list (tensor Z) :=
  [volume [1; 2; 2] (fun _ => 1%Z); volume [1; 2; 2] distinct_labels].

Definition demo_targets : tensor Z :=
  volume [2; 1; 1; 2; 2] (fun idx => (distinct_labels idx mod 3)%Z).

Definition demo_detect (a b : tensor Z) : result (tensor Qc * Z) :=
  let mask :=
    zip_nd (fun x y => if (x =? y)%Z || (x =? 0)%Z then 0%Qc else 1%Qc)
           (data a) (data b) in
  Ok (mkTensor (size a) mask,
      Z.of_nat (length (filter (fun q => negb (Qc_eq_bool q 0))
                               (flatten mask)))).

(** A stand-in for the watershed: one segmentation, the foreground of
    the first affinity channel. *)
Definition demo_watershed (affs : tensor Qc) (ids : list Z)
  : result (list (tensor Z)) :=
  c <- tsub 0 affs ;;
  Ok [tmap (fun q => if Qc_eq_bool q 0 then 0%Z else 1%Z) c].

Definition demo_pred_affs : tensor Qc :=
  volume [2; 1; 1; 2; 2] (fun _ => Q2Qc (3 # 4)).

Definition demo_tv (i : nat) : tensor Z :=
  match SuperVoxelAffinity.target_volume demo_targets i with
  | Ok t => t
  | Err _ => mkTensor [] (Leaf 0%Z)
  end.

Definition demo_self : SuperVoxelAffinity.self :=
  SuperVoxelAffinity.init [[1; 0; 0]%Z] (Q2Qc (1 # 2)) (Q2Qc (1 # 4))
    (fun pred target => Ok pred) (Q2Qc (1 # 2)).

(** Future [p] returns a mask that broadcasts to a slot of extents
    [shp]. *)
Definition mask_fits
    (detect_critical : tensor Z -> tensor Z -> result (tensor Qc * Z))
    (shp : list nat) (p : task) : Prop :=
  exists m c,
    detect_critical (t_target p) (t_pred p) = Ok (m, c) /\
    broadcast_shapes shp (size m) = Some shp.

(** Future [p] is a cause of exception [e]: its worker raised [e], or its
    mask does not broadcast to the slot and [e] is ValueError. *)
Definition cause
    (detect_critical : tensor Z -> tensor Z -> result (tensor Qc * Z))
    (shp : list nat) (e : exn) (p : task) : Prop :=
  detect_critical (t_target p) (t_pred p) = Err e \/
  (e = ValueError /\
   exists m c,
     detect_critical (t_target p) (t_pred p) = Ok (m, c) /\
     broadcast_shapes shp (size m) <> Some shp).

(** A detector that raises when voxel (0, 0, 0) of its first argument
    carries label 1 and is [demo_detect] otherwise, and a detector that
    returns a mask of seven entries whatever the volumes. *)
Definition demo_detect_raising (a b : tensor Z)
  : result (tensor Qc * Z) :=
  match tget [0; 0; 0] a with
  | Some 1%Z => Err RuntimeError
  | _ => demo_detect a b
  end.

Definition demo_detect_misshapen (a b : tensor Z)
  : result (tensor Qc * Z) :=
  Ok (mkTensor [7] (zeros [7]), 0%Z).

(** [targets[i, 0, ...]] where it exists. *)
Definition target_at (targets : tensor Z) (i : nat) : tensor Z :=
  match SuperVoxelAffinity.target_volume targets i with
  | Ok t => t
  | Err _ => mkTensor [] (Leaf 0%Z)
  end.

(** Targets for one example only, and the label volumes that
    [demo_watershed] makes of [demo_pred_affs]. *)
Definition demo_short_targets : tensor Z :=
  volume [1; 1; 1; 2; 2] (fun idx => (distinct_labels idx mod 3)%Z).

Definition demo_labels : list (tensor Z) :=
  [volume [1; 2; 2] (fun _ => 1%Z); volume [1; 2; 2] (fun _ => 1%Z)].

(** A detector that finds nothing. *)
Definition demo_detect_clean (a b : tensor Z) : result (tensor Qc * Z) :=
  Ok (mkTensor (size a) (map_nd (fun _ => 0%Qc) (data a)), 0%Z).

(** ** Vocabulary for the computed values *)

(** A future of the split analysis (tag -1), and the examples in the
    order in which their split, respectively merge, analyses complete. *)
Definition is_split (p : task) : bool := (t_critical_type p =? -1)%Z.

Definition split_order (completed : list task) : list nat :=
  map t_process_id (filter is_split completed).

Definition merge_order (completed : list task) : list nat :=
  map t_process_id (filter (fun p => negb (is_split p)) completed).

(** A sum as the code accumulates it: from 0, one binary64 addition per
    term, left to right. *)
Definition sum64 (l : list Fp.float) : Fp.float :=
  fold_left Fp.add64 l Fp.zero.

Section FpContributions.
Variable detect_critical :
  tensor Z -> tensor Z -> result (tensor Fp.float * Z).
Variable s : Fp.self.
Variable n : nat.

Definition fp_task_mask (p : task) : tensor Fp.float :=
  match detect_critical (t_target p) (t_pred p) with
  | Ok (m, _) => m
  | Err _ => mkTensor [] (Leaf Fp.zero)
  end.

Definition fp_task_count (p : task) : Z :=
  match detect_critical (t_target p) (t_pred p) with
  | Ok (_, c) => c
  | Err _ => 0%Z
  end.

Definition fp_entry (idx : list nat) (t : tensor Fp.float) : Fp.float :=
  match tget idx t with
  | Some a => a
  | None => Fp.zero
  end.

Definition fp_weight (p : task) : Fp.float :=
  if is_split p then Fp.beta s else Fp.sub64 Fp.one (Fp.beta s).

(** What future [p] adds to entry [idx] of its slot, and to its stat. *)
Definition fp_term (idx : list nat) (p : task) : Fp.float :=
  Fp.mul64 (fp_weight p) (fp_entry idx (fp_task_mask p)).

(** What a slot holds at [idx] after the futures [L] tagged [i], when it
    held [a] before: their terms, added in the order of [L]. *)
Definition fp_slot_after (i : nat) (idx : list nat) (L : list task)
    (a : Fp.float) : Fp.float :=
  fold_left (fun acc p => Fp.add64 acc (fp_term idx p))
            (filter (fun p => t_process_id p =? i) L) a.

Definition fp_share (p : task) : Fp.float :=
  Fp.div64 (Fp.of_int (fp_task_count p)) (Fp.of_int (Z.of_nat n)).

Definition fp_good_task (shp : list nat) (p : task) : Prop :=
  t_process_id p < n /\
  exists m c,
    detect_critical (t_target p) (t_pred p) = Ok (m, c) /\
    size m = shp /\ twf m.
End FpContributions.

(** The assumptions of [batch_ok] for a detector with float64 masks; the
    counts and the batch size are integers that a binary64 number holds
    exactly. *)
Record fp_batch_ok
    (detect_critical : tensor Z -> tensor Z -> result (tensor Fp.float * Z))
    (preds : list (tensor Z)) (targets : tensor Z) (tv : nat -> tensor Z)
    (split_mask merge_mask : nat -> tensor Fp.float)
    (split_count merge_count : nat -> Z) : Prop := mkFpBatchOk {
  fp_ok_batch : 0 < length preds;
  fp_ok_length : (Z.of_nat (length preds) <= 2 ^ 53)%Z;
  fp_ok_targets : forall i, i < length preds ->
    SuperVoxelAffinity.target_volume targets i = Ok (tv i);
  fp_ok_split : forall i, i < length preds ->
    detect_critical (tv i) (pred_at preds i)
      = Ok (split_mask i, split_count i) /\
    size (split_mask i) = size (pred_at preds 0) /\ twf (split_mask i) /\
    (Z.abs (split_count i) <= 2 ^ 53)%Z;
  fp_ok_merge : forall i, i < length preds ->
    detect_critical (pred_at preds i) (tv i)
      = Ok (merge_mask i, merge_count i) /\
    size (merge_mask i) = size (pred_at preds 0) /\ twf (merge_mask i) /\
    (Z.abs (merge_count i) <= 2 ^ 53)%Z
}.

(** The float that Python reads the decimal literal [a / b] as, for small
    integers: the rounded quotient. *)
Definition fp_literal (a b : Z) : Fp.float :=
  Fp.div64 (Fp.of_int a) (Fp.of_int b).

(** [demo_detect] with a float64 mask. *)
Definition fp_demo_detect (a b : tensor Z)
  : result (tensor Fp.float * Z) :=
  let mask :=
    zip_nd (fun x y => if (x =? y)%Z || (x =? 0)%Z then Fp.zero else Fp.one)
           (data a) (data b) in
  Ok (mkTensor (size a) mask,
      Z.of_nat (length (filter (fun q => negb (SFeqb q Fp.zero))
                               (flatten mask)))).

(** A loss object with [beta = 0.25] and [threshold = 0.5], and one with
    [beta = 0.3]. *)
Definition fp_demo_self : Fp.self :=
  Fp.mkSelf (fp_literal 1 4) (fp_literal 1 2).

Definition fp_self_03 : Fp.self :=
  Fp.mkSelf (fp_literal 3 10) (fp_literal 1 2).

(** A batch of ten examples of one voxel each, label 1 predicted and
    label 2 expected, and a detector that marks the whole volume as one
    critical component when its reference carries label 2, and finds
    nothing otherwise. *)
Definition ten_preds : list (tensor Z) :=
  repeat (volume [1; 1; 1] (fun _ => 1%Z)) 10.

Definition ten_targets : tensor Z :=
  volume [10; 1; 1; 1; 1] (fun _ => 2%Z).

Definition detect_one (a b : tensor Z) : result (tensor Fp.float * Z) :=
  match flatten (data a) with
  | 2%Z :: _ => Ok (tmap (fun _ => Fp.one) a, 1%Z)
  | _ => Ok (tmap (fun _ => Fp.zero) a, 0%Z)
  end.

(** Targets of the documented shape (batch_size, height, width, depth),
    for two examples, and two predicted label volumes. *)
Definition documented_targets : tensor Z :=
  volume [2; 2; 2; 2] distinct_labels.

Definition documented_preds : list (tensor Z) :=
  [volume [2; 2; 2] (fun _ => 1%Z); volume [2; 2; 2] distinct_labels].

(** An edge component that numpy holds in an int64 array and negates
    without wrapping: strictly between -2^63 and 2^63.  [get_pair] takes
    the components as integers, which is what the code computes with for
    such edges. *)
Definition int64_offset (z : Z) : bool :=
  (- 2 ^ 63 <? z)%Z && (z <? 2 ^ 63)%Z.

(** The quotient of numerator and denominator of [q], rounded to float32,
    and the test that [q] is a float32 number: that quotient is a valid
    finite binary32 number whose value is [q] itself. *)
Definition float32_of_Qc (q : Qc) : Fp.float :=
  let den := S754_finite false (Qden q) 0 in
  match Qnum q with
  | Z0 => Fp.zero
  | Zpos p => SFdiv 24 128 (S754_finite false p 0) den
  | Zneg p => SFdiv 24 128 (S754_finite true p 0) den
  end.

Definition is_float32 (q : Qc) : bool :=
  let x := float32_of_Qc q in
  valid_binary 24 128 x && Qc_eq_bool (Fp.value x) q.

(** Predicted affinities whose second example lies just above the
    threshold 0.5 as float64 numbers, by 2^-30, and on it as float32
    numbers. *)
Definition fp_demo_pred_affs : tensor Fp.float :=
  volume [2; 1; 1; 2; 2]
    (fun idx => match idx with
                | 0 :: _ => fp_literal 3 4
                | _ => Fp.add64 (fp_literal 1 2) (fp_literal 1 (2 ^ 30))
                end).

(** [demo_watershed] and [demo_watershed_dry] on float32 arrays. *)
Definition fp_demo_watershed (affs : tensor Fp.float) (ids : list Z)
  : result (list (tensor Z)) :=
  c <- tsub 0 affs ;;
  Ok [tmap (fun q => if SFeqb q Fp.zero then 0%Z else 1%Z) c].

Definition fp_demo_watershed_dry (affs : tensor Fp.float) (ids : list Z)
  : result (list (tensor Z)) :=
  match flatten (data affs) with
  | x :: _ => if SFeqb x Fp.zero then Ok [] else fp_demo_watershed affs ids
  | [] => Ok []
  end.

(** Ten targets carrying the labels 1 to 10, and a detector that counts
    as many critical components as the label of its reference says, up to
    3, and none for a larger label. *)
Definition numbered_targets : tensor Z :=
  volume [10; 1; 1; 1; 1]
    (fun idx => match idx with
                | i :: _ => Z.of_nat (S i)
                | [] => 0%Z
                end).

Definition detect_label (a b : tensor Z) : result (tensor Fp.float * Z) :=
  match flatten (data a) with
  | x :: _ => Ok (tmap (fun _ => Fp.zero) a, if (x <=? 3)%Z then x else 0%Z)
  | [] => Ok (tmap (fun _ => Fp.zero) a, 0%Z)
  end.

(** * Proofs *)

(** ** The error monad *)

Lemma rbind_ok {X Y} (m : result X) (k : X -> result Y) (y : Y) :
  rbind m k = Ok y -> exists x, m = Ok x /\ k x = Ok y.
Proof.
  destruct m as [x|e]; simpl; intros E; [exists x; auto | discriminate].
Qed.

Lemma py_index_ok {X} (l : list X) (i : nat) (d : X) :
  i < length l -> py_index l i = Ok (nth i l d).
Proof.
  intros Hi. unfold py_index.
  rewrite (nth_error_nth' l d Hi). reflexivity.
Qed.

Lemma py_index_err {X} (l : list X) (i : nat) :
  length l <= i -> py_index l i = Err IndexError.
Proof.
  intros Hi. unfold py_index.
  apply nth_error_None in Hi. rewrite Hi. reflexivity.
Qed.

(** ** Slice bounds *)

Lemma py_bound_le (n : nat) (x : Z) : py_bound n x <= n.
Proof. unfold py_bound. destruct (x <? 0)%Z eqn:E; lia. Qed.

Lemma py_bound_inside (n : nat) (x : Z) :
  (0 <= x <= Z.of_nat n)%Z -> py_bound n x = Z.to_nat x.
Proof. intros Hx. unfold py_bound. destruct (x <? 0)%Z eqn:E; lia. Qed.

(** ** Indexing into windows *)

Lemma nth_error_window {X} (l : list X) (lo w p : nat) :
  nth_error (firstn w (skipn lo l)) p =
  if p <? w then nth_error l (lo + p) else None.
Proof. rewrite nth_error_firstn, nth_error_skipn. reflexivity. Qed.

Lemma get_map_lead_cut {A} (lo hi : nat) :
  forall (pre : list nat) (p : nat) (post : list nat) (d : nd A),
    get (pre ++ p :: post) (map_lead (length pre) (cut lo hi) d) =
    if p <? hi - lo then get (pre ++ (lo + p) :: post) d else None.
Proof.
  induction pre as [|q pre IH]; intros p post d; simpl.
  - destruct d as [a|l]; simpl.
    + destruct (p <? hi - lo); reflexivity.
    + rewrite nth_error_window. destruct (p <? hi - lo); reflexivity.
  - destruct d as [a|l]; simpl.
    + destruct (p <? hi - lo); reflexivity.
    + rewrite nth_error_map. destruct (nth_error l q) as [d'|]; simpl.
      * apply IH.
      * destruct (p <? hi - lo); reflexivity.
Qed.

Lemma firstn_middle {X} (pre post : list X) (x : X) :
  firstn (length pre) (pre ++ x :: post) = pre.
Proof. induction pre; simpl; congruence. Qed.

Lemma skipn_middle {X} (pre post : list X) (x : X) :
  skipn (S (length pre)) (pre ++ x :: post) = post.
Proof. induction pre; simpl; auto. Qed.

Lemma size_slice_axis {A} (t : tensor A) (pre post : list nat) (n : nat)
    (a b : Z) :
  size t = pre ++ n :: post ->
  size (slice_axis (length pre) a b t) =
  pre ++ (py_bound n b - py_bound n a) :: post.
Proof.
  intros Hs. unfold slice_axis; cbn [size]. rewrite Hs.
  rewrite nth_middle, firstn_middle, skipn_middle. reflexivity.
Qed.

Lemma tget_slice_axis {A} (t : tensor A) (pre post : list nat) (n : nat)
    (a b : Z) (ipre ipost : list nat) (p : nat) :
  size t = pre ++ n :: post -> length ipre = length pre ->
  tget (ipre ++ p :: ipost) (slice_axis (length pre) a b t) =
  if p <? py_bound n b - py_bound n a
  then tget (ipre ++ (py_bound n a + p) :: ipost) t
  else None.
Proof.
  intros Hs Hl. unfold tget, slice_axis; cbn [data].
  rewrite Hs, nth_middle, <- Hl. apply get_map_lead_cut.
Qed.

Section Slice3.
Context {A : Type}.
Variables (t : tensor A) (lead : list nat) (s0 s1 s2 : nat).
Hypothesis Hsize : size t = lead ++ [s0; s1; s2].
Lemma rank_lead : rank t - 3 = length lead.
Proof. unfold rank. rewrite Hsize, length_app. simpl. lia. Qed.

Lemma last3_lead : last3 (size t) = [s0; s1; s2].
Proof.
  unfold last3. fold (rank t). rewrite rank_lead, Hsize.
  rewrite skipn_app, skipn_all, Nat.sub_diag. reflexivity.
Qed.

Variables (a0 b0 a1 b1 a2 b2 : Z).

Let w0 := py_bound s0 b0 - py_bound s0 a0.
Let w1 := py_bound s1 b1 - py_bound s1 a1.
Let w2 := py_bound s2 b2 - py_bound s2 a2.

Lemma size_slice3 :
  size (slice3 t a0 b0 a1 b1 a2 b2) = lead ++ [w0; w1; w2].
Proof.
  unfold slice3. rewrite rank_lead.
  pose proof (size_slice_axis t lead [s1; s2] s0 a0 b0 Hsize) as E0.
  fold w0 in E0.
  set (t0 := slice_axis (length lead) a0 b0 t) in *.
  assert (E0' : size t0 = (lead ++ [w0]) ++ s1 :: [s2])
    by (rewrite <- app_assoc; exact E0).
  pose proof (size_slice_axis t0 (lead ++ [w0]) [s2] s1 a1 b1 E0') as E1.
  fold w1 in E1. rewrite length_app in E1. simpl length in E1.
  set (t1 := slice_axis (length lead + 1) a1 b1 t0) in *.
  assert (E1' : size t1 = (lead ++ [w0; w1]) ++ s2 :: [])
    by (rewrite <- !app_assoc in *; exact E1).
  pose proof (size_slice_axis t1 (lead ++ [w0; w1]) [] s2 a2 b2 E1') as E2.
  fold w2 in E2. rewrite length_app in E2. simpl length in E2.
  rewrite E2, <- app_assoc. reflexivity.
Qed.

Lemma tget_slice3 (pre : list nat) (i j k : nat) :
  length pre = length lead ->
  tget (pre ++ [i; j; k]) (slice3 t a0 b0 a1 b1 a2 b2) =
  if (i <? w0) && (j <? w1) && (k <? w2)
  then tget (pre ++ [py_bound s0 a0 + i; py_bound s1 a1 + j;
                     py_bound s2 a2 + k]) t
  else None.
Proof.
  intros Hl. unfold slice3. rewrite rank_lead.
  pose proof (size_slice_axis t lead [s1; s2] s0 a0 b0 Hsize) as E0.
  fold w0 in E0.
  set (t0 := slice_axis (length lead) a0 b0 t) in *.
  assert (E0' : size t0 = (lead ++ [w0]) ++ s1 :: [s2])
    by (rewrite <- app_assoc; exact E0).
  pose proof (size_slice_axis t0 (lead ++ [w0]) [s2] s1 a1 b1 E0') as E1.
  fold w1 in E1.
  assert (L1 : length (lead ++ [w0]) = length lead + 1)
    by (rewrite length_app; reflexivity).
  set (t1 := slice_axis (length lead + 1) a1 b1 t0) in *.
  assert (E1' : size t1 = (lead ++ [w0; w1]) ++ s2 :: []).
  { subst t1. rewrite <- L1, E1, <- !app_assoc. reflexivity. }
  assert (L2 : length (lead ++ [w0; w1]) = length lead + 2)
    by (rewrite length_app; reflexivity).
  (* innermost axis *)
  rewrite <- L2.
  replace (pre ++ [i; j; k]) with ((pre ++ [i; j]) ++ k :: [])
    by (rewrite <- app_assoc; reflexivity).
  rewrite (tget_slice_axis t1 (lead ++ [w0; w1]) [] s2 a2 b2
             (pre ++ [i; j]) [] k E1')
    by (rewrite !length_app; simpl; lia).
  fold w2. destruct (k <? w2); [|rewrite !andb_false_r; reflexivity].
  rewrite andb_true_r.
  (* middle axis *)
  subst t1. rewrite <- L1.
  replace ((pre ++ [i; j]) ++ [py_bound s2 a2 + k])
    with ((pre ++ [i]) ++ j :: [py_bound s2 a2 + k])
    by (rewrite <- !app_assoc; reflexivity).
  rewrite (tget_slice_axis t0 (lead ++ [w0]) [s2] s1 a1 b1
             (pre ++ [i]) [py_bound s2 a2 + k] j E0')
    by (rewrite !length_app; simpl; lia).
  fold w1. destruct (j <? w1); [|rewrite andb_false_r; reflexivity].
  rewrite andb_true_r.
  (* outermost of the three *)
  subst t0.
  replace ((pre ++ [i]) ++ [py_bound s1 a1 + j; py_bound s2 a2 + k])
    with (pre ++ i :: [py_bound s1 a1 + j; py_bound s2 a2 + k])
    by (rewrite <- !app_assoc; reflexivity).
  rewrite (tget_slice_axis t lead [s1; s2] s0 a0 b0 pre
             [py_bound s1 a1 + j; py_bound s2 a2 + k] i Hsize Hl).
  fold w0. destruct (i <? w0); reflexivity.
Qed.
End Slice3.

(** ** get_pair on a volume with three trailing axes *)

Lemma window_lead {A} (t : tensor A) (lead : list nat) (s0 s1 s2 : nat)
    (x0 x1 x2 y0 y1 y2 : Z) (xs ys : list Z) :
  size t = lead ++ [s0; s1; s2] ->
  window t (last3 (size t)) (x0 :: x1 :: x2 :: xs) (y0 :: y1 :: y2 :: ys) =
  Ok (slice3 t x0 (Z.of_nat s0 - y0) x1 (Z.of_nat s1 - y1)
               x2 (Z.of_nat s2 - y2)).
Proof. intros Hs. rewrite (last3_lead t lead s0 s1 s2 Hs). reflexivity. Qed.

Lemma get_pair_lead {A} (labels : tensor A) (lead : list nat)
    (s0 s1 s2 : nat) (e0 e1 e2 : Z) (rest : list Z) :
  size labels = lead ++ [s0; s1; s2] ->
  get_pair labels (e0 :: e1 :: e2 :: rest) =
  Ok (slice3 labels (Z.max 0 e0) (Z.of_nat s0 - Z.max 0 (- e0))
                    (Z.max 0 e1) (Z.of_nat s1 - Z.max 0 (- e1))
                    (Z.max 0 e2) (Z.of_nat s2 - Z.max 0 (- e2)),
      slice3 labels (Z.max 0 (- e0)) (Z.of_nat s0 - Z.max 0 e0)
                    (Z.max 0 (- e1)) (Z.of_nat s1 - Z.max 0 e1)
                    (Z.max 0 (- e2)) (Z.of_nat s2 - Z.max 0 e2)).
Proof.
  intros Hs. unfold get_pair. cbn [np_maximum0 np_neg map].
  rewrite !(window_lead labels lead s0 s1 s2 _ _ _ _ _ _ _ _ Hs).
  reflexivity.
Qed.

Lemma py_bound_start (s : nat) (x y : Z) :
  (0 <= x)%Z -> (0 <= y)%Z -> (x + y <= Z.of_nat s)%Z ->
  py_bound s x = Z.to_nat x /\
  py_bound s (Z.of_nat s - y) = s - Z.to_nat y.
Proof.
  intros Hx Hy Hxy. split.
  - apply py_bound_inside. lia.
  - rewrite py_bound_inside by lia. lia.
Qed.

Lemma spec_window_slice3 {A} (t : tensor A) (lead : list nat)
    (s0 s1 s2 : nat) (x0 x1 x2 y0 y1 y2 : Z) :
  size t = lead ++ [s0; s1; s2] ->
  (0 <= x0)%Z -> (0 <= y0)%Z -> (x0 + y0 <= Z.of_nat s0)%Z ->
  (0 <= x1)%Z -> (0 <= y1)%Z -> (x1 + y1 <= Z.of_nat s1)%Z ->
  (0 <= x2)%Z -> (0 <= y2)%Z -> (x2 + y2 <= Z.of_nat s2)%Z ->
  spec_window lead
    (Z.to_nat x0, Z.to_nat x1, Z.to_nat x2)
    (s0 - Z.to_nat y0, s1 - Z.to_nat y1, s2 - Z.to_nat y2)
    t (slice3 t x0 (Z.of_nat s0 - y0) x1 (Z.of_nat s1 - y1)
                x2 (Z.of_nat s2 - y2)).
Proof.
  intros Hs Hx0 Hy0 H0 Hx1 Hy1 H1 Hx2 Hy2 H2.
  destruct (py_bound_start s0 Hx0 Hy0 H0) as [A0 B0].
  destruct (py_bound_start s1 Hx1 Hy1 H1) as [A1 B1].
  destruct (py_bound_start s2 Hx2 Hy2 H2) as [A2 B2].
  unfold spec_window. split.
  - rewrite (size_slice3 t lead s0 s1 s2 Hs). rewrite A0, B0, A1, B1, A2, B2.
    reflexivity.
  - intros pre i j k Hl.
    rewrite (tget_slice3 t lead s0 s1 s2 Hs _ _ _ _ _ _ pre i j k Hl).
    rewrite A0, B0, A1, B1, A2, B2. reflexivity.
Qed.

(** ** Element-wise operations *)

Lemma get_map_nd {A B} (f : A -> B) :
  forall (idx : list nat) (d : nd A),
    get idx (map_nd f d) = option_map f (get idx d).
Proof.
  induction idx as [|i idx IH]; intros [a|l]; simpl; try reflexivity.
  rewrite nth_error_map. destruct (nth_error l i); simpl; auto.
Qed.

Lemma nth_error_map2 {X Y W} (g : X -> Y -> W) :
  forall (l1 : list X) (l2 : list Y) (i : nat),
    nth_error (map2 g l1 l2) i =
    match nth_error l1 i, nth_error l2 i with
    | Some x, Some y => Some (g x y)
    | _, _ => None
    end.
Proof.
  induction l1 as [|x l1 IH]; intros [|y l2] [|i]; simpl; try reflexivity.
  - destruct (nth_error l1 i); reflexivity.
  - apply IH.
Qed.

Lemma get_zip_nd {A B C} (f : A -> B -> C) :
  forall (idx : list nat) (d1 : nd A) (d2 : nd B),
    get idx (zip_nd f d1 d2) =
    match get idx d1, get idx d2 with
    | Some a, Some b => Some (f a b)
    | _, _ => None
    end.
Proof.
  induction idx as [|i idx IH]; intros [a|l1] [b|l2]; simpl;
    try reflexivity.
  - destruct i; reflexivity.
  - assert (E : nth_error (@nil (nd C)) i = None)
      by (destruct i; reflexivity).
    rewrite E.
    destruct (nth_error l1 i) as [d|]; [destruct (get idx d)|];
      reflexivity.
  - rewrite nth_error_map2.
    destruct (nth_error l1 i) as [x|], (nth_error l2 i) as [y|];
      try reflexivity.
    + apply IH.
    + destruct (get idx x); reflexivity.
Qed.

Lemma stretch_same {A} :
  forall (s : list nat) (d : nd A), stretch s s d = d.
Proof.
  induction s as [|n s IH]; intros [a|l]; simpl; try reflexivity.
  rewrite Nat.eqb_refl. f_equal.
  rewrite <- (map_id l) at 2. apply map_ext. intros x. apply IH.
Qed.

Lemma pad_shape_same (s : list nat) : pad_shape (length s) s = s.
Proof. unfold pad_shape. rewrite Nat.sub_diag. reflexivity. Qed.

Lemma join_shapes_same (s : list nat) : join_shapes s s = Some s.
Proof.
  induction s as [|n s IH]; simpl; [reflexivity|].
  rewrite IH, Nat.eqb_refl. reflexivity.
Qed.

Lemma broadcast_shapes_same (s : list nat) : broadcast_shapes s s = Some s.
Proof.
  unfold broadcast_shapes. rewrite Nat.max_id, pad_shape_same.
  apply join_shapes_same.
Qed.

Lemma expand_same {A} (t : tensor A) : expand (size t) t = data t.
Proof.
  unfold expand, rank. rewrite Nat.sub_diag, pad_shape_same. simpl.
  apply stretch_same.
Qed.

Lemma binop_same {A B C} (e : exn) (f : A -> B -> C)
    (t1 : tensor A) (t2 : tensor B) :
  size t1 = size t2 ->
  binop e f t1 t2 =
  Ok (mkTensor (size t1) (zip_nd f (data t1) (data t2))).
Proof.
  intros Hs. unfold binop. rewrite <- Hs, broadcast_shapes_same.
  rewrite expand_same. rewrite Hs at 2. rewrite expand_same. reflexivity.
Qed.

(** ** get_aff when the two windows have one size *)

Lemma get_aff_same_size {A} `{Dtype A} (labels o1 o2 : tensor A)
    (edge : list Z) :
  get_pair labels edge = Ok (o1, o2) -> size o1 = size o2 ->
  get_aff labels edge =
  Ok (mkTensor (size o1) (aff_data (data o1) (data o2))).
Proof.
  intros Hp Hs. unfold get_aff. rewrite Hp. simpl rbind.
  rewrite (binop_same _ _ _ _ Hs). simpl rbind.
  rewrite binop_same by reflexivity. reflexivity.
Qed.

Lemma get_aff_data {A} `{Dtype A} (d1 d2 : nd A) (idx : list nat) :
  get idx (aff_data d1 d2) =
  match get idx d1, get idx d2 with
  | Some a, Some b =>
      Some (of_bool (d_eqb a b && negb (d_eqb a d_zero)))
  | _, _ => None
  end.
Proof.
  unfold aff_data.
  rewrite get_map_nd, get_zip_nd, get_zip_nd, get_map_nd.
  destruct (get idx d1) as [a|], (get idx d2) as [b|]; reflexivity.
Qed.

Lemma nd_induction {A} (P : nd A -> Prop) :
  (forall a, P (Leaf a)) ->
  (forall l, Forall P l -> P (Node l)) ->
  forall d, P d.
Proof.
  intros HL HN. fix IH 1. intros [a|l].
  - apply HL.
  - apply HN. induction l as [|x l IHl]; constructor.
    + apply IH.
    + exact IHl.
Qed.

Lemma aff_data_sym {A} `{DtypeLaws A} :
  forall d1 d2 : nd A, aff_data d2 d1 = aff_data d1 d2.
Proof.
  induction d1 as [a|l1 IH] using nd_induction; intros [b|l2];
    unfold aff_data; simpl; try reflexivity.
  - rewrite (d_eqb_sym b a). destruct (d_eqb a b) eqn:E; simpl.
    + rewrite (d_eqb_zero _ _ E). reflexivity.
    + reflexivity.
  - f_equal. revert l2.
    induction IH as [|x l1 Hx _ IHl]; intros [|y l2]; simpl;
      try reflexivity.
    f_equal.
    + apply (Hx y).
    + apply IHl.
Qed.

(** ** Shapes that end in three axes *)

Lemma split_last3 (l : list nat) :
  3 <= length l -> exists lead s0 s1 s2, l = lead ++ [s0; s1; s2].
Proof.
  intros Hl. exists (firstn (length l - 3) l).
  pose proof (firstn_skipn (length l - 3) l) as E.
  pose proof (length_skipn (length l - 3) l) as L.
  destruct (skipn (length l - 3) l) as [|s0 [|s1 [|s2 [|? ?]]]];
    simpl in L; try lia.
  exists s0, s1, s2. symmetry. exact E.
Qed.

Lemma get_pair_low_rank {A} (labels : tensor A) (edge : list Z) :
  rank labels < 3 -> get_pair labels edge = Err IndexError.
Proof.
  destruct labels as [sz d]. unfold rank, get_pair, window, last3.
  cbn [size]. intros Hr.
  destruct sz as [|a [|b [|c sz]]]; [| | |simpl in Hr; lia];
    destruct edge as [|e0 [|e1 [|e2 edge]]]; reflexivity.
Qed.

Lemma binop_err {A B C} (e e' : exn) (f : A -> B -> C)
    (t1 : tensor A) (t2 : tensor B) :
  binop e f t1 t2 = Err e' -> e' = e.
Proof.
  unfold binop. destruct (broadcast_shapes _ _); congruence.
Qed.

(** ** Rectangular arrays *)

Lemma wf_get_some {A} :
  forall (s idx : list nat) (d : nd A),
    wf s d -> in_range idx s = true -> exists a, get idx d = Some a.
Proof.
  induction s as [|n s IH]; intros [|i idx] [a|l] Hw Hr; simpl in *;
    try discriminate; try contradiction.
  - exists a. reflexivity.
  - destruct Hw as [Hl Hf]. apply andb_true_iff in Hr as [Hi Hr].
    apply Nat.ltb_lt in Hi.
    destruct (nth_error l i) as [d'|] eqn:E.
    + apply (IH idx d'); [|exact Hr].
      rewrite Forall_forall in Hf. apply Hf.
      apply (nth_error_In _ _ E).
    + apply nth_error_None in E. lia.
Qed.

Lemma wf_get_none {A} :
  forall (s idx : list nat) (d : nd A),
    wf s d -> in_range idx s = false -> get idx d = None.
Proof.
  induction s as [|n s IH]; intros [|i idx] [a|l] Hw Hr; simpl in *;
    try discriminate; try contradiction; try reflexivity.
  destruct Hw as [Hl Hf].
  destruct (nth_error l i) as [d'|] eqn:E; [|reflexivity].
  assert (Hi : i < n).
  { rewrite <- Hl. apply nth_error_Some. congruence. }
  apply Nat.ltb_lt in Hi. rewrite Hi in Hr. simpl in Hr.
  apply (IH idx d'); [|exact Hr].
  rewrite Forall_forall in Hf. apply Hf. apply (nth_error_In _ _ E).
Qed.

Lemma get_in_range {A} (s idx : list nat) (d : nd A) (a : A) :
  wf s d -> get idx d = Some a -> in_range idx s = true.
Proof.
  intros Hw Hg. destruct (in_range idx s) eqn:E; [reflexivity|].
  rewrite (wf_get_none s idx d Hw E) in Hg. discriminate.
Qed.

Lemma nth_error_repeat_full {X} (x : X) (n i : nat) :
  nth_error (repeat x n) i = if i <? n then Some x else None.
Proof.
  destruct (Nat.ltb_spec i n) as [Hi|Hi].
  - apply nth_error_repeat. exact Hi.
  - apply nth_error_None. rewrite repeat_length. exact Hi.
Qed.

Lemma get_zeros :
  forall (s idx : list nat),
    get idx (zeros s) = if in_range idx s then Some 0%Qc else None.
Proof.
  induction s as [|n s IH]; intros [|i idx]; simpl; try reflexivity.
  rewrite nth_error_repeat_full.
  destruct (i <? n); simpl; [apply IH | reflexivity].
Qed.

Lemma wf_zeros (s : list nat) : wf s (zeros s).
Proof.
  induction s as [|n s IH]; simpl; [exact I|]. split.
  - apply repeat_length.
  - apply Forall_forall. intros x Hx.
    apply repeat_spec in Hx. subst. exact IH.
Qed.

Lemma wf_map_nd {A B} (f : A -> B) :
  forall (s : list nat) (d : nd A), wf s d -> wf s (map_nd f d).
Proof.
  induction s as [|n s IH]; intros [a|l] Hw; simpl in *; auto.
  destruct Hw as [Hl Hf]. split.
  - rewrite length_map. exact Hl.
  - apply Forall_map. revert Hf. apply Forall_impl. apply IH.
Qed.

Lemma map2_length {X Y W} (g : X -> Y -> W) :
  forall (l1 : list X) (l2 : list Y),
    length l1 = length l2 -> length (map2 g l1 l2) = length l1.
Proof.
  induction l1 as [|x l1 IH]; intros [|y l2] Hl; simpl in *;
    try discriminate; auto.
Qed.

Lemma Forall_map2 {X Y W} (g : X -> Y -> W) (P : X -> Prop)
    (Q : Y -> Prop) (R : W -> Prop) :
  (forall x y, P x -> Q y -> R (g x y)) ->
  forall (l1 : list X) (l2 : list Y),
    Forall P l1 -> Forall Q l2 -> Forall R (map2 g l1 l2).
Proof.
  intros Hg. induction l1 as [|x l1 IH]; intros [|y l2] H1 H2; simpl;
    try constructor.
  - inversion H1; inversion H2; subst. auto.
  - inversion H1; inversion H2; subst. auto.
Qed.

Lemma wf_zip_nd {A B C} (f : A -> B -> C) :
  forall (s : list nat) (d1 : nd A) (d2 : nd B),
    wf s d1 -> wf s d2 -> wf s (zip_nd f d1 d2).
Proof.
  induction s as [|n s IH]; intros [a|l1] [b|l2] H1 H2; simpl in *;
    try contradiction; auto.
  destruct H1 as [L1 F1], H2 as [L2 F2]. split.
  - rewrite map2_length; congruence.
  - apply Forall_map2 with (P := wf s) (Q := wf s); auto.
Qed.

(** ** Slicing keeps arrays rectangular *)

Lemma Forall_window {X} (P : X -> Prop) (l : list X) (lo w : nat) :
  Forall P l -> Forall P (firstn w (skipn lo l)).
Proof.
  rewrite !Forall_forall. intros Hl x Hx.
  apply In_nth_error in Hx as [i Hi].
  rewrite nth_error_window in Hi.
  destruct (i <? w); [|discriminate].
  apply Hl. apply (nth_error_In _ _ Hi).
Qed.

Lemma wf_map_lead_cut {A} (n lo hi : nat) (post : list nat) :
  hi <= n ->
  forall (pre : list nat) (d : nd A),
    wf (pre ++ n :: post) d ->
    wf (pre ++ (hi - lo) :: post) (map_lead (length pre) (cut lo hi) d).
Proof.
  intros Hhi. induction pre as [|m pre IH]; intros [a|l] Hw; simpl in *;
    try contradiction; destruct Hw as [Hl Hf].
  - split; [|apply Forall_window; exact Hf].
    rewrite length_firstn, length_skipn. lia.
  - split; [rewrite length_map; exact Hl|].
    apply Forall_map. revert Hf. apply Forall_impl. exact IH.
Qed.

Lemma twf_slice_axis {A} (t : tensor A) (pre post : list nat) (n : nat)
    (a b : Z) :
  size t = pre ++ n :: post -> twf t ->
  twf (slice_axis (length pre) a b t).
Proof.
  intros Hs Hw. unfold twf in *.
  rewrite (size_slice_axis t pre post n a b Hs).
  unfold slice_axis. cbn [data]. rewrite Hs, nth_middle.
  apply wf_map_lead_cut with (n := n); [apply py_bound_le|].
  rewrite <- Hs. exact Hw.
Qed.

Lemma twf_slice3 {A} (t : tensor A) (lead : list nat) (s0 s1 s2 : nat)
    (a0 b0 a1 b1 a2 b2 : Z) :
  size t = lead ++ [s0; s1; s2] -> twf t ->
  twf (slice3 t a0 b0 a1 b1 a2 b2).
Proof.
  intros Hs Hw. unfold slice3.
  rewrite (rank_lead t lead s0 s1 s2 Hs).
  pose proof (size_slice_axis t lead [s1; s2] s0 a0 b0 Hs) as E0.
  pose proof (twf_slice_axis t lead [s1; s2] s0 a0 b0 Hs Hw) as W0.
  set (t0 := slice_axis (length lead) a0 b0 t) in *.
  set (w0 := py_bound s0 b0 - py_bound s0 a0) in *.
  assert (E0' : size t0 = (lead ++ [w0]) ++ s1 :: [s2])
    by (rewrite <- app_assoc; exact E0).
  assert (L1 : length (lead ++ [w0]) = length lead + 1)
    by (rewrite length_app; reflexivity).
  pose proof (size_slice_axis t0 (lead ++ [w0]) [s2] s1 a1 b1 E0') as E1.
  pose proof (twf_slice_axis t0 (lead ++ [w0]) [s2] s1 a1 b1 E0' W0) as W1.
  rewrite L1 in E1, W1.
  set (t1 := slice_axis (length lead + 1) a1 b1 t0) in *.
  set (w1 := py_bound s1 b1 - py_bound s1 a1) in *.
  assert (E1' : size t1 = (lead ++ [w0; w1]) ++ s2 :: [])
    by (rewrite <- !app_assoc in *; exact E1).
  assert (L2 : length (lead ++ [w0; w1]) = length lead + 2)
    by (rewrite length_app; reflexivity).
  pose proof (twf_slice_axis t1 (lead ++ [w0; w1]) [] s2 a2 b2 E1' W1)
    as W2.
  rewrite L2 in W2. exact W2.
Qed.

Lemma get_pair_twf {A} (labels sub_a sub_b : tensor A) (edge : list Z) :
  twf labels -> get_pair labels edge = Ok (sub_a, sub_b) ->
  twf sub_a /\ twf sub_b.
Proof.
  intros Hw Hp.
  destruct (Nat.lt_ge_cases (rank labels) 3) as [Hr|Hr].
  - rewrite (get_pair_low_rank labels edge Hr) in Hp. discriminate.
  - destruct (split_last3 (size labels) Hr) as (lead & s0 & s1 & s2 & Hs).
    destruct edge as [|e0 [|e1 [|e2 rest]]];
      try (unfold get_pair, window in Hp;
           rewrite (last3_lead labels lead s0 s1 s2 Hs) in Hp;
           discriminate).
    rewrite (get_pair_lead labels lead s0 s1 s2 e0 e1 e2 rest Hs) in Hp.
    injection Hp as <- <-.
    split; apply (twf_slice3 labels lead s0 s1 s2); assumption.
Qed.

(** ** The pairwise affinity extractor *)

Lemma fit_offsets (s : nat) (e : Z) :
  (Z.abs e <= Z.of_nat s)%Z ->
  (0 <= Z.max 0 e)%Z /\ (0 <= Z.max 0 (- e))%Z /\
  (Z.max 0 e + Z.max 0 (- e) <= Z.of_nat s)%Z /\
  (Z.max 0 (- e) + Z.max 0 e <= Z.of_nat s)%Z /\
  Z.to_nat (Z.max 0 e) = offset1 e /\
  Z.to_nat (Z.max 0 (- e)) = offset2 e /\
  offset1 e + offset2 e = Z.abs_nat e /\
  offset1 e + offset2 e <= s.
Proof. unfold offset1, offset2. lia. Qed.

Section Extractor.
Context {A : Type} `{Dtype A}.
Variables (labels : tensor A) (lead : list nat) (s0 s1 s2 : nat).
Variables (e0 e1 e2 : Z).
Hypothesis Hsize : size labels = lead ++ [s0; s1; s2].
Hypothesis Hfit0 : (Z.abs e0 <= Z.of_nat s0)%Z.
Hypothesis Hfit1 : (Z.abs e1 <= Z.of_nat s1)%Z.
Hypothesis Hfit2 : (Z.abs e2 <= Z.of_nat s2)%Z.

Lemma get_pair_fits :
  exists sub_a sub_b,
    get_pair labels [e0; e1; e2] = Ok (sub_a, sub_b) /\
    spec_window lead (offset1 e0, offset1 e1, offset1 e2)
      (s0 - offset2 e0, s1 - offset2 e1, s2 - offset2 e2) labels sub_a /\
    spec_window lead (offset2 e0, offset2 e1, offset2 e2)
      (s0 - offset1 e0, s1 - offset1 e1, s2 - offset1 e2) labels sub_b.
Proof.
  destruct (fit_offsets s0 e0 Hfit0) as (P0 & N0 & S0 & T0 & A0 & B0 & _).
  destruct (fit_offsets s1 e1 Hfit1) as (P1 & N1 & S1 & T1 & A1 & B1 & _).
  destruct (fit_offsets s2 e2 Hfit2) as (P2 & N2 & S2 & T2 & A2 & B2 & _).
  eexists. eexists. split; [apply (get_pair_lead labels lead s0 s1 s2); exact Hsize|].
  split.
  - rewrite <- A0, <- A1, <- A2, <- B0, <- B1, <- B2.
    apply spec_window_slice3; assumption.
  - rewrite <- A0, <- A1, <- A2, <- B0, <- B1, <- B2.
    apply spec_window_slice3; assumption.
Qed.

Lemma get_pair_fits_sizes (sub_a sub_b : tensor A) :
  get_pair labels [e0; e1; e2] = Ok (sub_a, sub_b) ->
  size sub_a =
    lead ++ [s0 - Z.abs_nat e0; s1 - Z.abs_nat e1; s2 - Z.abs_nat e2] /\
  size sub_b = size sub_a.
Proof.
  intros Hp.
  destruct get_pair_fits as (a & b & Hp' & (Sa & _) & (Sb & _)).
  rewrite Hp in Hp'. injection Hp' as <- <-.
  destruct (fit_offsets s0 e0 Hfit0) as (_ & _ & _ & _ & _ & _ & E0 & L0).
  destruct (fit_offsets s1 e1 Hfit1) as (_ & _ & _ & _ & _ & _ & E1 & L1).
  destruct (fit_offsets s2 e2 Hfit2) as (_ & _ & _ & _ & _ & _ & E2 & L2).
  rewrite Sa, Sb.
  replace (s0 - offset2 e0 - offset1 e0) with (s0 - Z.abs_nat e0) by lia.
  replace (s1 - offset2 e1 - offset1 e1) with (s1 - Z.abs_nat e1) by lia.
  replace (s2 - offset2 e2 - offset1 e2) with (s2 - Z.abs_nat e2) by lia.
  replace (s0 - offset1 e0 - offset2 e0) with (s0 - Z.abs_nat e0) by lia.
  replace (s1 - offset1 e1 - offset2 e1) with (s1 - Z.abs_nat e1) by lia.
  replace (s2 - offset1 e2 - offset2 e2) with (s2 - Z.abs_nat e2) by lia.
  split; reflexivity.
Qed.
End Extractor.

(** C2.  For a volume whose size ends in three axes [s0, s1, s2] and an
    offset [(e0, e1, e2)] with [|e| <= s] on each axis, [get_pair] returns
    the two windows [volume[offset1 : shape - offset2]] and
    [volume[offset2 : shape - offset1]], and [get_aff] returns, entry by
    entry, the cast of [(sub_a == sub_b) AND (sub_a != 0)] to the element
    type.  Both are functions of their arguments alone. *)
Theorem get_aff_contract {A : Type} `{Dtype A} (vol : tensor A)
    (lead : list nat) (s0 s1 s2 : nat) (e0 e1 e2 : Z) :
  size vol = lead ++ [s0; s1; s2] ->
  (Z.abs e0 <= Z.of_nat s0)%Z ->
  (Z.abs e1 <= Z.of_nat s1)%Z ->
  (Z.abs e2 <= Z.of_nat s2)%Z ->
  exists sub_a sub_b aff,
    get_pair vol [e0; e1; e2] = Ok (sub_a, sub_b) /\
    spec_window lead (offset1 e0, offset1 e1, offset1 e2)
      (s0 - offset2 e0, s1 - offset2 e1, s2 - offset2 e2) vol sub_a /\
    spec_window lead (offset2 e0, offset2 e1, offset2 e2)
      (s0 - offset1 e0, s1 - offset1 e1, s2 - offset1 e2) vol sub_b /\
    get_aff vol [e0; e1; e2] = Ok aff /\
    size aff = size sub_a /\
    forall idx,
      tget idx aff =
      match tget idx sub_a, tget idx sub_b with
      | Some a, Some b =>
          Some (of_bool (d_eqb a b && negb (d_eqb a d_zero)))
      | _, _ => None
      end.
Proof.
  intros Hs H0 H1 H2.
  destruct (get_pair_fits vol lead s0 s1 s2 e0 e1 e2 Hs H0 H1 H2)
    as (sub_a & sub_b & Hp & Wa & Wb).
  destruct (get_pair_fits_sizes vol lead s0 s1 s2 e0 e1 e2 Hs H0 H1 H2 Hp)
    as [_ Hab].
  exists sub_a, sub_b,
    (mkTensor (size sub_a) (aff_data (data sub_a) (data sub_b))).
  split; [exact Hp|]. split; [exact Wa|]. split; [exact Wb|].
  split; [apply (get_aff_same_size vol [e0; e1; e2] Hp); auto|].
  split; [reflexivity|].
  intros idx. unfold tget. cbn [data]. apply get_aff_data.
Qed.

Lemma get_aff_contract_witness :
  exists sub_a sub_b aff,
    get_pair (volume [2; 3; 2] distinct_labels) [1; -1; 0]%Z
      = Ok (sub_a, sub_b) /\
    spec_window [] (offset1 1, offset1 (-1), offset1 0)
      (2 - offset2 1, 3 - offset2 (-1), 2 - offset2 0)
      (volume [2; 3; 2] distinct_labels) sub_a /\
    spec_window [] (offset2 1, offset2 (-1), offset2 0)
      (2 - offset1 1, 3 - offset1 (-1), 2 - offset1 0)
      (volume [2; 3; 2] distinct_labels) sub_b /\
    get_aff (volume [2; 3; 2] distinct_labels) [1; -1; 0]%Z = Ok aff /\
    size aff = size sub_a /\
    forall idx,
      tget idx aff =
      match tget idx sub_a, tget idx sub_b with
      | Some a, Some b =>
          Some (of_bool (d_eqb a b && negb (d_eqb a d_zero)))
      | _, _ => None
      end.
Proof.
  apply (get_aff_contract (volume [2; 3; 2] distinct_labels) []
           2 3 2 1 (-1) 0); [reflexivity | simpl; lia ..].
Defined.

(** C7.  For a label volume whose size ends in [s0, s1, s2] and an offset
    that fits, the two arrays returned by [get_pair] have one and the same
    size, the size of the volume less [|e|] on each of the three trailing
    axes, which is also the size less [offset1 + offset2]; the element-wise
    comparison of [get_aff] therefore succeeds.  The sizes are those of
    the data: the windows of a rectangular volume are rectangular. *)
Theorem get_pair_shape {A : Type} `{Dtype A} (L : tensor A)
    (lead : list nat) (s0 s1 s2 : nat) (e0 e1 e2 : Z) :
  size L = lead ++ [s0; s1; s2] ->
  (Z.abs e0 <= Z.of_nat s0)%Z ->
  (Z.abs e1 <= Z.of_nat s1)%Z ->
  (Z.abs e2 <= Z.of_nat s2)%Z ->
  exists sub_a sub_b,
    get_pair L [e0; e1; e2] = Ok (sub_a, sub_b) /\
    size sub_a =
      lead ++ [s0 - Z.abs_nat e0; s1 - Z.abs_nat e1; s2 - Z.abs_nat e2] /\
    size sub_b = size sub_a /\
    size sub_a =
      lead ++ [s0 - (offset1 e0 + offset2 e0);
               s1 - (offset1 e1 + offset2 e1);
               s2 - (offset1 e2 + offset2 e2)] /\
    exists aff,
      get_aff L [e0; e1; e2] = Ok aff /\ size aff = size sub_a /\
      (twf L -> twf sub_a /\ twf sub_b /\ twf aff).
Proof.
  intros Hs H0 H1 H2.
  destruct (get_pair_fits L lead s0 s1 s2 e0 e1 e2 Hs H0 H1 H2)
    as (sub_a & sub_b & Hp & _ & _).
  destruct (get_pair_fits_sizes L lead s0 s1 s2 e0 e1 e2 Hs H0 H1 H2 Hp)
    as [Ha Hab].
  exists sub_a, sub_b.
  split; [exact Hp|]. split; [exact Ha|]. split; [exact Hab|]. split.
  - rewrite Ha.
    destruct (fit_offsets s0 e0 H0) as (_ & _ & _ & _ & _ & _ & E0 & _).
    destruct (fit_offsets s1 e1 H1) as (_ & _ & _ & _ & _ & _ & E1 & _).
    destruct (fit_offsets s2 e2 H2) as (_ & _ & _ & _ & _ & _ & E2 & _).
    rewrite E0, E1, E2. reflexivity.
  - exists (mkTensor (size sub_a) (aff_data (data sub_a) (data sub_b))).
    split; [apply (get_aff_same_size L [e0; e1; e2] Hp); auto|].
    split; [reflexivity|].
    intros Hw. destruct (get_pair_twf L [e0; e1; e2] Hw Hp) as [Wa Wb].
    split; [exact Wa|]. split; [exact Wb|].
    unfold twf in *. cbn [size data]. unfold aff_data.
    apply wf_map_nd, wf_zip_nd.
    + apply wf_zip_nd; [exact Wa | rewrite <- Hab; exact Wb].
    + apply wf_map_nd. exact Wa.
Qed.

Lemma get_pair_shape_witness :
  exists sub_a sub_b,
    get_pair (volume [4; 5; 6] distinct_labels) [-2; 0; 3]%Z
      = Ok (sub_a, sub_b) /\
    size sub_a = [] ++ [4 - Z.abs_nat (-2); 5 - Z.abs_nat 0;
                        6 - Z.abs_nat 3] /\
    size sub_b = size sub_a /\
    size sub_a =
      [] ++ [4 - (offset1 (-2) + offset2 (-2));
             5 - (offset1 0 + offset2 0);
             6 - (offset1 3 + offset2 3)] /\
    exists aff,
      get_aff (volume [4; 5; 6] distinct_labels) [-2; 0; 3]%Z = Ok aff /\
      size aff = size sub_a /\
      (twf (volume [4; 5; 6] distinct_labels) ->
       twf sub_a /\ twf sub_b /\ twf aff).
Proof.
  apply (get_pair_shape (volume [4; 5; 6] distinct_labels) []
           4 5 6 (-2) 0 3); [reflexivity | simpl; lia ..].
Defined.

#[export] Instance DtypeLaws_Z : DtypeLaws Z.
Proof.
  split; simpl.
  - intros a b. apply Z.eqb_sym.
  - intros a b E. apply Z.eqb_eq in E. subst. reflexivity.
Qed.

#[export] Instance DtypeLaws_Qc : DtypeLaws Qc.
Proof.
  split; simpl.
  - intros a b. unfold Qc_eq_bool.
    destruct (Qc_eq_dec a b), (Qc_eq_dec b a); congruence.
  - intros a b E. apply Qc_eq_bool_correct in E. subst. reflexivity.
Qed.

(** C6.  For a label volume whose size ends in three axes and an offset
    that fits, the affinity for [-e] is the affinity for [e]: the two
    windows are exchanged, and where the labels agree the background test
    gives the same answer on either of them. *)
Theorem get_aff_neg {A : Type} `{DtypeLaws A} (L : tensor A)
    (lead : list nat) (s0 s1 s2 : nat) (e0 e1 e2 : Z) :
  size L = lead ++ [s0; s1; s2] ->
  (Z.abs e0 <= Z.of_nat s0)%Z ->
  (Z.abs e1 <= Z.of_nat s1)%Z ->
  (Z.abs e2 <= Z.of_nat s2)%Z ->
  exists aff,
    get_aff L [e0; e1; e2] = Ok aff /\
    get_aff L [(- e0)%Z; (- e1)%Z; (- e2)%Z] = Ok aff.
Proof.
  intros Hs Hf0 Hf1 Hf2.
  destruct (get_pair_fits L lead s0 s1 s2 e0 e1 e2 Hs Hf0 Hf1 Hf2)
    as (sub_a & sub_b & Hp & _ & _).
  destruct (get_pair_fits_sizes L lead s0 s1 s2 e0 e1 e2 Hs Hf0 Hf1 Hf2 Hp)
    as [_ Hab].
  assert (Hn : get_pair L [(- e0)%Z; (- e1)%Z; (- e2)%Z]
               = Ok (sub_b, sub_a)).
  { rewrite (get_pair_lead L lead s0 s1 s2 _ _ _ [] Hs) in Hp.
    rewrite (get_pair_lead L lead s0 s1 s2 _ _ _ [] Hs).
    rewrite !Z.opp_involutive. injection Hp as <- <-. reflexivity. }
  exists (mkTensor (size sub_a) (aff_data (data sub_a) (data sub_b))).
  split.
  - apply (get_aff_same_size L [e0; e1; e2] Hp). auto.
  - rewrite (get_aff_same_size L _ Hn Hab), Hab, aff_data_sym.
    reflexivity.
Qed.

Lemma get_aff_neg_witness :
  exists aff,
    get_aff (volume [3; 3; 3] (fun idx => (distinct_labels idx mod 2)%Z))
            [1; -2; 0]%Z = Ok aff /\
    get_aff (volume [3; 3; 3] (fun idx => (distinct_labels idx mod 2)%Z))
            [(- 1)%Z; (- -2)%Z; (- 0)%Z] = Ok aff.
Proof.
  apply (get_aff_neg
           (volume [3; 3; 3] (fun idx => (distinct_labels idx mod 2)%Z))
           [] 3 3 3 1 (-2) 0); [reflexivity | simpl; lia ..].
Defined.

(** C9, as stated, fails: an offset of 5 along an axis of length 2 raises
    nothing.  The slices are clamped, both windows are empty, and
    [get_aff] returns the empty affinity map. *)
Lemma offset_beyond_axis_is_clamped :
  (Z.of_nat 2 < 5)%Z /\
  get_pair (volume [2; 2; 2] distinct_labels) [5; 0; 0]%Z
    = Ok (mkTensor [0; 2; 2] (Node []), mkTensor [0; 2; 2] (Node [])) /\
  get_aff (volume [2; 2; 2] distinct_labels) [5; 0; 0]%Z
    = Ok (mkTensor [0; 2; 2] (Node [])).
Proof. split; [lia|]. split; reflexivity. Qed.

(** C9, amended.  With fewer than three axes the extractor raises an
    IndexError, in [get_pair] and so in [get_aff].  With three axes or more
    and an offset of three 64-bit components, a component longer than its
    axis makes [get_pair] raise nothing: it returns; [get_aff] can then
    only raise the size mismatch of the element-wise comparison. *)
Theorem get_pair_failures {A : Type} `{Dtype A} (labels : tensor A)
    (edge : list Z) :
  (rank labels < 3 ->
     get_pair labels edge = Err IndexError /\
     get_aff labels edge = Err IndexError) /\
  (3 <= rank labels -> 3 <= length edge ->
   forallb int64_offset edge = true ->
     (exists sub_a sub_b, get_pair labels edge = Ok (sub_a, sub_b)) /\
     forall e, get_aff labels edge = Err e -> e = RuntimeError).
Proof.
  split.
  - intros Hr. pose proof (get_pair_low_rank labels edge Hr) as E.
    split; [exact E|]. unfold get_aff. rewrite E. reflexivity.
  - intros Hr He _.
    destruct (split_last3 (size labels) Hr) as (lead & s0 & s1 & s2 & Hs).
    destruct edge as [|e0 [|e1 [|e2 rest]]]; simpl in He; try lia.
    pose proof (get_pair_lead labels lead s0 s1 s2 e0 e1 e2 rest Hs) as E.
    split; [eauto|].
    intros e. unfold get_aff. rewrite E. cbn [rbind].
    destruct (binop RuntimeError d_eqb _ _) as [eq12|e1'] eqn:E1;
      cbn [rbind].
    + destruct (binop RuntimeError andb _ _) as [r|e2'] eqn:E2;
        cbn [rbind]; [discriminate|].
      intros [= <-]. apply (binop_err _ _ _ _ E2).
    + intros [= <-]. apply (binop_err _ _ _ _ E1).
Qed.

Lemma get_pair_failures_witness :
  (get_pair (volume [2; 2] distinct_labels) [1; 0; 0]%Z = Err IndexError /\
   get_aff (volume [2; 2] distinct_labels) [1; 0; 0]%Z = Err IndexError) /\
  ((exists sub_a sub_b,
      get_pair (volume [4; 1; 1] distinct_labels) [5; 0; 0]%Z
        = Ok (sub_a, sub_b)) /\
   forall e,
     get_aff (volume [4; 1; 1] distinct_labels) [5; 0; 0]%Z = Err e ->
     e = RuntimeError).
Proof.
  split.
  - apply (proj1 (get_pair_failures (volume [2; 2] distinct_labels)
                    [1; 0; 0]%Z)).
    unfold rank. simpl. lia.
  - apply (proj2 (get_pair_failures (volume [4; 1; 1] distinct_labels)
                    [5; 0; 0]%Z));
      [unfold rank; simpl; lia | simpl; lia | reflexivity].
Defined.

(** ** The channel decoder *)

Lemma get_pair_first_raises {A} (labels : tensor A) (edge : list Z) :
  get_pair_first labels edge = Err (NameError "arr").
Proof. reflexivity. Qed.

(** C1.  The decoder does not return the window of channel [i]: for every
    tensor with at least four axes whose channel count is the number of
    edges, and every index in range, both assertions pass and the call of
    [get_pair_first] then raises NameError, because its body subscripts the
    unbound name [arr] where its parameter is called [labels]. *)
Theorem decoder_forward_raises {A : Type} (edges : list (list Z))
    (x : tensor A) (i : Z) :
  4 <= rank x ->
  nth (rank x - 4) (size x) 0 = length edges ->
  (0 <= i < Z.of_nat (length edges))%Z ->
  SuperVoxelAffinity.Decoder.forward edges x i = Err (NameError "arr").
Proof.
  intros Hr Hc Hi. unfold SuperVoxelAffinity.Decoder.forward.
  unfold SuperVoxelAffinity.Decoder.size_m4.
  destruct (Nat.ltb_spec (rank x) 4) as [Hlt|_]; [lia|].
  rewrite (py_index_ok (size x) 0) by (unfold rank in *; lia).
  rewrite Hc. cbn [rbind]. rewrite Nat.eqb_refl. cbn [assert rbind].
  replace ((i <? Z.of_nat (length edges))%Z && (i >=? 0)%Z) with true
    by (symmetry; apply andb_true_iff; split; lia).
  cbn [assert rbind].
  rewrite (py_index_ok edges []) by lia. cbn [rbind].
  apply get_pair_first_raises.
Qed.

Lemma decoder_forward_raises_witness :
  SuperVoxelAffinity.Decoder.forward [[1; 0; 0]; [0; 1; 0]; [0; 0; 1]]%Z
    (volume [3; 2; 2; 2] distinct_labels) 1%Z
  = Err (NameError "arr").
Proof.
  apply decoder_forward_raises;
    [unfold rank; simpl; lia | reflexivity | simpl; lia].
Defined.

(** ** The critical-mask computer *)

(** C10.  On an empty list of predictions [get_critical_masks] raises
    IndexError where it reads [preds[0]] to allocate the masks; no future
    has been submitted by then, and neither masks nor stats are
    returned. *)
Theorem get_critical_masks_empty_batch
    (detect_critical : tensor Z -> tensor Z -> result (tensor Qc * Z))
    (as_completed : list task -> list task)
    (s : SuperVoxelAffinity.self) (targets : tensor Z) :
  SuperVoxelAffinity.get_critical_masks detect_critical as_completed
    s [] targets
  = mkRun [] (Err IndexError).
Proof. reflexivity. Qed.

(** ** Writing into a slot *)

Lemma length_update {X} (x : X) :
  forall (l : list X) (i : nat), length (update i x l) = length l.
Proof.
  induction l as [|y l IH]; intros [|i]; simpl; auto.
Qed.

Lemma nth_error_update {X} (x : X) :
  forall (l : list X) (i j : nat),
    nth_error (update i x l) j =
    if j =? i then (if i <? length l then Some x else None)
    else nth_error l j.
Proof.
  induction l as [|y l IH]; intros [|i] [|j]; simpl; try reflexivity.
  - destruct (j =? i); reflexivity.
  - rewrite IH. destruct (j =? i); [|reflexivity].
    destruct (Nat.ltb_spec i (length l)), (Nat.ltb_spec (S i) (S (length l)));
      try reflexivity; lia.
Qed.

Lemma Forall_update {X} (P : X -> Prop) (x : X) :
  forall (l : list X) (i : nat),
    Forall P l -> P x -> Forall P (update i x l).
Proof.
  induction l as [|y l IH]; intros [|i] Hl Hx; simpl; auto;
    inversion Hl; subst; constructor; auto.
Qed.

Lemma iadd_slot_spec (masks v : tensor Qc) (n : nat) (shp : list nat)
    (i : nat) :
  size masks = n :: shp -> twf masks -> size v = shp -> twf v -> i < n ->
  exists masks',
    iadd_slot masks i v = Ok masks' /\
    size masks' = n :: shp /\ twf masks' /\
    forall j idx,
      tget (j :: idx) masks' =
      if j =? i then
        match tget (i :: idx) masks, tget idx v with
        | Some a, Some b => Some (a + b)%Qc
        | _, _ => None
        end
      else tget (j :: idx) masks.
Proof.
  destruct masks as [ms md], v as [vs vd]. unfold twf, tget.
  cbn [size data]. intros -> Hw -> Hv Hi.
  destruct md as [a|l]; [contradiction|]. destruct Hw as [Hl Hf].
  destruct (nth_error l i) as [d|] eqn:E;
    [|apply nth_error_None in E; lia].
  assert (Hd : wf shp d).
  { rewrite Forall_forall in Hf. apply Hf. apply (nth_error_In _ _ E). }
  unfold iadd_slot, tsub. cbn [size data].
  apply Nat.ltb_lt in Hi. rewrite Hi. simpl sub. rewrite E. cbn [rbind size].
  rewrite broadcast_shapes_same.
  destruct (list_eq_dec Nat.eq_dec shp shp) as [_|N]; [|contradiction].
  change (expand shp (mkTensor shp vd)) with (expand (size (mkTensor shp vd))
                                                 (mkTensor shp vd)).
  rewrite expand_same. cbn [data]. unfold set_slot. cbn [data size].
  eexists. split; [reflexivity|]. cbn [size data].
  split; [reflexivity|]. split.
  - simpl. split; [rewrite length_update; exact Hl|].
    apply Forall_update; [exact Hf|]. apply wf_zip_nd; assumption.
  - intros j idx. simpl get. rewrite nth_error_update.
    apply Nat.ltb_lt in Hi. rewrite <- Hl in Hi.
    apply Nat.ltb_lt in Hi. rewrite Hi, E.
    destruct (j =? i); [|reflexivity].
    apply get_zip_nd.
Qed.

(** ** Sums of rationals *)

Lemma Qcsum_cons (x : Qc) (l : list Qc) :
  Qcsum (x :: l) = (x + Qcsum l)%Qc.
Proof. reflexivity. Qed.

Lemma Qcsum_app (l l' : list Qc) :
  Qcsum (l ++ l') = (Qcsum l + Qcsum l')%Qc.
Proof.
  induction l as [|x l IH]; simpl.
  - ring.
  - rewrite IH. ring.
Qed.

Lemma Qcsum_perm (l l' : list Qc) :
  Permutation l l' -> Qcsum l = Qcsum l'.
Proof.
  induction 1 as [|x l l' _ IH|x y l|l l' l'' _ IH1 _ IH2]; simpl.
  - reflexivity.
  - rewrite IH. reflexivity.
  - ring.
  - congruence.
Qed.

Lemma Qcsum_scale (c : Qc) (l : list Qc) :
  Qcsum (map (fun x => x * c)%Qc l) = (Qcsum l * c)%Qc.
Proof.
  induction l as [|x l IH]; simpl.
  - ring.
  - rewrite IH. ring.
Qed.

(** ** The loop over the finished futures *)

Section Collect.
Variable detect_critical : tensor Z -> tensor Z -> result (tensor Qc * Z).
Variable s : SuperVoxelAffinity.self.
Variable n : nat.
Variable shp : list nat.

Local Abbreviation good := (good_task detect_critical n shp).
Local Abbreviation term' := (term detect_critical s).

Lemma step_masks (p : task) (masks : tensor Qc) :
  good p -> size masks = n :: shp -> twf masks ->
  exists masks1,
    iadd_slot masks (t_process_id p)
      (tmap (Qcmult (weight s p)) (task_mask detect_critical p))
      = Ok masks1 /\
    size masks1 = n :: shp /\ twf masks1 /\
    forall i idx a,
      tget (i :: idx) masks = Some a ->
      tget (i :: idx) masks1 = Some (a + term' i idx p)%Qc.
Proof.
  intros (Hid & m & c & Hdc & Hm & Hwm) Hs Hw.
  assert (Etm : task_mask detect_critical p = m)
    by (unfold task_mask; rewrite Hdc; reflexivity).
  rewrite Etm.
  destruct (iadd_slot_spec masks (tmap (Qcmult (weight s p)) m)
              (i := t_process_id p) Hs Hw) as (masks1 & E & Hs1 & Hw1 & Hg);
    [exact Hm | apply wf_map_nd; exact Hwm | exact Hid |].
  exists masks1. split; [exact E|]. split; [exact Hs1|].
  split; [exact Hw1|].
  intros i idx a Ha. rewrite Hg. unfold term. rewrite Etm.
  rewrite (Nat.eqb_sym (t_process_id p) i).
  destruct (Nat.eqb_spec i (t_process_id p)) as [->|Hne].
  - rewrite Ha.
    assert (Hr : in_range idx shp = true).
    { unfold twf in Hw. rewrite Hs in Hw.
      pose proof (get_in_range _ _ _ Hw Ha) as R. simpl in R.
      apply andb_true_iff in R. apply R. }
    unfold twf in Hwm. rewrite Hm in Hwm.
    destruct (wf_get_some shp idx (data m) Hwm Hr) as [b Hb].
    unfold entry, tget. cbn [tmap data]. rewrite get_map_nd, Hb.
    reflexivity.
  - rewrite Ha. f_equal. ring.
Qed.

Lemma collect_loop_spec :
  forall (L : list task) (masks : tensor Qc) (stats : Stats),
    Forall good L -> size masks = n :: shp -> twf masks ->
    exists masks' stats',
      SuperVoxelAffinity.collect_loop detect_critical s n L masks stats
        = Ok (masks', stats') /\
      size masks' = n :: shp /\ twf masks' /\
      (forall i idx a,
         tget (i :: idx) masks = Some a ->
         tget (i :: idx) masks' =
           Some (a + Qcsum (map (term' i idx) L))%Qc) /\
      Splits stats' =
        (Splits stats + Qcsum (map (split_share detect_critical n) L))%Qc /\
      Merges stats' =
        (Merges stats + Qcsum (map (merge_share detect_critical n) L))%Qc.
Proof.
  induction L as [|p L IH]; intros masks stats HL Hs Hw.
  - exists masks, stats. simpl. split; [reflexivity|].
    split; [exact Hs|]. split; [exact Hw|].
    split; [|split; ring].
    intros i idx a Ha. rewrite Ha. f_equal. ring.
  - inversion HL as [|? ? Hp HL']; subst.
    destruct (@step_masks p masks Hp Hs Hw)
      as (masks1 & E1 & Hs1 & Hw1 & Hg1).
    destruct Hp as (Hid & m & c & Hdc & Hm & Hwm).
    assert (Etm : task_mask detect_critical p = m)
      by (unfold task_mask; rewrite Hdc; reflexivity).
    assert (Etc : task_count detect_critical p = c)
      by (unfold task_count; rewrite Hdc; reflexivity).
    rewrite Etm in E1.
    assert (Ew : weight s p =
                 if (t_critical_type p =? -1)%Z
                 then SuperVoxelAffinity.beta s
                 else (1 - SuperVoxelAffinity.beta s)%Qc) by reflexivity.
    assert (Es : split_share detect_critical n p =
                 if (t_critical_type p =? -1)%Z
                 then (Qc_of_Z c / Qc_of_nat n)%Qc else 0%Qc)
      by (unfold split_share; rewrite Etc; reflexivity).
    assert (Em : merge_share detect_critical n p =
                 if (t_critical_type p =? -1)%Z
                 then 0%Qc else (Qc_of_Z c / Qc_of_nat n)%Qc)
      by (unfold merge_share; rewrite Etc; reflexivity).
    cbn [SuperVoxelAffinity.collect_loop].
    unfold SuperVoxelAffinity.process_result,
      SuperVoxelAffinity.get_critical_mask.
    rewrite Hdc. cbn [rbind].
    rewrite !map_cons, !Qcsum_cons.
    destruct (t_critical_type p =? -1)%Z; rewrite Ew in E1;
      rewrite E1; cbn [rbind]; rewrite Es, Em.
    + destruct (IH masks1
                  (mkStats (Splits stats + Qc_of_Z c / Qc_of_nat n)
                           (Merges stats)) HL' Hs1 Hw1)
        as (masks' & stats' & E & Hs' & Hw' & Hg' & HS & HM).
      exists masks', stats'. split; [exact E|].
      split; [exact Hs'|]. split; [exact Hw'|]. split; [|split].
      * intros i idx a Ha. rewrite (Hg' i idx _ (Hg1 i idx a Ha)).
        rewrite map_cons, Qcsum_cons. f_equal. ring.
      * rewrite HS. cbn [Splits]. ring.
      * rewrite HM. cbn [Merges]. ring.
    + destruct (IH masks1
                  (mkStats (Splits stats)
                           (Merges stats + Qc_of_Z c / Qc_of_nat n))
                  HL' Hs1 Hw1)
        as (masks' & stats' & E & Hs' & Hw' & Hg' & HS & HM).
      exists masks', stats'. split; [exact E|].
      split; [exact Hs'|]. split; [exact Hw'|]. split; [|split].
      * intros i idx a Ha. rewrite (Hg' i idx _ (Hg1 i idx a Ha)).
        rewrite map_cons, Qcsum_cons. f_equal. ring.
      * rewrite HS. cbn [Splits]. ring.
      * rewrite HM. cbn [Merges]. ring.
Qed.
End Collect.

(** ** The submission loop *)

Lemma submit_loop_spec (preds : list (tensor Z)) (targets : tensor Z)
    (tv : nat -> tensor Z) :
  forall (ixs : list nat) (submitted : list task),
    (forall i, In i ixs ->
       i < length preds /\
       SuperVoxelAffinity.target_volume targets i = Ok (tv i)) ->
    SuperVoxelAffinity.submit_loop preds targets ixs submitted =
    mkRun (submitted ++ flat_map (analyses preds tv) ixs) (Ok tt).
Proof.
  induction ixs as [|i ixs IH]; intros submitted Hix; simpl.
  - rewrite app_nil_r. reflexivity.
  - destruct (Hix i (or_introl eq_refl)) as [Hi Ht].
    rewrite Ht. cbn [rbind].
    rewrite (py_index_ok preds (mkTensor [] (Leaf 0%Z)) Hi). cbn [rbind].
    rewrite IH by (intros j Hj; apply Hix; right; exact Hj).
    rewrite <- app_assoc. reflexivity.
Qed.

(** ** What the submitted futures add up to *)

Section Sums.
Variable detect_critical : tensor Z -> tensor Z -> result (tensor Qc * Z).
Variable s : SuperVoxelAffinity.self.
Variable n : nat.
Variables (preds : list (tensor Z)) (tv : nat -> tensor Z).

Local Abbreviation term' := (term detect_critical s).
Local Abbreviation pair := (analyses preds tv).

Lemma term_pair (i j : nat) (idx : list nat) :
  Qcsum (map (term' i idx) (pair j)) =
  if j =? i
  then (SuperVoxelAffinity.beta s
          * entry idx (task_mask detect_critical (split_task preds tv j))
        + (1 - SuperVoxelAffinity.beta s)
          * entry idx (task_mask detect_critical (merge_task preds tv j)))%Qc
  else 0%Qc.
Proof.
  unfold analyses, term, weight. simpl.
  destruct (j =? i); ring.
Qed.

Lemma term_sum_absent (i : nat) (idx : list nat) :
  forall ixs, ~ In i ixs ->
    Qcsum (map (term' i idx) (flat_map pair ixs)) = 0%Qc.
Proof.
  induction ixs as [|j ixs IH]; intros Hn; [reflexivity|].
  cbn [flat_map]. rewrite map_app, Qcsum_app, term_pair.
  destruct (Nat.eqb_spec j i) as [->|_].
  - exfalso. apply Hn. left. reflexivity.
  - rewrite IH by (intros Hin; apply Hn; right; exact Hin). ring.
Qed.

Lemma term_sum_present (i : nat) (idx : list nat) :
  forall ixs, NoDup ixs -> In i ixs ->
    Qcsum (map (term' i idx) (flat_map pair ixs)) =
    (SuperVoxelAffinity.beta s
       * entry idx (task_mask detect_critical (split_task preds tv i))
     + (1 - SuperVoxelAffinity.beta s)
       * entry idx (task_mask detect_critical (merge_task preds tv i)))%Qc.
Proof.
  induction ixs as [|j ixs IH]; intros Hnd Hin; [contradiction|].
  inversion Hnd as [|? ? Hj Hnd']; subst.
  cbn [flat_map]. rewrite map_app, Qcsum_app, term_pair.
  destruct (Nat.eqb_spec j i) as [->|Hne].
  - rewrite (term_sum_absent i idx ixs Hj). ring.
  - destruct Hin as [->|Hin]; [contradiction|].
    rewrite (IH Hnd' Hin). ring.
Qed.

Lemma split_share_sum :
  forall ixs,
    Qcsum (map (split_share detect_critical n) (flat_map pair ixs)) =
    (Qcsum (map (fun i => Qc_of_Z (task_count detect_critical
                                     (split_task preds tv i))) ixs)
     / Qc_of_nat n)%Qc.
Proof.
  induction ixs as [|j ixs IH].
  - simpl. unfold Qcdiv. ring.
  - cbn [flat_map]. rewrite map_app, Qcsum_app, IH.
    unfold analyses, split_share. simpl. unfold Qcdiv. ring.
Qed.

Lemma merge_share_sum :
  forall ixs,
    Qcsum (map (merge_share detect_critical n) (flat_map pair ixs)) =
    (Qcsum (map (fun i => Qc_of_Z (task_count detect_critical
                                     (merge_task preds tv i))) ixs)
     / Qc_of_nat n)%Qc.
Proof.
  induction ixs as [|j ixs IH].
  - simpl. unfold Qcdiv. ring.
  - cbn [flat_map]. rewrite map_app, Qcsum_app, IH.
    unfold analyses, merge_share. simpl. unfold Qcdiv. ring.
Qed.
End Sums.

(** ** get_critical_masks on a batch whose analyses succeed *)

Section MaskComputer.
Variable detect_critical : tensor Z -> tensor Z -> result (tensor Qc * Z).
Variable as_completed : list task -> list task.
Variable s : SuperVoxelAffinity.self.
Variables (preds : list (tensor Z)) (targets : tensor Z).
Variable tv : nat -> tensor Z.
Variables (split_mask merge_mask : nat -> tensor Qc).
Variables (split_count merge_count : nat -> Z).

Local Abbreviation n := (length preds).
Local Abbreviation shp := (size (pred_at preds 0)).
Local Abbreviation b := (SuperVoxelAffinity.beta s).

Hypothesis Hbatch : 0 < n.
Hypothesis Htargets :
  forall i, i < n -> SuperVoxelAffinity.target_volume targets i = Ok (tv i).
Hypothesis Hsplit :
  forall i, i < n ->
    detect_critical (tv i) (pred_at preds i)
      = Ok (split_mask i, split_count i) /\
    size (split_mask i) = shp /\ twf (split_mask i).
Hypothesis Hmerge :
  forall i, i < n ->
    detect_critical (pred_at preds i) (tv i)
      = Ok (merge_mask i, merge_count i) /\
    size (merge_mask i) = shp /\ twf (merge_mask i).
Hypothesis Horder : forall l, Permutation (as_completed l) l.

Let submitted : list task := flat_map (analyses preds tv) (seq 0 n).

Lemma submitted_good : Forall (good_task detect_critical n shp) submitted.
Proof.
  apply Forall_forall. intros p Hp. unfold submitted in Hp.
  apply in_flat_map in Hp as (i & Hi & Hp). apply in_seq in Hi.
  assert (Hi' : i < n) by lia.
  destruct (Hsplit Hi') as (Es & Ss & Ws).
  destruct (Hmerge Hi') as (Em & Sm & Wm).
  destruct Hp as [<-|[<-|[]]]; (split; [exact Hi'|]); cbn.
  - exists (split_mask i), (split_count i). auto.
  - exists (merge_mask i), (merge_count i). auto.
Qed.

Lemma split_task_result (i : nat) :
  i < n ->
  task_mask detect_critical (split_task preds tv i) = split_mask i /\
  task_count detect_critical (split_task preds tv i) = split_count i.
Proof.
  intros Hi. destruct (Hsplit Hi) as (E & _).
  unfold task_mask, task_count, split_task. cbn. rewrite E. auto.
Qed.

Lemma merge_task_result (i : nat) :
  i < n ->
  task_mask detect_critical (merge_task preds tv i) = merge_mask i /\
  task_count detect_critical (merge_task preds tv i) = merge_count i.
Proof.
  intros Hi. destruct (Hmerge Hi) as (E & _).
  unfold task_mask, task_count, merge_task. cbn. rewrite E. auto.
Qed.

Lemma count_sum (f : nat -> task) (c : nat -> Z) :
  (forall i, i < n -> task_count detect_critical (f i) = c i) ->
  (Qcsum (map (fun i => Qc_of_Z (task_count detect_critical (f i)))
            (seq 0 n)) / Qc_of_nat n)%Qc = mean_of n c.
Proof.
  intros Hc. unfold mean_of. f_equal. f_equal.
  apply map_ext_in. intros i Hi. apply in_seq in Hi.
  rewrite Hc by lia. reflexivity.
Qed.

Lemma get_critical_masks_spec :
  exists masks stats,
    SuperVoxelAffinity.get_critical_masks detect_critical as_completed
      s preds targets
    = mkRun submitted (Ok (masks, stats)) /\
    size masks = n :: shp /\ twf masks /\
    (forall i idx, i < n ->
       tget (i :: idx) masks =
       match tget idx (split_mask i), tget idx (merge_mask i) with
       | Some x, Some y => Some (b * x + (1 - b) * y)%Qc
       | _, _ => None
       end) /\
    Splits stats = mean_of n split_count /\
    Merges stats = mean_of n merge_count.
Proof.
  set (masks0 := mkTensor (n :: shp) (zeros (n :: shp))).
  assert (Hperm : Permutation (as_completed submitted) submitted)
    by apply Horder.
  assert (Hgood : Forall (good_task detect_critical n shp)
                         (as_completed submitted)).
  { apply (Permutation_Forall (Permutation_sym Hperm)).
    apply submitted_good. }
  destruct (@collect_loop_spec detect_critical s n shp
              (as_completed submitted) masks0 (mkStats 0 0)
              Hgood eq_refl (wf_zeros (n :: shp)))
    as (masks & stats & E & Hs & Hw & Hg & HS & HM).
  exists masks, stats. split; [|split; [exact Hs|split; [exact Hw|]]].
  - unfold SuperVoxelAffinity.get_critical_masks.
    rewrite (py_index_ok preds (mkTensor [] (Leaf 0%Z)) Hbatch).
    fold (pred_at preds 0).
    rewrite (submit_loop_spec preds targets tv (seq 0 n) [])
      by (intros i Hi; apply in_seq in Hi; split; [lia|];
          apply Htargets; lia).
    cbn [processes outcome rbind app]. fold submitted. fold masks0.
    rewrite E. reflexivity.
  - split; [|split].
    + intros i idx Hi.
      destruct (Hsplit Hi) as (_ & Ss & Ws).
      destruct (Hmerge Hi) as (_ & Sm & Wm).
      unfold twf in Ws, Wm, Hw. rewrite Ss in Ws. rewrite Sm in Wm.
      rewrite Hs in Hw.
      destruct (in_range idx shp) eqn:R.
      * assert (H0 : tget (i :: idx) masks0 = Some 0%Qc).
        { unfold tget, masks0. cbn [data]. rewrite get_zeros.
          cbn [in_range]. apply Nat.ltb_lt in Hi. rewrite Hi, R.
          reflexivity. }
        rewrite (Hg i idx _ H0).
        rewrite (Qcsum_perm (Permutation_map _ Hperm)).
        unfold submitted.
        rewrite (term_sum_present detect_critical s preds tv i idx
                   (seq_NoDup n 0))
          by (apply in_seq; lia).
        destruct (split_task_result Hi) as [-> _].
        destruct (merge_task_result Hi) as [-> _].
        unfold entry, tget.
        destruct (wf_get_some shp idx _ Ws R) as [x ->].
        destruct (wf_get_some shp idx _ Wm R) as [y ->].
        f_equal. ring.
      * unfold tget.
        rewrite (wf_get_none (n :: shp) (i :: idx) _ Hw)
          by (cbn [in_range]; rewrite R; apply andb_false_r).
        rewrite (wf_get_none shp idx _ Ws R). reflexivity.
    + rewrite HS. cbn [Splits].
      rewrite (Qcsum_perm (Permutation_map _ Hperm)).
      unfold submitted. rewrite split_share_sum.
      rewrite (count_sum (split_task preds tv) split_count)
        by (intros i Hi; apply (split_task_result Hi)).
      ring.
    + rewrite HM. cbn [Merges].
      rewrite (Qcsum_perm (Permutation_map _ Hperm)).
      unfold submitted. rewrite merge_share_sum.
      rewrite (count_sum (merge_task preds tv) merge_count)
        by (intros i Hi; apply (merge_task_result Hi)).
      ring.
Qed.
End MaskComputer.

Lemma get_critical_masks_ok
    (detect_critical : tensor Z -> tensor Z -> result (tensor Qc * Z))
    (as_completed : list task -> list task) (s : SuperVoxelAffinity.self)
    (preds : list (tensor Z)) (targets : tensor Z) (tv : nat -> tensor Z)
    (split_mask merge_mask : nat -> tensor Qc)
    (split_count merge_count : nat -> Z) :
  batch_ok detect_critical preds targets tv split_mask merge_mask
           split_count merge_count ->
  any_order as_completed ->
  exists masks stats,
    SuperVoxelAffinity.get_critical_masks detect_critical as_completed
      s preds targets
    = mkRun (flat_map (analyses preds tv) (seq 0 (length preds)))
            (Ok (masks, stats)) /\
    size masks = length preds :: size (pred_at preds 0) /\ twf masks /\
    (forall i idx, i < length preds ->
       tget (i :: idx) masks =
       match tget idx (split_mask i), tget idx (merge_mask i) with
       | Some x, Some y =>
           Some (SuperVoxelAffinity.beta s * x
                 + (1 - SuperVoxelAffinity.beta s) * y)%Qc
       | _, _ => None
       end) /\
    Splits stats = mean_of (length preds) split_count /\
    Merges stats = mean_of (length preds) merge_count.
Proof.
  intros [Hb Ht Hs Hm] Ho.
  exact (get_critical_masks_spec detect_critical as_completed s preds
           targets tv split_mask merge_mask split_count merge_count
           Hb Ht Hs Hm Ho).
Qed.

Lemma demo_batch_ok :
  batch_ok demo_detect demo_preds demo_targets demo_tv
    (fun i => task_mask demo_detect (split_task demo_preds demo_tv i))
    (fun i => task_mask demo_detect (merge_task demo_preds demo_tv i))
    (fun i => task_count demo_detect (split_task demo_preds demo_tv i))
    (fun i => task_count demo_detect (merge_task demo_preds demo_tv i)).
Proof.
  split.
  - simpl. lia.
  - intros [|[|i]] Hi; [reflexivity | reflexivity | simpl in Hi; lia].
  - intros [|[|i]] Hi; [| |simpl in Hi; lia];
      (split; [reflexivity|]); (split; [reflexivity|]);
      unfold twf; simpl; repeat constructor.
  - intros [|[|i]] Hi; [| |simpl in Hi; lia];
      (split; [reflexivity|]); (split; [reflexivity|]);
      unfold twf; simpl; repeat constructor.
Qed.

Lemma rev_any_order : any_order (@rev task).
Proof. intros l. apply Permutation_sym, Permutation_rev. Qed.

Lemma filter_analyses_absent (preds : list (tensor Z))
    (tv : nat -> tensor Z) (i : nat) :
  forall ixs, ~ In i ixs ->
    filter (fun p => t_process_id p =? i)
           (flat_map (analyses preds tv) ixs) = [].
Proof.
  induction ixs as [|j ixs IH]; intros Hn; [reflexivity|].
  cbn [flat_map analyses app filter split_task merge_task t_process_id].
  destruct (Nat.eqb_spec j i) as [->|_].
  - exfalso. apply Hn. left. reflexivity.
  - apply IH. intros Hin. apply Hn. right. exact Hin.
Qed.

Lemma filter_analyses (preds : list (tensor Z)) (tv : nat -> tensor Z)
    (i : nat) :
  forall ixs, NoDup ixs -> In i ixs ->
    filter (fun p => t_process_id p =? i)
           (flat_map (analyses preds tv) ixs) = analyses preds tv i.
Proof.
  induction ixs as [|j ixs IH]; intros Hnd Hin; [contradiction|].
  inversion Hnd as [|? ? Hj Hnd']; subst.
  cbn [flat_map analyses app filter split_task merge_task t_process_id].
  destruct (Nat.eqb_spec j i) as [->|Hne].
  - rewrite (filter_analyses_absent preds tv i ixs Hj). reflexivity.
  - destruct Hin as [->|Hin]; [contradiction|]. apply (IH Hnd' Hin).
Qed.

Lemma length_analyses (preds : list (tensor Z)) (tv : nat -> tensor Z) :
  forall ixs,
    length (flat_map (analyses preds tv) ixs) = 2 * length ixs.
Proof.
  induction ixs as [|j ixs IH]; [reflexivity|].
  cbn [flat_map analyses app length]. rewrite IH. simpl. lia.
Qed.

Lemma tget_outside (masks : tensor Qc) (n : nat) (shp : list nat)
    (idx : list nat) :
  size masks = n :: shp -> twf masks ->
  match idx with
  | [] => True
  | i :: _ => n <= i
  end ->
  tget idx masks = None.
Proof.
  intros Hs Hw Hi. unfold twf in Hw. rewrite Hs in Hw.
  apply (wf_get_none _ _ _ Hw).
  destruct idx as [|i idx]; [reflexivity|]. cbn [in_range].
  destruct (Nat.ltb_spec i n); [lia|reflexivity].
Qed.

Lemma convex_binary (b x y : Qc) :
  (0 <= b)%Qc -> (b <= 1)%Qc ->
  x = 0%Qc \/ x = 1%Qc -> y = 0%Qc \/ y = 1%Qc ->
  (0 <= b * x + (1 - b) * y)%Qc /\ (b * x + (1 - b) * y <= 1)%Qc.
Proof.
  intros H0 H1 [-> | ->] [-> | ->].
  - replace (b * 0 + (1 - b) * 0)%Qc with 0%Qc by ring.
    split; [apply Qcle_refl | discriminate].
  - replace (b * 0 + (1 - b) * 1)%Qc with (1 - b)%Qc by ring. split.
    + apply Qcle_minus_iff in H1. exact H1.
    + apply Qcle_minus_iff.
      replace (1 + - (1 - b))%Qc with b by ring. exact H0.
  - replace (b * 1 + (1 - b) * 0)%Qc with b by ring. auto.
  - replace (b * 1 + (1 - b) * 1)%Qc with 1%Qc by ring.
    split; [discriminate | apply Qcle_refl].
Qed.

(** C8.  With binary split and merge masks and [0 <= beta <= 1], every
    entry of the masks returned by [get_critical_masks] lies in [0, 1]. *)
Theorem critical_mask_bounds
    (detect_critical : tensor Z -> tensor Z -> result (tensor Qc * Z))
    (as_completed : list task -> list task) (s : SuperVoxelAffinity.self)
    (preds : list (tensor Z)) (targets : tensor Z) (tv : nat -> tensor Z)
    (split_mask merge_mask : nat -> tensor Qc)
    (split_count merge_count : nat -> Z) :
  batch_ok detect_critical preds targets tv split_mask merge_mask
           split_count merge_count ->
  any_order as_completed ->
  (forall i, i < length preds ->
     binary (split_mask i) /\ binary (merge_mask i)) ->
  (0 <= SuperVoxelAffinity.beta s)%Qc ->
  (SuperVoxelAffinity.beta s <= 1)%Qc ->
  exists critical_mask stats,
    outcome (SuperVoxelAffinity.get_critical_masks detect_critical
               as_completed s preds targets)
      = Ok (critical_mask, stats) /\
    forall idx v,
      tget idx critical_mask = Some v -> (0 <= v)%Qc /\ (v <= 1)%Qc.
Proof.
  intros Hok Hord Hbin Hb0 Hb1.
  destruct (get_critical_masks_ok s Hok Hord)
    as (masks & stats & E & Hs & Hw & Hg & _ & _).
  exists masks, stats. rewrite E. cbn [outcome]. split; [reflexivity|].
  intros [|i idx] v Hv.
  - rewrite (tget_outside masks [] Hs Hw I) in Hv. discriminate.
  - destruct (Nat.lt_ge_cases i (length preds)) as [Hi|Hi];
      [|rewrite (tget_outside masks (i :: idx) Hs Hw Hi) in Hv;
        discriminate].
    rewrite (Hg i idx Hi) in Hv.
    destruct (Hbin i Hi) as [Bs Bm].
    destruct (tget idx (split_mask i)) as [x|] eqn:Ex; [|discriminate].
    destruct (tget idx (merge_mask i)) as [y|] eqn:Ey; [|discriminate].
    injection Hv as <-.
    apply convex_binary; [assumption | assumption | |].
    + apply (Bs idx x Ex).
    + apply (Bm idx y Ey).
Qed.

Lemma get_In_flatten {A} :
  forall (idx : list nat) (d : nd A) (x : A),
    get idx d = Some x -> In x (flatten d).
Proof.
  induction idx as [|i idx IH]; intros [a|l] x Hx; simpl in *;
    try discriminate.
  - injection Hx as ->. left. reflexivity.
  - destruct (nth_error l i) as [d|] eqn:E; [|discriminate].
    apply in_flat_map. exists d. split.
    + apply (nth_error_In _ _ E).
    + apply (IH d x). exact Hx.
Qed.

Lemma binary_flatten (m : tensor Qc) :
  Forall (fun x => x = 0%Qc \/ x = 1%Qc) (flatten (data m)) -> binary m.
Proof.
  intros Hf idx x Hx. rewrite Forall_forall in Hf.
  apply Hf. apply (@get_In_flatten Qc idx (data m) x Hx).
Qed.

Lemma demo_masks_binary :
  forall i, i < length demo_preds ->
    binary (task_mask demo_detect (split_task demo_preds demo_tv i)) /\
    binary (task_mask demo_detect (merge_task demo_preds demo_tv i)).
Proof.
  intros [|[|i]] Hi; [| |simpl in Hi; lia];
    split; apply binary_flatten; vm_compute;
    repeat (apply Forall_cons; [auto|]); apply Forall_nil.
Qed.

Lemma critical_mask_bounds_witness :
  exists critical_mask stats,
    outcome (SuperVoxelAffinity.get_critical_masks demo_detect (@rev task)
               demo_self demo_preds demo_targets)
      = Ok (critical_mask, stats) /\
    forall idx v,
      tget idx critical_mask = Some v -> (0 <= v)%Qc /\ (v <= 1)%Qc.
Proof.
  apply (critical_mask_bounds demo_self demo_batch_ok rev_any_order
           demo_masks_binary); vm_compute; discriminate.
Defined.

(** ** The loss aggregator *)

Lemma decoder_forward_not_ok {A} (edges : list (list Z)) (x : tensor A)
    (i : Z) (r : tensor A) :
  SuperVoxelAffinity.Decoder.forward edges x i <> Ok r.
Proof.
  unfold SuperVoxelAffinity.Decoder.forward.
  destruct (SuperVoxelAffinity.Decoder.size_m4 x) as [c|e];
    [|discriminate].
  cbn [rbind]. destruct (assert (c =? length edges)); [|discriminate].
  cbn [rbind].
  destruct (assert ((i <? Z.of_nat c)%Z && (i >=? 0)%Z)); [|discriminate].
  cbn [rbind]. destruct (py_index edges (Z.to_nat i)); [|discriminate].
  cbn [rbind]. rewrite get_pair_first_raises. discriminate.
Qed.

Lemma get_pred_labels_loop_length
    (run_watershed : tensor Qc -> list Z -> result (list (tensor Z)))
    (s : SuperVoxelAffinity.self) (pred_affs : tensor Qc) :
  forall (ixs : list nat) (acc labels : list (tensor Z)),
    SuperVoxelAffinity.get_pred_labels_loop run_watershed s pred_affs
      ixs acc = Ok labels ->
    length labels = length acc + length ixs.
Proof.
  induction ixs as [|i ixs IH]; intros acc labels E; simpl in E.
  - injection E as <-. simpl. lia.
  - apply rbind_ok in E as (x & _ & E).
    apply rbind_ok in E as (l & _ & E).
    rewrite (IH _ _ E), length_app. simpl. lia.
Qed.

(** C5.  With [alpha = 0] and at least one edge, [forward] returns no
    loss at all: the first call of the decoder in the loop raises (see
    C1), and on an empty batch [get_critical_masks] has raised before.
    So no returned total equals the sum of the unweighted means. *)
Theorem forward_alpha0_raises
    (run_watershed : tensor Qc -> list Z -> result (list (tensor Z)))
    (detect_critical : tensor Z -> tensor Z -> result (tensor Qc * Z))
    (as_completed : list task -> list task)
    (edges : list (list Z)) (beta threshold : Qc)
    (criterion : tensor Qc -> tensor Qc -> result (tensor Qc))
    (pred_affs : tensor Qc) (target_labels : tensor Z) :
  edges <> [] ->
  exists e,
    SuperVoxelAffinity.forward run_watershed detect_critical as_completed
      (SuperVoxelAffinity.init edges 0 beta criterion threshold)
      pred_affs target_labels = Err e.
Proof.
  intros Hedges.
  destruct (SuperVoxelAffinity.forward _ _ _ _ _ _) as [r|e] eqn:E;
    [exfalso | exists e; reflexivity].
  unfold SuperVoxelAffinity.forward in E.
  apply rbind_ok in E as (labels & Hl & E).
  apply rbind_ok in E as ([masks stats] & Hm & E).
  apply rbind_ok in E as (n & Hn & E).
  apply rbind_ok in E as (loss & Hloop & _).
  (* the batch is not empty, or the masks would not have been allocated *)
  unfold SuperVoxelAffinity.get_pred_labels, SuperVoxelAffinity.toCPU in Hl.
  rewrite Hn in Hl. cbn [rbind] in Hl.
  apply get_pred_labels_loop_length in Hl.
  rewrite length_seq in Hl. simpl in Hl.
  unfold SuperVoxelAffinity.get_critical_masks in Hm.
  destruct labels as [|l0 labels]; [discriminate Hm|].
  destruct n as [|n]; [discriminate Hl|].
  (* first example, first edge *)
  cbn [seq SuperVoxelAffinity.batch_loop] in Hloop.
  apply rbind_ok in Hloop as (m & _ & Hloop).
  apply rbind_ok in Hloop as (t & _ & Hloop).
  apply rbind_ok in Hloop as (loss' & Hedge & _).
  cbn [SuperVoxelAffinity.init SuperVoxelAffinity.edges] in Hedge.
  destruct edges as [|edge es]; [contradiction|].
  cbn [SuperVoxelAffinity.edges_loop] in Hedge.
  apply rbind_ok in Hedge as (l & Hedge & _).
  unfold SuperVoxelAffinity.edge_loss in Hedge.
  apply rbind_ok in Hedge as (x & _ & Hedge).
  apply rbind_ok in Hedge as (p & Hdec & _).
  cbn [SuperVoxelAffinity.decoder] in Hdec.
  exact (decoder_forward_not_ok _ _ _ Hdec).
Qed.

Lemma forward_alpha0_raises_witness :
  exists e,
    SuperVoxelAffinity.forward demo_watershed demo_detect (@rev task)
      (SuperVoxelAffinity.init [[1; 0; 0]%Z] 0 (Q2Qc (1 # 4))
         (fun pred target => Ok pred) (Q2Qc (1 # 2)))
      demo_pred_affs demo_targets = Err e.
Proof.
  apply forward_alpha0_raises. discriminate.
Defined.

(** The exception [forward] ends with on that batch. *)
Example forward_alpha0_demo :
  SuperVoxelAffinity.forward demo_watershed demo_detect (@rev task)
    (SuperVoxelAffinity.init [[1; 0; 0]%Z] 0 (Q2Qc (1 # 4))
       (fun pred target => Ok pred) (Q2Qc (1 # 2)))
    demo_pred_affs demo_targets
  = Err (NameError "arr").
Proof. vm_compute. reflexivity. Qed.

(** ** One term of the loss when the decoder returns *)

Lemma wf_ext {A} :
  forall (s : list nat) (d1 d2 : nd A),
    wf s d1 -> wf s d2 ->
    (forall idx, get idx d1 = get idx d2) -> d1 = d2.
Proof.
  induction s as [|n s IH]; intros [a|l1] [b|l2] H1 H2 Hg; simpl in *;
    try contradiction.
  - specialize (Hg []). simpl in Hg. congruence.
  - destruct H1 as [L1 F1], H2 as [L2 F2]. f_equal.
    apply nth_error_ext. intros i.
    destruct (nth_error l1 i) as [x|] eqn:E1,
             (nth_error l2 i) as [y|] eqn:E2.
    + f_equal. apply IH.
      * rewrite Forall_forall in F1. apply F1, (nth_error_In _ _ E1).
      * rewrite Forall_forall in F2. apply F2, (nth_error_In _ _ E2).
      * intros idx. specialize (Hg (i :: idx)). simpl in Hg.
        rewrite E1, E2 in Hg. exact Hg.
    + apply nth_error_None in E2.
      assert (i < length l1) by (apply nth_error_Some; congruence). lia.
    + apply nth_error_None in E1.
      assert (i < length l2) by (apply nth_error_Some; congruence). lia.
    + reflexivity.
Qed.

Lemma wf_pad_data {A} (s : list nat) (d : nd A) :
  forall k, wf s d -> wf (repeat 1 k ++ s) (pad_data k d).
Proof.
  induction k as [|k IH]; intros Hw; simpl; [exact Hw|].
  split; [reflexivity|]. constructor; [apply IH, Hw | constructor].
Qed.

Lemma join_shapes_cons (m n : nat) (src tgt : list nat) :
  join_shapes (m :: src) (n :: tgt) = Some (n :: tgt) ->
  join_shapes src tgt = Some tgt /\ (m = n \/ m = 1).
Proof.
  simpl. destruct (join_shapes src tgt) as [s'|]; [|discriminate].
  destruct (Nat.eqb_spec m n) as [->|Hmn].
  - intros [= ->]. auto.
  - destruct (Nat.eqb_spec m 1) as [->|Hm1].
    + intros [= ->]. auto.
    + destruct (n =? 1); [|discriminate]. intros [= E ->]. contradiction.
Qed.

Lemma wf_stretch {A} :
  forall (tgt src : list nat) (d : nd A),
    join_shapes src tgt = Some tgt -> wf src d ->
    wf tgt (stretch tgt src d).
Proof.
  induction tgt as [|n tgt IH]; intros src d Hj Hw.
  - destruct src as [|m src]; [exact Hw | discriminate Hj].
  - destruct src as [|m src]; [discriminate Hj|].
    destruct d as [a|l]; [contradiction|].
    destruct Hw as [Hl Hf].
    apply join_shapes_cons in Hj as [Hj Hmn].
    cbn [stretch].
    destruct (Nat.eqb_spec m n) as [->|Hne]; cbn [wf].
    + split; [rewrite length_map; exact Hl|].
      apply Forall_map. revert Hf. apply Forall_impl.
      intros x. apply IH, Hj.
    + destruct Hmn as [-> | ->]; [contradiction|].
      destruct l as [|x [|y l]]; simpl in Hl; try discriminate.
      inversion Hf; subst. split; [apply repeat_length|].
      apply Forall_forall. intros z Hz. apply repeat_spec in Hz. subst z.
      cbn [hd]. apply IH; assumption.
Qed.

Lemma wf_expand {A} (tgt : list nat) (t : tensor A) :
  broadcast_shapes (size t) tgt = Some tgt -> twf t ->
  wf tgt (expand tgt t).
Proof.
  unfold broadcast_shapes, expand, twf, rank. intros Hb Hw.
  assert (Hlen : forall s1 s2 s,
             join_shapes s1 s2 = Some s ->
             length s1 = length s /\ length s2 = length s).
  { induction s1 as [|a s1 IH1]; intros [|c s2] s E; simpl in E;
      try discriminate.
    - injection E as <-. auto.
    - destruct (join_shapes s1 s2) as [s'|] eqn:E'; [|discriminate].
      destruct (IH1 _ _ E') as [L1 L2].
      destruct (a =? c); [|destruct (a =? 1); [|destruct (c =? 1)]];
        try discriminate; injection E as <-; simpl; auto. }
  destruct (Hlen _ _ _ Hb) as [L1 L2].
  unfold pad_shape in L1, L2. rewrite length_app, repeat_length in L1, L2.
  assert (Hr : Nat.max (length (size t)) (length tgt) = length tgt)
    by lia.
  rewrite Hr in Hb. rewrite (pad_shape_same tgt) in Hb.
  apply wf_stretch; [exact Hb|]. unfold pad_shape.
  apply wf_pad_data. exact Hw.
Qed.

Lemma pad_data_map {A B} (f : A -> B) (d : nd A) :
  forall k, pad_data k (map_nd f d) = map_nd f (pad_data k d).
Proof.
  induction k as [|k IH]; simpl; [reflexivity|]. rewrite IH. reflexivity.
Qed.

Lemma stretch_map {A B} (f : A -> B) :
  forall (tgt src : list nat) (d : nd A),
    stretch tgt src (map_nd f d) = map_nd f (stretch tgt src d).
Proof.
  induction tgt as [|n tgt IH]; intros [|m src] [a|l]; simpl;
    try reflexivity.
  destruct (m =? n); simpl; f_equal.
  - rewrite !map_map. apply map_ext. intros x. apply IH.
  - rewrite map_repeat. f_equal.
    destruct l as [|x l]; cbn [map hd].
    + apply (IH src (Node [])).
    + apply IH.
Qed.

Lemma expand_map {A B} (f : A -> B) (tgt : list nat) (t : tensor A) :
  expand tgt (tmap f t) = map_nd f (expand tgt t).
Proof.
  unfold expand, rank. cbn [tmap size data].
  rewrite pad_data_map. apply stretch_map.
Qed.

(** With [alpha = 0], a decoder that returns, and a mask affinity that
    broadcasts against the criterion loss, the term that [forward] adds
    for an (example, edge) pair is the plain mean of the criterion loss,
    whatever the mask contains. *)
Lemma edge_loss_alpha0
    (s : SuperVoxelAffinity.self) (pred_affs target_labels_i mask_i
      : tensor Qc) (i j : nat) (edge : list Z)
    (x p ta ma lj : tensor Qc) :
  SuperVoxelAffinity.alpha s = 0%Qc ->
  tsub i pred_affs = Ok x ->
  SuperVoxelAffinity.decoder s x (Z.of_nat j) = Ok p ->
  get_aff target_labels_i edge = Ok ta ->
  get_aff mask_i edge = Ok ma ->
  SuperVoxelAffinity.criterion s p ta = Ok lj ->
  twf lj -> twf ma ->
  broadcast_shapes (size ma) (size lj) = Some (size lj) ->
  SuperVoxelAffinity.edge_loss s pred_affs target_labels_i mask_i i j edge
  = Ok (mean lj).
Proof.
  intros Ha Hx Hp Hta Hma Hlj Wl Wm Hb.
  unfold SuperVoxelAffinity.edge_loss.
  rewrite Hx. cbn [rbind]. rewrite Hp. cbn [rbind].
  rewrite Hta. cbn [rbind]. rewrite Hma. cbn [rbind].
  rewrite Hlj. cbn [rbind]. rewrite Ha.
  unfold binop at 1. cbn [tmap size]. rewrite Hb. cbn [rbind].
  rewrite binop_same by reflexivity. cbn [rbind tmap size data].
  rewrite expand_same.
  change (expand (size lj) (mkTensor (size ma) (map_nd (Qcmult 0) (data ma))))
    with (expand (size lj) (tmap (Qcmult 0) ma)).
  rewrite expand_map.
  pose proof (@wf_expand Qc (size lj) ma Hb Wm) as We.
  set (E := expand (size lj) ma) in *.
  assert (Hd : zip_nd Qcplus (map_nd (Qcmult (1 - 0)) (data lj))
                 (zip_nd Qcmult (map_nd (Qcmult 0) E) (data lj))
               = data lj).
  { apply (wf_ext (size lj)).
    - apply wf_zip_nd; [apply wf_map_nd; exact Wl|].
      apply wf_zip_nd; [apply wf_map_nd; exact We | exact Wl].
    - exact Wl.
    - intros idx. rewrite !get_zip_nd, !get_map_nd.
      destruct (get idx (data lj)) as [l|] eqn:El; simpl.
      + pose proof (get_in_range _ _ _ Wl El) as R.
        destruct (wf_get_some _ _ _ We R) as [m ->]. simpl.
        f_equal. ring.
      + reflexivity. }
  unfold mean. cbn [data]. rewrite Hd. reflexivity.
Qed.

(** The assumptions of [edge_loss_alpha0] can be met: a loss object whose
    decoder hands back its input, on a prediction of size (1, 1, 2, 2),
    labels of size (1, 2, 2, 2) and a mask of size (2, 2, 2). *)
Example edge_loss_alpha0_demo :
  let s := SuperVoxelAffinity.mkSelf 0 (Q2Qc (1 # 4))
             (fun x _ => Ok x) [[1; 0; 0]%Z] (Q2Qc (1 # 2))
             (fun pred target => Ok pred) in
  let pred_affs := volume [1; 1; 1; 2; 2] (fun _ => Q2Qc (3 # 4)) in
  let labels := volume [1; 2; 2; 2] (fun _ => 1%Qc) in
  let mask := volume [2; 2; 2] (fun idx => Qc_of_Z (distinct_labels idx)) in
  SuperVoxelAffinity.edge_loss s pred_affs labels mask 0 0 [1; 0; 0]%Z
  = Ok (mean (volume [1; 1; 2; 2] (fun _ => Q2Qc (3 # 4)))).
Proof.
  intros s pred_affs labels mask.
  eapply edge_loss_alpha0;
    try reflexivity; unfold twf; simpl; repeat constructor.
Qed.

(** ** Indexing helpers *)

Lemma tsub_ok {A} (t : tensor A) (n : nat) (sh : list nat) (i : nat) :
  size t = n :: sh -> twf t -> i < n ->
  exists x, tsub i t = Ok x /\ size x = sh /\ twf x.
Proof.
  destruct t as [sz d]. unfold twf, tsub. cbn [size data].
  intros -> Hw Hi. destruct d as [a|l]; [contradiction|].
  destruct Hw as [Hl Hf].
  apply Nat.ltb_lt in Hi. rewrite Hi. apply Nat.ltb_lt in Hi.
  cbn [sub]. destruct (nth_error l i) as [d|] eqn:E;
    [|apply nth_error_None in E; lia].
  cbn [rbind]. eexists. split; [reflexivity|]. cbn [size data].
  split; [reflexivity|].
  rewrite Forall_forall in Hf. apply Hf, (nth_error_In _ _ E).
Qed.

Lemma analyses_ids (preds : list (tensor Z)) (tv : nat -> tensor Z)
    (n : nat) (p : task) :
  In p (flat_map (analyses preds tv) (seq 0 n)) ->
  t_process_id p < n /\
  (p = split_task preds tv (t_process_id p) \/
   p = merge_task preds tv (t_process_id p)).
Proof.
  intros Hp. apply in_flat_map in Hp as (i & Hi & Hp).
  apply in_seq in Hi.
  destruct Hp as [<-|[<-|[]]]; cbn; split; auto; lia.
Qed.

(** * The computed values *)

(** ** Binary64 addition *)

Lemma SFadd_comm (prec emax : Z) (x y : spec_float) :
  SFadd prec emax x y = SFadd prec emax y x.
Proof.
  destruct x as [sx|sx| |sx mx ex], y as [sy|sy| |sy my ey]; simpl;
    try reflexivity; try (destruct sx, sy; reflexivity).
  rewrite Z.min_comm, Z.add_comm. reflexivity.
Qed.

(** Two terms added into a slot that holds 0 give the same number in
    either order. *)
Lemma add64_zero_swap (a b : Fp.float) :
  Fp.add64 (Fp.add64 Fp.zero a) b = Fp.add64 (Fp.add64 Fp.zero b) a.
Proof.
  unfold Fp.add64, Fp.zero.
  destruct a as [sa|sa| |sa ma ea], b as [sb|sb| |sb mb eb];
    try (destruct sa); try (destruct sb); try reflexivity;
    apply SFadd_comm.
Qed.

(** ** Arrays of binary64 zeros, and adding into a slot *)

Lemma fp_get_zeros :
  forall (s idx : list nat),
    get idx (Fp.zeros s) = if in_range idx s then Some Fp.zero else None.
Proof.
  induction s as [|n s IH]; intros [|i idx]; simpl; try reflexivity.
  rewrite nth_error_repeat_full.
  destruct (i <? n); simpl; [apply IH | reflexivity].
Qed.

Lemma fp_wf_zeros (s : list nat) : wf s (Fp.zeros s).
Proof.
  induction s as [|n s IH]; simpl; [exact I|]. split.
  - apply repeat_length.
  - apply Forall_forall. intros x Hx.
    apply repeat_spec in Hx. subst. exact IH.
Qed.

Lemma fp_iadd_slot_spec (masks v : tensor Fp.float) (n : nat)
    (shp : list nat) (i : nat) :
  size masks = n :: shp -> twf masks -> size v = shp -> twf v -> i < n ->
  exists masks',
    Fp.iadd_slot masks i v = Ok masks' /\
    size masks' = n :: shp /\ twf masks' /\
    forall j idx,
      tget (j :: idx) masks' =
      if j =? i then
        match tget (i :: idx) masks, tget idx v with
        | Some a, Some b => Some (Fp.add64 a b)
        | _, _ => None
        end
      else tget (j :: idx) masks.
Proof.
  destruct masks as [ms md], v as [vs vd]. unfold twf, tget.
  cbn [size data]. intros -> Hw -> Hv Hi.
  destruct md as [a|l]; [contradiction|]. destruct Hw as [Hl Hf].
  destruct (nth_error l i) as [d|] eqn:E;
    [|apply nth_error_None in E; lia].
  assert (Hd : wf shp d).
  { rewrite Forall_forall in Hf. apply Hf. apply (nth_error_In _ _ E). }
  unfold Fp.iadd_slot, tsub. cbn [size data].
  apply Nat.ltb_lt in Hi. rewrite Hi. simpl sub. rewrite E. cbn [rbind size].
  rewrite broadcast_shapes_same.
  destruct (list_eq_dec Nat.eq_dec shp shp) as [_|N]; [|contradiction].
  change (expand shp (mkTensor shp vd)) with (expand (size (mkTensor shp vd))
                                                 (mkTensor shp vd)).
  rewrite expand_same. cbn [data]. unfold set_slot. cbn [data size].
  eexists. split; [reflexivity|]. cbn [size data].
  split; [reflexivity|]. split.
  - simpl. split; [rewrite length_update; exact Hl|].
    apply Forall_update; [exact Hf|]. apply wf_zip_nd; assumption.
  - intros j idx. simpl get. rewrite nth_error_update.
    apply Nat.ltb_lt in Hi. rewrite <- Hl in Hi.
    apply Nat.ltb_lt in Hi. rewrite Hi, E.
    destruct (j =? i); [|reflexivity].
    apply get_zip_nd.
Qed.

(** ** The loop over the finished futures, in binary64 *)

Section FpCollect.
Variable detect_critical :
  tensor Z -> tensor Z -> result (tensor Fp.float * Z).
Variable s : Fp.self.
Variable n : nat.
Variable shp : list nat.

Local Abbreviation good := (fp_good_task detect_critical n shp).
Local Abbreviation term' := (fp_term detect_critical s).
Local Abbreviation share' := (fp_share detect_critical n).
Local Abbreviation slot_after := (fp_slot_after detect_critical s).

Lemma fp_step_masks (p : task) (masks : tensor Fp.float) :
  good p -> size masks = n :: shp -> twf masks ->
  exists masks1,
    Fp.iadd_slot masks (t_process_id p)
      (tmap (Fp.mul64 (fp_weight s p)) (fp_task_mask detect_critical p))
      = Ok masks1 /\
    size masks1 = n :: shp /\ twf masks1 /\
    forall i idx a,
      tget (i :: idx) masks = Some a ->
      tget (i :: idx) masks1 =
        Some (if t_process_id p =? i then Fp.add64 a (term' idx p) else a).
Proof.
  intros (Hid & m & c & Hdc & Hm & Hwm) Hs Hw.
  assert (Etm : fp_task_mask detect_critical p = m)
    by (unfold fp_task_mask; rewrite Hdc; reflexivity).
  rewrite Etm.
  destruct (fp_iadd_slot_spec masks (tmap (Fp.mul64 (fp_weight s p)) m)
              (i := t_process_id p) Hs Hw) as (masks1 & E & Hs1 & Hw1 & Hg);
    [exact Hm | apply wf_map_nd; exact Hwm | exact Hid |].
  exists masks1. split; [exact E|]. split; [exact Hs1|].
  split; [exact Hw1|].
  intros i idx a Ha. rewrite Hg. unfold fp_term. rewrite Etm.
  rewrite (Nat.eqb_sym (t_process_id p) i).
  destruct (Nat.eqb_spec i (t_process_id p)) as [->|Hne].
  - rewrite Ha.
    assert (Hr : in_range idx shp = true).
    { unfold twf in Hw. rewrite Hs in Hw.
      pose proof (get_in_range _ _ _ Hw Ha) as R. simpl in R.
      apply andb_true_iff in R. apply R. }
    unfold twf in Hwm. rewrite Hm in Hwm.
    destruct (wf_get_some shp idx (data m) Hwm Hr) as [b Hb].
    unfold fp_entry, tget. cbn [tmap data]. rewrite get_map_nd, Hb.
    reflexivity.
  - exact Ha.
Qed.

Lemma fp_collect_loop_spec :
  forall (L : list task) (masks : tensor Fp.float) (stats : Fp.Stats),
    Forall good L -> size masks = n :: shp -> twf masks ->
    exists masks' stats',
      Fp.collect_loop detect_critical s n L masks stats
        = Ok (masks', stats') /\
      size masks' = n :: shp /\ twf masks' /\
      (forall i idx a,
         tget (i :: idx) masks = Some a ->
         tget (i :: idx) masks' = Some (slot_after i idx L a)) /\
      Fp.Splits stats' =
        fold_left Fp.add64 (map share' (filter is_split L))
                  (Fp.Splits stats) /\
      Fp.Merges stats' =
        fold_left Fp.add64
                  (map share' (filter (fun p => negb (is_split p)) L))
                  (Fp.Merges stats).
Proof.
  induction L as [|p L IH]; intros masks stats HL Hs Hw.
  - exists masks, stats. simpl. split; [reflexivity|].
    split; [exact Hs|]. split; [exact Hw|]. auto.
  - inversion HL as [|? ? Hp HL']; subst.
    destruct (@fp_step_masks p masks Hp Hs Hw)
      as (masks1 & E1 & Hs1 & Hw1 & Hg1).
    destruct Hp as (Hid & m & c & Hdc & Hm & Hwm).
    assert (Etm : fp_task_mask detect_critical p = m)
      by (unfold fp_task_mask; rewrite Hdc; reflexivity).
    assert (Esh : share' p =
                  Fp.div64 (Fp.of_int c) (Fp.of_int (Z.of_nat n)))
      by (unfold fp_share, fp_task_count; rewrite Hdc; reflexivity).
    rewrite Etm in E1. unfold fp_weight in E1.
    cbn [Fp.collect_loop].
    unfold Fp.process_result, Fp.get_critical_mask.
    rewrite Hdc. cbn [rbind].
    assert (Hslot : forall i idx a,
              slot_after i idx (p :: L) a =
              slot_after i idx L
                (if t_process_id p =? i then Fp.add64 a (term' idx p)
                 else a)).
    { intros i idx a. unfold slot_after. cbn [filter].
      destruct (t_process_id p =? i); reflexivity. }
    cbn [filter]. unfold is_split in *.
    destruct (t_critical_type p =? -1)%Z; rewrite E1; cbn [rbind negb].
    + destruct (IH masks1
                  (Fp.mkStats
                     (Fp.add64 (Fp.Splits stats)
                        (Fp.div64 (Fp.of_int c) (Fp.of_int (Z.of_nat n))))
                     (Fp.Merges stats)) HL' Hs1 Hw1)
        as (masks' & stats' & E & Hs' & Hw' & Hg' & HS & HM).
      exists masks', stats'. split; [exact E|].
      split; [exact Hs'|]. split; [exact Hw'|]. split; [|split].
      * intros i idx a Ha. rewrite Hslot.
        apply Hg', Hg1, Ha.
      * rewrite HS. cbn [Fp.Splits map fold_left]. rewrite Esh.
        reflexivity.
      * exact HM.
    + destruct (IH masks1
                  (Fp.mkStats (Fp.Splits stats)
                     (Fp.add64 (Fp.Merges stats)
                        (Fp.div64 (Fp.of_int c) (Fp.of_int (Z.of_nat n)))))
                  HL' Hs1 Hw1)
        as (masks' & stats' & E & Hs' & Hw' & Hg' & HS & HM).
      exists masks', stats'. split; [exact E|].
      split; [exact Hs'|]. split; [exact Hw'|]. split; [|split].
      * intros i idx a Ha. rewrite Hslot.
        apply Hg', Hg1, Ha.
      * exact HS.
      * rewrite HM. cbn [Fp.Merges map fold_left]. rewrite Esh.
        reflexivity.
Qed.
End FpCollect.

(** ** The completion order *)

Lemma filter_permutation {X} (f : X -> bool) (l l' : list X) :
  Permutation l l' -> Permutation (filter f l) (filter f l').
Proof.
  induction 1 as [|x l l' _ IH|x y l|l l' l'' _ IH1 _ IH2]; simpl.
  - constructor.
  - destruct (f x); [constructor|]; exact IH.
  - destruct (f x), (f y); try apply Permutation_refl. constructor.
  - exact (Permutation_trans IH1 IH2).
Qed.

Lemma filter_split_analyses (preds : list (tensor Z))
    (tv : nat -> tensor Z) :
  forall ixs,
    filter is_split (flat_map (analyses preds tv) ixs)
      = map (split_task preds tv) ixs /\
    filter (fun p => negb (is_split p)) (flat_map (analyses preds tv) ixs)
      = map (merge_task preds tv) ixs.
Proof.
  induction ixs as [|i ixs [IHs IHm]]; [split; reflexivity|].
  change (flat_map (analyses preds tv) (i :: ixs))
    with (split_task preds tv i :: merge_task preds tv i
            :: flat_map (analyses preds tv) ixs).
  cbn [filter map].
  change (is_split (split_task preds tv i)) with true.
  change (is_split (merge_task preds tv i)) with false.
  cbn [negb]. rewrite IHs, IHm. split; reflexivity.
Qed.

(** ** get_critical_masks in binary64 *)

Section FpMaskComputer.
Variable detect_critical :
  tensor Z -> tensor Z -> result (tensor Fp.float * Z).
Variable as_completed : list task -> list task.
Variable s : Fp.self.
Variables (preds : list (tensor Z)) (targets : tensor Z).
Variable tv : nat -> tensor Z.
Variables (split_mask merge_mask : nat -> tensor Fp.float).
Variables (split_count merge_count : nat -> Z).

Local Abbreviation n := (length preds).
Local Abbreviation shp := (size (pred_at preds 0)).
Local Abbreviation b := (Fp.beta s).

Hypothesis Hbatch : 0 < n.
Hypothesis Htargets :
  forall i, i < n -> SuperVoxelAffinity.target_volume targets i = Ok (tv i).
Hypothesis Hsplit :
  forall i, i < n ->
    detect_critical (tv i) (pred_at preds i)
      = Ok (split_mask i, split_count i) /\
    size (split_mask i) = shp /\ twf (split_mask i).
Hypothesis Hmerge :
  forall i, i < n ->
    detect_critical (pred_at preds i) (tv i)
      = Ok (merge_mask i, merge_count i) /\
    size (merge_mask i) = shp /\ twf (merge_mask i).
Hypothesis Horder : forall l, Permutation (as_completed l) l.

Let submitted : list task := flat_map (analyses preds tv) (seq 0 n).

Lemma fp_submitted_good :
  Forall (fp_good_task detect_critical n shp) submitted.
Proof.
  apply Forall_forall. intros p Hp. unfold submitted in Hp.
  apply in_flat_map in Hp as (i & Hi & Hp). apply in_seq in Hi.
  assert (Hi' : i < n) by lia.
  destruct (Hsplit Hi') as (Es & Ss & Ws).
  destruct (Hmerge Hi') as (Em & Sm & Wm).
  destruct Hp as [<-|[<-|[]]]; (split; [exact Hi'|]); cbn.
  - exists (split_mask i), (split_count i). auto.
  - exists (merge_mask i), (merge_count i). auto.
Qed.

Lemma fp_split_task_result (i : nat) :
  i < n ->
  fp_task_mask detect_critical (split_task preds tv i) = split_mask i /\
  fp_task_count detect_critical (split_task preds tv i) = split_count i.
Proof.
  intros Hi. destruct (Hsplit Hi) as (E & _).
  unfold fp_task_mask, fp_task_count, split_task. cbn. rewrite E. auto.
Qed.

Lemma fp_merge_task_result (i : nat) :
  i < n ->
  fp_task_mask detect_critical (merge_task preds tv i) = merge_mask i /\
  fp_task_count detect_critical (merge_task preds tv i) = merge_count i.
Proof.
  intros Hi. destruct (Hmerge Hi) as (E & _).
  unfold fp_task_mask, fp_task_count, merge_task. cbn. rewrite E. auto.
Qed.

(** Whatever the order, slot [i] receives the terms of its two futures,
    and the two sums agree. *)
Lemma fp_slot_value (i : nat) (idx : list nat) (L : list task) :
  Permutation L submitted -> i < n ->
  fp_slot_after detect_critical s i idx L Fp.zero =
  Fp.add64
    (Fp.add64 Fp.zero (Fp.mul64 b (fp_entry idx (split_mask i))))
    (Fp.mul64 (Fp.sub64 Fp.one b) (fp_entry idx (merge_mask i))).
Proof.
  intros Hperm Hi. unfold fp_slot_after.
  pose proof (filter_permutation (fun p => t_process_id p =? i) Hperm)
    as Hf.
  unfold submitted in Hf.
  rewrite (@filter_analyses preds tv i (seq 0 n) (seq_NoDup n 0)) in Hf
    by (apply in_seq; lia).
  apply Permutation_sym in Hf. unfold analyses in Hf.
  assert (Ts : fp_term detect_critical s idx (split_task preds tv i)
               = Fp.mul64 b (fp_entry idx (split_mask i))).
  { unfold fp_term, fp_weight.
    destruct (fp_split_task_result Hi) as [-> _]. reflexivity. }
  assert (Tm : fp_term detect_critical s idx (merge_task preds tv i)
               = Fp.mul64 (Fp.sub64 Fp.one b)
                          (fp_entry idx (merge_mask i))).
  { unfold fp_term, fp_weight.
    destruct (fp_merge_task_result Hi) as [-> _]. reflexivity. }
  apply Permutation_length_2_inv in Hf as [-> | ->]; cbn [fold_left];
    rewrite Ts, Tm; [reflexivity | apply add64_zero_swap].
Qed.

Lemma fp_shares (L : list task) :
  Permutation L submitted ->
  map (fp_share detect_critical n) (filter is_split L) =
    map (fun i => Fp.div64 (Fp.of_int (split_count i))
                           (Fp.of_int (Z.of_nat n)))
        (split_order L) /\
  map (fp_share detect_critical n)
      (filter (fun p => negb (is_split p)) L) =
    map (fun i => Fp.div64 (Fp.of_int (merge_count i))
                           (Fp.of_int (Z.of_nat n)))
        (merge_order L).
Proof.
  intros Hperm. unfold split_order, merge_order. rewrite !map_map.
  split; apply map_ext_in; intros p Hp; apply filter_In in Hp as [Hp Hk];
    apply (Permutation_in _ Hperm) in Hp;
    destruct (analyses_ids preds tv _ _ Hp) as [Hid [E|E]];
    rewrite E in Hk; cbn in Hk; try discriminate;
    unfold fp_share; rewrite E at 1.
  - destruct (fp_split_task_result Hid) as [_ ->]. reflexivity.
  - destruct (fp_merge_task_result Hid) as [_ ->]. reflexivity.
Qed.

Lemma fp_orders (L : list task) :
  Permutation L submitted ->
  Permutation (split_order L) (seq 0 n) /\
  Permutation (merge_order L) (seq 0 n).
Proof.
  intros Hperm. unfold split_order, merge_order.
  destruct (filter_split_analyses preds tv (seq 0 n)) as [Fs Fm].
  split.
  - apply (Permutation_trans
             (Permutation_map _ (filter_permutation is_split Hperm))).
    unfold submitted. rewrite Fs, map_map. cbn. rewrite map_id.
    apply Permutation_refl.
  - apply (Permutation_trans
             (Permutation_map _
                (filter_permutation (fun p => negb (is_split p)) Hperm))).
    unfold submitted. rewrite Fm, map_map. cbn. rewrite map_id.
    apply Permutation_refl.
Qed.

Lemma fp_get_critical_masks_spec :
  exists masks stats,
    Fp.get_critical_masks detect_critical as_completed s preds targets
    = mkRun submitted (Ok (masks, stats)) /\
    size masks = n :: shp /\ twf masks /\
    (forall i idx, i < n ->
       tget (i :: idx) masks =
       match tget idx (split_mask i), tget idx (merge_mask i) with
       | Some x, Some y =>
           Some (Fp.float32
                   (Fp.add64 (Fp.add64 Fp.zero (Fp.mul64 b x))
                             (Fp.mul64 (Fp.sub64 Fp.one b) y)))
       | _, _ => None
       end) /\
    Fp.Splits stats =
      sum64 (map (fun i => Fp.div64 (Fp.of_int (split_count i))
                                    (Fp.of_int (Z.of_nat n)))
                 (split_order (as_completed submitted))) /\
    Fp.Merges stats =
      sum64 (map (fun i => Fp.div64 (Fp.of_int (merge_count i))
                                    (Fp.of_int (Z.of_nat n)))
                 (merge_order (as_completed submitted))).
Proof.
  set (masks0 := mkTensor (n :: shp) (Fp.zeros (n :: shp))).
  assert (Hperm : Permutation (as_completed submitted) submitted)
    by apply Horder.
  assert (Hgood : Forall (fp_good_task detect_critical n shp)
                         (as_completed submitted)).
  { apply (Permutation_Forall (Permutation_sym Hperm)).
    apply fp_submitted_good. }
  destruct (@fp_collect_loop_spec detect_critical s n shp
              (as_completed submitted) masks0 (Fp.mkStats Fp.zero Fp.zero)
              Hgood eq_refl (fp_wf_zeros (n :: shp)))
    as (masks & stats & E & Hs & Hw & Hg & HS & HM).
  exists (Fp.toGPU masks), stats.
  split; [|split; [exact Hs|split; [apply wf_map_nd; exact Hw|]]].
  - unfold Fp.get_critical_masks.
    rewrite (py_index_ok preds (mkTensor [] (Leaf 0%Z)) Hbatch).
    fold (pred_at preds 0).
    rewrite (submit_loop_spec preds targets tv (seq 0 n) [])
      by (intros i Hi; apply in_seq in Hi; split; [lia|];
          apply Htargets; lia).
    cbn [processes outcome rbind app]. fold submitted. fold masks0.
    rewrite E. reflexivity.
  - destruct (fp_shares Hperm) as [Ss Sm].
    split; [|split].
    + intros i idx Hi.
      destruct (Hsplit Hi) as (_ & Ss' & Ws).
      destruct (Hmerge Hi) as (_ & Sm' & Wm).
      unfold twf in Ws, Wm, Hw. rewrite Ss' in Ws. rewrite Sm' in Wm.
      rewrite Hs in Hw.
      unfold tget, Fp.toGPU. cbn [tmap data]. rewrite get_map_nd.
      destruct (in_range idx shp) eqn:R.
      * assert (H0 : tget (i :: idx) masks0 = Some Fp.zero).
        { unfold tget, masks0. cbn [data]. rewrite fp_get_zeros.
          cbn [in_range]. apply Nat.ltb_lt in Hi. rewrite Hi, R.
          reflexivity. }
        pose proof (Hg i idx _ H0) as Hv. unfold tget in Hv. rewrite Hv.
        rewrite (fp_slot_value idx Hperm Hi).
        unfold fp_entry, tget.
        destruct (wf_get_some shp idx _ Ws R) as [x ->].
        destruct (wf_get_some shp idx _ Wm R) as [y ->].
        reflexivity.
      * rewrite (wf_get_none (n :: shp) (i :: idx) _ Hw)
          by (cbn [in_range]; rewrite R; apply andb_false_r).
        rewrite (wf_get_none shp idx _ Ws R). reflexivity.
    + rewrite HS. cbn [Fp.Splits]. rewrite Ss. reflexivity.
    + rewrite HM. cbn [Fp.Merges]. rewrite Sm. reflexivity.
Qed.
End FpMaskComputer.

(** C4, as stated, fails on the code, which computes in floating point.
    Ten examples with one split each have the mean 1, and [Splits] is
    0.9999999999999999; with [beta = 0.3], a split mask of 1 and a merge
    mask of 0 the critical mask holds the float32 nearest to 0.3, which is
    not [beta * 1 + (1 - beta) * 0]. *)
Lemma splits_of_ten_is_not_the_mean :
  exists critical_mask stats v,
    outcome (Fp.get_critical_masks detect_one (fun l => l) fp_self_03
               ten_preds ten_targets)
      = Ok (critical_mask, stats) /\
    (forall i, i < 10 ->
       detect_one (target_at ten_targets i) (pred_at ten_preds i)
         = Ok (volume [1; 1; 1] (fun _ => Fp.one), 1%Z) /\
       detect_one (pred_at ten_preds i) (target_at ten_targets i)
         = Ok (volume [1; 1; 1] (fun _ => Fp.zero), 0%Z)) /\
    mean_of 10 (fun _ => 1%Z) = 1%Qc /\
    Fp.Splits stats = S754_finite false 9007199254740991 (-53) /\
    Fp.value (Fp.Splits stats) <> mean_of 10 (fun _ => 1%Z) /\
    tget [0; 0; 0; 0] critical_mask = Some v /\
    Fp.value v <>
      (Fp.value (Fp.beta fp_self_03) * Fp.value Fp.one
       + (1 - Fp.value (Fp.beta fp_self_03)) * Fp.value Fp.zero)%Qc.
Proof.
  do 3 eexists. split; [vm_compute; reflexivity|].
  split.
  { intros i Hi.
    do 10 (destruct i as [|i]; [split; reflexivity|]). lia. }
  split; [apply Qc_is_canon; reflexivity|].
  split; [reflexivity|].
  split; [intros E; apply (f_equal (fun q => Qnum (this q))) in E;
          vm_compute in E; discriminate|].
  split; [reflexivity|].
  intros E; apply (f_equal (fun q => Qden (this q))) in E;
    vm_compute in E; discriminate.
Qed.

(** C4, amended.  On a non-empty batch whose analyses each return a mask
    and a count, [get_critical_masks] returns, whatever the completion
    order, masks whose slot [i] is [beta * split_mask[i] + (1 - beta) *
    merge_mask[i]] entry by entry, evaluated in binary64 (each product,
    the difference and each sum rounded) and converted to float32; and
    stats whose [Splits] and [Merges] are the binary64 sums of
    [count / len(preds)] over the examples, in the order in which their
    split, respectively merge, analyses complete. *)
Theorem get_critical_masks_combination
    (detect_critical : tensor Z -> tensor Z -> result (tensor Fp.float * Z))
    (as_completed : list task -> list task) (s : Fp.self)
    (preds : list (tensor Z)) (targets : tensor Z) (tv : nat -> tensor Z)
    (split_mask merge_mask : nat -> tensor Fp.float)
    (split_count merge_count : nat -> Z) :
  fp_batch_ok detect_critical preds targets tv split_mask merge_mask
              split_count merge_count ->
  any_order as_completed ->
  let r := Fp.get_critical_masks detect_critical as_completed s
             preds targets in
  let n := Fp.of_int (Z.of_nat (length preds)) in
  exists critical_mask stats,
    outcome r = Ok (critical_mask, stats) /\
    size critical_mask = length preds :: size (pred_at preds 0) /\
    (forall i idx, i < length preds ->
       tget (i :: idx) critical_mask =
       match tget idx (split_mask i), tget idx (merge_mask i) with
       | Some x, Some y =>
           Some (Fp.float32
                   (Fp.add64
                      (Fp.add64 Fp.zero (Fp.mul64 (Fp.beta s) x))
                      (Fp.mul64 (Fp.sub64 Fp.one (Fp.beta s)) y)))
       | _, _ => None
       end) /\
    Permutation (split_order (as_completed (processes r)))
                (seq 0 (length preds)) /\
    Permutation (merge_order (as_completed (processes r)))
                (seq 0 (length preds)) /\
    Fp.Splits stats =
      sum64 (map (fun i => Fp.div64 (Fp.of_int (split_count i)) n)
                 (split_order (as_completed (processes r)))) /\
    Fp.Merges stats =
      sum64 (map (fun i => Fp.div64 (Fp.of_int (merge_count i)) n)
                 (merge_order (as_completed (processes r)))).
Proof.
  intros [Hb _ Ht Hs Hm] Hord r n.
  assert (Hs' : forall i, i < length preds ->
            detect_critical (tv i) (pred_at preds i)
              = Ok (split_mask i, split_count i) /\
            size (split_mask i) = size (pred_at preds 0) /\
            twf (split_mask i))
    by (intros i Hi; destruct (Hs i Hi) as (? & ? & ? & _); auto).
  assert (Hm' : forall i, i < length preds ->
            detect_critical (pred_at preds i) (tv i)
              = Ok (merge_mask i, merge_count i) /\
            size (merge_mask i) = size (pred_at preds 0) /\
            twf (merge_mask i))
    by (intros i Hi; destruct (Hm i Hi) as (? & ? & ? & _); auto).
  destruct (@fp_get_critical_masks_spec detect_critical as_completed s
              preds targets tv split_mask merge_mask split_count
              merge_count Hb Ht Hs' Hm' Hord)
    as (masks & stats & E & Hsz & _ & Hg & HS & HM).
  exists masks, stats. subst r n. rewrite E. cbn [outcome processes].
  destruct (@fp_orders preds tv _ (Hord _)) as [Ps Pm].
  auto 8.
Qed.

Lemma fp_demo_batch_ok :
  fp_batch_ok fp_demo_detect demo_preds demo_targets demo_tv
    (fun i => fp_task_mask fp_demo_detect (split_task demo_preds demo_tv i))
    (fun i => fp_task_mask fp_demo_detect (merge_task demo_preds demo_tv i))
    (fun i => fp_task_count fp_demo_detect
                (split_task demo_preds demo_tv i))
    (fun i => fp_task_count fp_demo_detect
                (merge_task demo_preds demo_tv i)).
Proof.
  split.
  - simpl. lia.
  - simpl. lia.
  - intros [|[|i]] Hi; [reflexivity | reflexivity | simpl in Hi; lia].
  - intros [|[|i]] Hi; [| |simpl in Hi; lia];
      (split; [reflexivity|]); (split; [reflexivity|]);
      (split; [unfold twf; simpl; repeat constructor | vm_compute;
                                                       discriminate]).
  - intros [|[|i]] Hi; [| |simpl in Hi; lia];
      (split; [reflexivity|]); (split; [reflexivity|]);
      (split; [unfold twf; simpl; repeat constructor | vm_compute;
                                                       discriminate]).
Qed.

Lemma get_critical_masks_combination_witness :
  let r := Fp.get_critical_masks fp_demo_detect (@rev task) fp_demo_self
             demo_preds demo_targets in
  let n := Fp.of_int (Z.of_nat (length demo_preds)) in
  exists critical_mask stats,
    outcome r = Ok (critical_mask, stats) /\
    size critical_mask = length demo_preds :: size (pred_at demo_preds 0) /\
    (forall i idx, i < length demo_preds ->
       tget (i :: idx) critical_mask =
       match
         tget idx (fp_task_mask fp_demo_detect
                     (split_task demo_preds demo_tv i)),
         tget idx (fp_task_mask fp_demo_detect
                     (merge_task demo_preds demo_tv i))
       with
       | Some x, Some y =>
           Some (Fp.float32
                   (Fp.add64
                      (Fp.add64 Fp.zero (Fp.mul64 (Fp.beta fp_demo_self) x))
                      (Fp.mul64 (Fp.sub64 Fp.one (Fp.beta fp_demo_self)) y)))
       | _, _ => None
       end) /\
    Permutation (split_order (rev (processes r)))
                (seq 0 (length demo_preds)) /\
    Permutation (merge_order (rev (processes r)))
                (seq 0 (length demo_preds)) /\
    Fp.Splits stats =
      sum64 (map (fun i =>
                    Fp.div64
                      (Fp.of_int (fp_task_count fp_demo_detect
                                    (split_task demo_preds demo_tv i))) n)
                 (split_order (rev (processes r)))) /\
    Fp.Merges stats =
      sum64 (map (fun i =>
                    Fp.div64
                      (Fp.of_int (fp_task_count fp_demo_detect
                                    (merge_task demo_preds demo_tv i))) n)
                 (merge_order (rev (processes r)))).
Proof.
  exact (get_critical_masks_combination fp_demo_self fp_demo_batch_ok
           rev_any_order).
Defined.

(** The order of completion is part of the result: with the split counts
    1, 2 and 3 in a batch of ten, [Splits] is 0.6000000000000001 when the
    futures complete in the order of submission and 0.6 when they complete
    in the opposite order. *)
Example splits_depend_on_completion_order :
  let preds := repeat (volume [1; 1; 1] (fun _ => 100%Z)) 10 in
  exists masks stats masks' stats',
    outcome (Fp.get_critical_masks detect_label (fun l => l) fp_demo_self
               preds numbered_targets) = Ok (masks, stats) /\
    outcome (Fp.get_critical_masks detect_label (@rev task) fp_demo_self
               preds numbered_targets) = Ok (masks', stats') /\
    masks = masks' /\
    Fp.Splits stats = S754_finite false 5404319552844596 (-53) /\
    Fp.Splits stats' = S754_finite false 5404319552844595 (-53).
Proof.
  do 4 eexists. split; [vm_compute; reflexivity|].
  split; [vm_compute; reflexivity|]. repeat split.
Qed.

(** Each result is added into the slot its tag names, so the masks do not
    depend on the order in which the futures complete (the stats do, see
    [splits_depend_on_completion_order]). *)
Lemma fp_masks_any_order
    (detect_critical : tensor Z -> tensor Z -> result (tensor Fp.float * Z))
    (as_completed as_completed' : list task -> list task) (s : Fp.self)
    (preds : list (tensor Z)) (targets : tensor Z) (tv : nat -> tensor Z)
    (split_mask merge_mask : nat -> tensor Fp.float)
    (split_count merge_count : nat -> Z) :
  fp_batch_ok detect_critical preds targets tv split_mask merge_mask
              split_count merge_count ->
  any_order as_completed -> any_order as_completed' ->
  exists masks stats stats',
    outcome (Fp.get_critical_masks detect_critical as_completed s
               preds targets) = Ok (masks, stats) /\
    outcome (Fp.get_critical_masks detect_critical as_completed' s
               preds targets) = Ok (masks, stats').
Proof.
  intros [Hb _ Ht Hs Hm] Hord Hord'.
  assert (Hs' : forall i, i < length preds ->
            detect_critical (tv i) (pred_at preds i)
              = Ok (split_mask i, split_count i) /\
            size (split_mask i) = size (pred_at preds 0) /\
            twf (split_mask i))
    by (intros i Hi; destruct (Hs i Hi) as (? & ? & ? & _); auto).
  assert (Hm' : forall i, i < length preds ->
            detect_critical (pred_at preds i) (tv i)
              = Ok (merge_mask i, merge_count i) /\
            size (merge_mask i) = size (pred_at preds 0) /\
            twf (merge_mask i))
    by (intros i Hi; destruct (Hm i Hi) as (? & ? & ? & _); auto).
  destruct (@fp_get_critical_masks_spec detect_critical as_completed s
              preds targets tv split_mask merge_mask split_count
              merge_count Hb Ht Hs' Hm' Hord)
    as (m1 & st1 & E1 & S1 & W1 & G1 & _).
  destruct (@fp_get_critical_masks_spec detect_critical as_completed' s
              preds targets tv split_mask merge_mask split_count
              merge_count Hb Ht Hs' Hm' Hord')
    as (m2 & st2 & E2 & S2 & W2 & G2 & _).
  exists m1, st1, st2. rewrite E1, E2. cbn [outcome].
  split; [reflexivity|]. do 2 f_equal.
  destruct m1 as [z1 d1], m2 as [z2 d2]. unfold twf in W1, W2.
  unfold tget in G1, G2. cbn [size data] in S1, S2, W1, W2, G1, G2.
  subst z1 z2. f_equal.
  apply (wf_ext _ _ _ W2 W1). intros [|i idx].
  - rewrite (wf_get_none _ [] _ W1), (wf_get_none _ [] _ W2);
      reflexivity.
  - destruct (Nat.ltb_spec i (length preds)) as [Hi|Hi].
    + rewrite (G1 i idx Hi), (G2 i idx Hi). reflexivity.
    + assert (R : in_range (i :: idx)
                    (length preds :: size (pred_at preds 0)) = false).
      { cbn [in_range]. destruct (Nat.ltb_spec i (length preds)); [lia|].
        reflexivity. }
      rewrite (wf_get_none _ _ _ W1 R), (wf_get_none _ _ _ W2 R).
      reflexivity.
Qed.

(** ** The reference volume of the analyses *)

Lemma tget_tsub {A} (t x : tensor A) (i : nat) :
  tsub i t = Ok x -> forall idx, tget idx x = tget (i :: idx) t.
Proof.
  unfold tsub, sub, tget. destruct (size t) as [|n sh]; [discriminate|].
  destruct (i <? n); [|discriminate].
  destruct (data t) as [a|l]; cbn [rbind]; [discriminate|].
  destruct (nth_error l i) as [d|] eqn:E; cbn [rbind]; [|discriminate].
  intros [= <-] idx. cbn [data get]. rewrite E. reflexivity.
Qed.

Lemma target_volume_plane (targets : tensor Z) (b c : nat)
    (shp : list nat) (i : nat) :
  size targets = b :: S c :: shp -> twf targets -> i < b ->
  exists target_i plane_i,
    tsub i targets = Ok target_i /\ tsub 0 target_i = Ok plane_i /\
    SuperVoxelAffinity.target_volume targets i = Ok plane_i /\
    size target_i = S c :: shp /\ size plane_i = shp /\
    (forall idx, tget idx target_i = tget (i :: idx) targets) /\
    (forall idx, tget idx plane_i = tget (i :: 0 :: idx) targets).
Proof.
  intros Hs Hw Hi.
  destruct (@tsub_ok Z targets _ _ i Hs Hw Hi) as (x & Ex & Sx & Wx).
  destruct (@tsub_ok Z x _ _ 0 Sx Wx (Nat.lt_0_succ c))
    as (y & Ey & Sy & _).
  exists x, y. unfold SuperVoxelAffinity.target_volume.
  rewrite Ex. cbn [rbind]. repeat split; auto.
  - apply (tget_tsub _ _ Ex).
  - intros idx. rewrite (tget_tsub _ _ Ey), (tget_tsub _ _ Ex).
    reflexivity.
Qed.

(** C3.  For every example [i] exactly two futures are submitted, tagged
    [(i, -1)] and [(i, 1)]; their workers call the detector on (reference,
    prediction [i]) and on (prediction [i], reference).  The reference is
    [targets[i, 0, ...]]: entry 0 of target [i] along its first axis, an
    array with one axis fewer than the target volume [targets[i]].  On
    targets of the documented shape (batch_size, height, width, depth)
    the detector is therefore handed the plane at height 0, not the
    volume that the specification and the docstrings name. *)
Theorem get_critical_masks_dispatch
    (detect_critical : tensor Z -> tensor Z -> result (tensor Fp.float * Z))
    (as_completed : list task -> list task) (s : Fp.self)
    (preds : list (tensor Z)) (targets : tensor Z)
    (b c : nat) (shp : list nat) :
  0 < length preds -> length preds <= b ->
  size targets = b :: S c :: shp -> twf targets ->
  let r := Fp.get_critical_masks detect_critical as_completed s
             preds targets in
  length (processes r) = 2 * length preds /\
  forall i, i < length preds ->
    exists target_i plane_i,
      tsub i targets = Ok target_i /\
      size target_i = S c :: shp /\
      (forall idx, tget idx target_i = tget (i :: idx) targets) /\
      size plane_i = shp /\
      (forall idx, tget idx plane_i = tget (i :: 0 :: idx) targets) /\
      plane_i <> target_i /\
      filter (fun p => t_process_id p =? i) (processes r) =
        [mkTask plane_i (pred_at preds i) i (-1);
         mkTask (pred_at preds i) plane_i i 1] /\
      Fp.process_result detect_critical
        (mkTask plane_i (pred_at preds i) i (-1)) =
        ('(mask, n_criticals) <- detect_critical plane_i (pred_at preds i) ;;
         Ok (i, mask, n_criticals, (-1)%Z)) /\
      Fp.process_result detect_critical
        (mkTask (pred_at preds i) plane_i i 1) =
        ('(mask, n_criticals) <- detect_critical (pred_at preds i) plane_i ;;
         Ok (i, mask, n_criticals, 1%Z)).
Proof.
  intros Hb Hle Hs Hw r.
  assert (Ht : forall i, i < length preds ->
            SuperVoxelAffinity.target_volume targets i
              = Ok (target_at targets i)).
  { intros i Hi.
    destruct (@target_volume_plane targets b c shp i Hs Hw)
      as (x & y & _ & _ & E & _); [lia|].
    unfold target_at. rewrite E. reflexivity. }
  assert (Hp : processes r
               = flat_map (analyses preds (target_at targets))
                          (seq 0 (length preds))).
  { subst r. unfold Fp.get_critical_masks.
    rewrite (py_index_ok preds (mkTensor [] (Leaf 0%Z)) Hb).
    rewrite (submit_loop_spec preds targets (target_at targets)
               (seq 0 (length preds)) [])
      by (intros i Hi; apply in_seq in Hi; split; [lia|];
          apply Ht; lia).
    reflexivity. }
  rewrite Hp. split.
  - rewrite length_analyses, length_seq. reflexivity.
  - intros i Hi.
    destruct (@target_volume_plane targets b c shp i Hs Hw)
      as (x & y & Ex & Ey & E & Sx & Sy & Gx & Gy); [lia|].
    exists x, y.
    assert (Ea : target_at targets i = y)
      by (unfold target_at; rewrite E; reflexivity).
    repeat split; auto.
    + intros ->. rewrite Sx in Sy.
      apply (f_equal (@length nat)) in Sy. simpl in Sy. lia.
    + rewrite <- Ea.
      apply filter_analyses; [apply seq_NoDup | apply in_seq; lia].
Qed.

Lemma get_critical_masks_dispatch_witness :
  let r := Fp.get_critical_masks fp_demo_detect (@rev task) fp_demo_self
             documented_preds documented_targets in
  length (processes r) = 2 * length documented_preds /\
  forall i, i < length documented_preds ->
    exists target_i plane_i,
      tsub i documented_targets = Ok target_i /\
      size target_i = [2; 2; 2] /\
      (forall idx, tget idx target_i = tget (i :: idx) documented_targets) /\
      size plane_i = [2; 2] /\
      (forall idx,
         tget idx plane_i = tget (i :: 0 :: idx) documented_targets) /\
      plane_i <> target_i /\
      filter (fun p => t_process_id p =? i) (processes r) =
        [mkTask plane_i (pred_at documented_preds i) i (-1);
         mkTask (pred_at documented_preds i) plane_i i 1] /\
      Fp.process_result fp_demo_detect
        (mkTask plane_i (pred_at documented_preds i) i (-1)) =
        ('(mask, n_criticals) <-
            fp_demo_detect plane_i (pred_at documented_preds i) ;;
         Ok (i, mask, n_criticals, (-1)%Z)) /\
      Fp.process_result fp_demo_detect
        (mkTask (pred_at documented_preds i) plane_i i 1) =
        ('(mask, n_criticals) <-
            fp_demo_detect (pred_at documented_preds i) plane_i ;;
         Ok (i, mask, n_criticals, 1%Z)).
Proof.
  apply (@get_critical_masks_dispatch fp_demo_detect (@rev task)
           fp_demo_self documented_preds documented_targets 2 1 [2; 2]).
  - simpl. lia.
  - simpl. lia.
  - reflexivity.
  - unfold twf. simpl. repeat constructor.
Defined.

(** The four futures of that batch, by tag and by the sizes of the two
    arguments of the detector: the target argument is a plane. *)
Example dispatch_on_documented_shape :
  map (fun p => (t_process_id p, t_critical_type p,
                 size (t_target p), size (t_pred p)))
      (processes (Fp.get_critical_masks fp_demo_detect (@rev task)
                    fp_demo_self documented_preds documented_targets))
  = [(0, (-1)%Z, [2; 2], [2; 2; 2]); (0, 1%Z, [2; 2; 2], [2; 2]);
     (1, (-1)%Z, [2; 2], [2; 2; 2]); (1, 1%Z, [2; 2; 2], [2; 2])].
Proof. reflexivity. Qed.

(** * Further properties of the code *)

(** ** binarize *)

Lemma map_nd_map_nd {A B C} (f : A -> B) (g : B -> C) :
  forall d : nd A, map_nd g (map_nd f d) = map_nd (fun x => g (f x)) d.
Proof.
  induction d as [a|l IH] using nd_induction; simpl; [reflexivity|].
  f_equal. rewrite map_map. induction IH as [|x l Hx _ IHl]; simpl;
    [reflexivity|]. rewrite Hx, IHl. reflexivity.
Qed.

Lemma map_nd_ext {A B} (f g : A -> B) :
  (forall x, f x = g x) -> forall d : nd A, map_nd f d = map_nd g d.
Proof.
  intros Hfg. induction d as [a|l IH] using nd_induction; simpl.
  - rewrite Hfg. reflexivity.
  - f_equal. induction IH as [|x l Hx _ IHl]; simpl; [reflexivity|].
    rewrite Hx, IHl. reflexivity.
Qed.




(** The conversion of the threshold matters: 0.99999999 is below 1 as a
    Python float and is 1 as a float32, so that an entry 2 is first set to
    1 and then to 0; and an entry that is the float32 nearest to 0.3 is
    not above the threshold 0.3. *)
Example binarize_rounds_threshold :
  let s := Fp.mkSelf (fp_literal 1 4) (fp_literal 99999999 100000000) in
  let two := mkTensor [1] (Node [Leaf (Fp.float32 (Fp.of_int 2))]) in
  SFltb (Fp.threshold s) Fp.one = true /\
  Fp.binarize s two = mkTensor [1] (Node [Leaf (Fp.float32 Fp.one)]) /\
  Fp.binarize s (Fp.binarize s two) = mkTensor [1] (Node [Leaf Fp.zero]) /\
  Fp.binarize (Fp.mkSelf (fp_literal 1 4) (fp_literal 3 10))
    (mkTensor [1] (Node [Leaf (Fp.float32 (fp_literal 3 10))]))
  = mkTensor [1] (Node [Leaf Fp.zero]).
Proof. vm_compute. auto. Qed.

(** ** get_aff, voxel by voxel *)

(** X2.  For an offset that fits, entry [(i, j, k)] of the affinity map compares
    the labels at [(i, j, k) + offset1] and at [(i, j, k) + offset2] of the
    volume: it is 1 when they are equal and not background, and 0
    otherwise; in particular it is 0 as soon as either of the two voxels
    is background.  Every entry of the map is 0 or 1. *)
Theorem get_aff_voxel {A : Type} `{DtypeLaws A} (L : tensor A)
    (lead : list nat) (s0 s1 s2 : nat) (e0 e1 e2 : Z) :
  size L = lead ++ [s0; s1; s2] ->
  (Z.abs e0 <= Z.of_nat s0)%Z ->
  (Z.abs e1 <= Z.of_nat s1)%Z ->
  (Z.abs e2 <= Z.of_nat s2)%Z ->
  exists aff,
    get_aff L [e0; e1; e2] = Ok aff /\
    (forall idx v, tget idx aff = Some v -> v = d_zero \/ v = d_one) /\
    forall pre i j k a b,
      length pre = length lead ->
      i < s0 - Z.abs_nat e0 -> j < s1 - Z.abs_nat e1 ->
      k < s2 - Z.abs_nat e2 ->
      tget (pre ++ [offset1 e0 + i; offset1 e1 + j; offset1 e2 + k]) L
        = Some a ->
      tget (pre ++ [offset2 e0 + i; offset2 e1 + j; offset2 e2 + k]) L
        = Some b ->
      tget (pre ++ [i; j; k]) aff
        = Some (of_bool (d_eqb a b && negb (d_eqb a d_zero))) /\
      (d_eqb a d_zero = true \/ d_eqb b d_zero = true ->
       tget (pre ++ [i; j; k]) aff = Some d_zero).
Proof.
  intros Hs Hf0 Hf1 Hf2.
  destruct (get_pair_fits L lead s0 s1 s2 e0 e1 e2 Hs Hf0 Hf1 Hf2)
    as (sub_a & sub_b & Hp & [Sa Ga] & [Sb Gb]).
  destruct (get_pair_fits_sizes L lead s0 s1 s2 e0 e1 e2 Hs Hf0 Hf1 Hf2 Hp)
    as [_ Hab].
  exists (mkTensor (size sub_a) (aff_data (data sub_a) (data sub_b))).
  split; [apply (get_aff_same_size L [e0; e1; e2] Hp); auto|].
  split.
  - intros idx v. unfold tget, aff_data. cbn [data].
    rewrite get_map_nd.
    destruct (get idx _) as [[|]|]; simpl; intros [= <-]; auto.
  - intros pre i j k a b Hl Hi Hj Hk Ea Eb.
    destruct (fit_offsets s0 e0 Hf0) as (_ & _ & _ & _ & _ & _ & E0 & _).
    destruct (fit_offsets s1 e1 Hf1) as (_ & _ & _ & _ & _ & _ & E1 & _).
    destruct (fit_offsets s2 e2 Hf2) as (_ & _ & _ & _ & _ & _ & E2 & _).
    assert (Hin_a : (i <? s0 - offset2 e0 - offset1 e0)
                    && (j <? s1 - offset2 e1 - offset1 e1)
                    && (k <? s2 - offset2 e2 - offset1 e2) = true).
    { rewrite !andb_true_iff, !Nat.ltb_lt. lia. }
    assert (Hin_b : (i <? s0 - offset1 e0 - offset2 e0)
                    && (j <? s1 - offset1 e1 - offset2 e1)
                    && (k <? s2 - offset1 e2 - offset2 e2) = true).
    { rewrite !andb_true_iff, !Nat.ltb_lt. lia. }
    assert (Ta : tget (pre ++ [i; j; k]) sub_a = Some a)
      by (rewrite (Ga pre i j k Hl), Hin_a; exact Ea).
    assert (Tb : tget (pre ++ [i; j; k]) sub_b = Some b)
      by (rewrite (Gb pre i j k Hl), Hin_b; exact Eb).
    assert (Tv : tget (pre ++ [i; j; k])
                   (mkTensor (size sub_a)
                      (aff_data (data sub_a) (data sub_b)))
                 = Some (of_bool (d_eqb a b && negb (d_eqb a d_zero)))).
    { unfold tget in *. cbn [data]. rewrite get_aff_data, Ta, Tb.
      reflexivity. }
    split; [exact Tv|]. intros Hz. rewrite Tv. f_equal.
    destruct Hz as [Hz|Hz].
    + rewrite Hz, andb_false_r. reflexivity.
    + destruct (d_eqb a b) eqn:Eab; [|reflexivity].
      rewrite (d_eqb_zero _ _ Eab), Hz. reflexivity.
Qed.

Lemma get_aff_voxel_witness :
  exists aff,
    get_aff (volume [3; 3; 3] (fun idx => (distinct_labels idx mod 2)%Z))
            [1; -2; 0]%Z = Ok aff /\
    (forall idx v, tget idx aff = Some v -> v = d_zero \/ v = d_one) /\
    forall pre i j k a b,
      length pre = length (@nil nat) ->
      i < 3 - Z.abs_nat 1 -> j < 3 - Z.abs_nat (-2) ->
      k < 3 - Z.abs_nat 0 ->
      tget (pre ++ [offset1 1 + i; offset1 (-2) + j; offset1 0 + k])
           (volume [3; 3; 3] (fun idx => (distinct_labels idx mod 2)%Z))
        = Some a ->
      tget (pre ++ [offset2 1 + i; offset2 (-2) + j; offset2 0 + k])
           (volume [3; 3; 3] (fun idx => (distinct_labels idx mod 2)%Z))
        = Some b ->
      tget (pre ++ [i; j; k]) aff
        = Some (of_bool (d_eqb a b && negb (d_eqb a d_zero))) /\
      (d_eqb a d_zero = true \/ d_eqb b d_zero = true ->
       tget (pre ++ [i; j; k]) aff = Some d_zero).
Proof.
  apply (get_aff_voxel
           (volume [3; 3; 3] (fun idx => (distinct_labels idx mod 2)%Z))
           [] 3 3 3 1 (-2) 0); [reflexivity | simpl; lia ..].
Defined.

(** ** The zero offset *)

Lemma map_lead_cut_full {A} (n : nat) (post : list nat) :
  forall (pre : list nat) (d : nd A),
    wf (pre ++ n :: post) d ->
    map_lead (length pre) (cut 0 n) d = d.
Proof.
  induction pre as [|m pre IH]; intros [a|l] Hw; simpl in *;
    try contradiction; destruct Hw as [Hl Hf]; f_equal.
  - rewrite Nat.sub_0_r. apply firstn_all2. lia.
  - rewrite <- (map_id l) at 2. apply map_ext_in. intros x Hx.
    apply IH. rewrite Forall_forall in Hf. apply Hf, Hx.
Qed.

Lemma slice_axis_full {A} (t : tensor A) (pre post : list nat) (n : nat) :
  size t = pre ++ n :: post -> twf t ->
  slice_axis (length pre) 0 (Z.of_nat n) t = t.
Proof.
  intros Hs Hw. destruct t as [sz d]. unfold twf in Hw.
  cbn [size data] in *. subst sz. unfold slice_axis. cbn [size data].
  rewrite nth_middle, firstn_middle, skipn_middle.
  rewrite !py_bound_inside by lia.
  rewrite Nat2Z.id. change (Z.to_nat 0) with 0.
  rewrite Nat.sub_0_r, (map_lead_cut_full n post pre d Hw). reflexivity.
Qed.

Lemma slice3_full {A} (t : tensor A) (lead : list nat) (s0 s1 s2 : nat) :
  size t = lead ++ [s0; s1; s2] -> twf t ->
  slice3 t 0 (Z.of_nat s0) 0 (Z.of_nat s1) 0 (Z.of_nat s2) = t.
Proof.
  intros Hs Hw. unfold slice3. rewrite (rank_lead t lead s0 s1 s2 Hs).
  rewrite (slice_axis_full t lead [s1; s2] s0 Hs Hw).
  assert (Hs1 : size t = (lead ++ [s0]) ++ s1 :: [s2])
    by (rewrite <- app_assoc; exact Hs).
  pose proof (slice_axis_full t (lead ++ [s0]) [s2] s1 Hs1 Hw) as E1.
  rewrite length_app in E1. cbn [length] in E1. rewrite E1.
  assert (Hs2 : size t = (lead ++ [s0; s1]) ++ s2 :: [])
    by (rewrite <- app_assoc; exact Hs).
  pose proof (slice_axis_full t (lead ++ [s0; s1]) [] s2 Hs2 Hw) as E2.
  rewrite length_app in E2. cbn [length] in E2. exact E2.
Qed.

Lemma zip_nd_map_map {A B C D} (f : B -> C -> D) (g : A -> B)
    (h : A -> C) :
  forall d : nd A,
    zip_nd f (map_nd g d) (map_nd h d) = map_nd (fun a => f (g a) (h a)) d.
Proof.
  induction d as [a|l IH] using nd_induction; simpl; [reflexivity|].
  f_equal. induction IH as [|x l Hx _ IHl]; simpl; [reflexivity|].
  rewrite Hx, IHl. reflexivity.
Qed.

Lemma map_nd_id {A} : forall d : nd A, map_nd (fun a => a) d = d.
Proof.
  induction d as [a|l IH] using nd_induction; simpl; [reflexivity|].
  f_equal. induction IH as [|x l Hx _ IHl]; simpl; [reflexivity|].
  rewrite Hx, IHl. reflexivity.
Qed.

(** X3.  With the offset (0, 0, 0) both windows are the volume itself, and the
    affinity map is the foreground indicator of the volume, provided the
    volume is rectangular with at least three axes and [==] holds between
    an element and itself. *)
Theorem get_pair_zero_offset {A : Type} `{Dtype A} (L : tensor A) :
  3 <= rank L -> twf L -> (forall a : A, d_eqb a a = true) ->
  get_pair L [0; 0; 0]%Z = Ok (L, L) /\
  get_aff L [0; 0; 0]%Z
    = Ok (tmap (fun a => of_bool (negb (d_eqb a d_zero))) L).
Proof.
  intros Hr Hw Hrefl.
  destruct (split_last3 (size L) Hr) as (lead & s0 & s1 & s2 & Hs).
  assert (Hp : get_pair L [0; 0; 0]%Z = Ok (L, L)).
  { rewrite (get_pair_lead L lead s0 s1 s2 0 0 0 [] Hs).
    change (- 0)%Z with 0%Z. change (Z.max 0 0) with 0%Z.
    rewrite !Z.sub_0_r, (slice3_full L lead s0 s1 s2 Hs Hw). reflexivity. }
  split; [exact Hp|].
  rewrite (get_aff_same_size L [0; 0; 0]%Z Hp eq_refl).
  unfold tmap, aff_data. do 2 f_equal.
  rewrite <- (map_nd_id (data L)) at 1 2.
  rewrite zip_nd_map_map, zip_nd_map_map, map_nd_map_nd.
  apply map_nd_ext. intros a. rewrite Hrefl. reflexivity.
Qed.

Lemma get_pair_zero_offset_witness :
  get_pair (volume [2; 3; 2] (fun idx => (distinct_labels idx mod 2)%Z))
           [0; 0; 0]%Z
    = Ok (volume [2; 3; 2] (fun idx => (distinct_labels idx mod 2)%Z),
          volume [2; 3; 2] (fun idx => (distinct_labels idx mod 2)%Z)) /\
  get_aff (volume [2; 3; 2] (fun idx => (distinct_labels idx mod 2)%Z))
          [0; 0; 0]%Z
    = Ok (tmap (fun a => of_bool (negb (d_eqb a d_zero)))
            (volume [2; 3; 2] (fun idx => (distinct_labels idx mod 2)%Z))).
Proof.
  apply (get_pair_zero_offset
           (volume [2; 3; 2] (fun idx => (distinct_labels idx mod 2)%Z))).
  - unfold rank. simpl. lia.
  - unfold twf. simpl. repeat constructor.
  - intros a. apply Z.eqb_refl.
Defined.

(** ** The components of an edge *)

(** X4.  [get_pair] reads exactly the first three components of the edge: with
    fewer it raises IndexError whatever the volume, and any further
    component of an edge of 64-bit components is ignored. *)
Theorem get_pair_edge_components {A : Type} (labels : tensor A)
    (e0 e1 e2 : Z) (rest : list Z) :
  get_pair labels [] = Err IndexError /\
  get_pair labels [e0] = Err IndexError /\
  get_pair labels [e0; e1] = Err IndexError /\
  (forallb int64_offset (e0 :: e1 :: e2 :: rest) = true ->
   get_pair labels (e0 :: e1 :: e2 :: rest) = get_pair labels [e0; e1; e2]).
Proof.
  unfold get_pair, window.
  destruct (last3 (size labels)) as [|s0 [|s1 [|s2 sh]]];
    repeat split; reflexivity.
Qed.

Lemma get_pair_edge_components_witness :
  get_pair (volume [3; 3; 3] distinct_labels) [] = Err IndexError /\
  get_pair (volume [3; 3; 3] distinct_labels) [1%Z] = Err IndexError /\
  get_pair (volume [3; 3; 3] distinct_labels) [1; -2]%Z = Err IndexError /\
  get_pair (volume [3; 3; 3] distinct_labels) [1; -2; 0; 7]%Z
    = get_pair (volume [3; 3; 3] distinct_labels) [1; -2; 0]%Z.
Proof.
  destruct (get_pair_edge_components (volume [3; 3; 3] distinct_labels)
              1 (-2) 0 [7%Z]) as (H0 & H1 & H2 & H3).
  split; [exact H0|]. split; [exact H1|]. split; [exact H2|].
  apply H3. reflexivity.
Defined.

Lemma window_err {A} (t : tensor A) (shape : list nat) (lo hi : list Z)
    (e : exn) :
  window t shape lo hi = Err e -> e = IndexError.
Proof.
  unfold window, py_index.
  repeat (destruct (nth_error _ _); cbn [rbind];
          [|intros [= <-]; reflexivity]).
  discriminate.
Qed.

(** X5.  For an edge of 64-bit components, the second array of [get_pair] is
    the first array for the opposite edge, and conversely; when one call
    raises so does the other, with the same exception. *)
Theorem get_pair_neg {A : Type} (labels : tensor A) (edge : list Z) :
  forallb int64_offset edge = true ->
  get_pair labels (np_neg edge) =
  match get_pair labels edge with
  | Ok (labels1, labels2) => Ok (labels2, labels1)
  | Err e => Err e
  end.
Proof.
  (* the bound keeps the edge where numpy computes with these integers *)
  intros _. unfold get_pair.
  assert (E : np_neg (np_neg edge) = edge).
  { unfold np_neg. rewrite map_map. rewrite <- (map_id edge) at 2.
    apply map_ext. intros z. apply Z.opp_involutive. }
  rewrite E.
  destruct (window labels _ (np_maximum0 edge) _) as [w1|x1] eqn:E1,
           (window labels _ (np_maximum0 (np_neg edge)) _) as [w2|x2] eqn:E2;
    cbn [rbind]; try reflexivity.
  rewrite (window_err _ _ _ _ E1), (window_err _ _ _ _ E2). reflexivity.
Qed.

Lemma get_pair_neg_witness :
  get_pair (volume [3; 3; 3] distinct_labels) (np_neg [1; -2; 0]%Z) =
  match get_pair (volume [3; 3; 3] distinct_labels) [1; -2; 0]%Z with
  | Ok (labels1, labels2) => Ok (labels2, labels1)
  | Err e => Err e
  end.
Proof.
  apply (get_pair_neg (volume [3; 3; 3] distinct_labels) [1; -2; 0]%Z).
  reflexivity.
Defined.

(** ** Windows stay inside the volume *)

(** X6.  Whatever the offset, the arrays [get_pair] returns keep the leading
    axes of the volume and are, on each of the three trailing axes, no
    longer than the volume. *)
Theorem get_pair_within {A : Type} (labels sub_a sub_b : tensor A)
    (edge : list Z) :
  get_pair labels edge = Ok (sub_a, sub_b) ->
  exists lead s0 s1 s2 a0 a1 a2 b0 b1 b2,
    size labels = lead ++ [s0; s1; s2] /\
    size sub_a = lead ++ [a0; a1; a2] /\
    size sub_b = lead ++ [b0; b1; b2] /\
    a0 <= s0 /\ a1 <= s1 /\ a2 <= s2 /\
    b0 <= s0 /\ b1 <= s1 /\ b2 <= s2.
Proof.
  intros Hp.
  destruct (Nat.lt_ge_cases (rank labels) 3) as [Hr|Hr];
    [rewrite (get_pair_low_rank labels edge Hr) in Hp; discriminate|].
  destruct (split_last3 (size labels) Hr) as (lead & s0 & s1 & s2 & Hs).
  destruct edge as [|e0 [|e1 [|e2 rest]]];
    try (unfold get_pair, window in Hp;
         rewrite (last3_lead labels lead s0 s1 s2 Hs) in Hp;
         discriminate).
  rewrite (get_pair_lead labels lead s0 s1 s2 e0 e1 e2 rest Hs) in Hp.
  injection Hp as <- <-.
  exists lead, s0, s1, s2. do 6 eexists.
  split; [exact Hs|].
  split; [apply (size_slice3 labels lead s0 s1 s2 Hs)|].
  split; [apply (size_slice3 labels lead s0 s1 s2 Hs)|].
  repeat split;
    match goal with
    | |- py_bound ?s ?b - py_bound ?s ?a <= ?s =>
        pose proof (py_bound_le s b); lia
    end.
Qed.

Lemma get_pair_within_witness :
  exists lead s0 s1 s2 a0 a1 a2 b0 b1 b2,
    size (volume [4; 1; 1] distinct_labels) = lead ++ [s0; s1; s2] /\
    size (mkTensor [0; 1; 1] (@Node Z [])) = lead ++ [a0; a1; a2] /\
    size (mkTensor [3; 1; 1]
            (Node [Node [Node [Leaf 1000%Z]]; Node [Node [Leaf 1100%Z]];
                   Node [Node [Leaf 1200%Z]]]))
      = lead ++ [b0; b1; b2] /\
    a0 <= s0 /\ a1 <= s1 /\ a2 <= s2 /\
    b0 <= s0 /\ b1 <= s1 /\ b2 <= s2.
Proof.
  apply (get_pair_within (volume [4; 1; 1] distinct_labels)
           [5; 0; 0]%Z).
  reflexivity.
Defined.

(** ** An offset longer than its axis *)

Lemma join_shapes_axis (x y : nat) (post : list nat) :
  forall lead : list nat,
    join_shapes (lead ++ x :: post) (lead ++ y :: post) =
    if x =? y then Some (lead ++ x :: post)
    else if x =? 1 then Some (lead ++ y :: post)
    else if y =? 1 then Some (lead ++ x :: post)
    else None.
Proof.
  induction lead as [|a lead IH].
  - simpl. rewrite join_shapes_same. reflexivity.
  - simpl. rewrite IH, Nat.eqb_refl.
    destruct (x =? y); [reflexivity|].
    destruct (x =? 1); [reflexivity|].
    destruct (y =? 1); reflexivity.
Qed.

Lemma broadcast_shapes_axis (x y : nat) (lead post : list nat) :
  broadcast_shapes (lead ++ x :: post) (lead ++ y :: post) =
  if x =? y then Some (lead ++ x :: post)
  else if x =? 1 then Some (lead ++ y :: post)
  else if y =? 1 then Some (lead ++ x :: post)
  else None.
Proof.
  unfold broadcast_shapes.
  assert (L : length (lead ++ y :: post) = length (lead ++ x :: post))
    by (rewrite !length_app; reflexivity).
  rewrite L, Nat.max_id, pad_shape_same.
  rewrite <- L, pad_shape_same. apply join_shapes_axis.
Qed.

Lemma py_bound_beyond (s : nat) (e : Z) :
  (Z.of_nat s < e)%Z ->
  py_bound s (Z.max 0 e) = s /\
  py_bound s (Z.of_nat s - Z.max 0 (- e)) = s /\
  py_bound s (Z.max 0 (- e)) = 0 /\
  py_bound s (Z.of_nat s - Z.max 0 e) = 2 * s - Z.to_nat e.
Proof.
  intros He. unfold py_bound.
  repeat split;
    match goal with
    | |- context [(?x <? 0)%Z] => destruct (Z.ltb_spec x 0); lia
    end.
Qed.

Lemma py_bound_fit (s : nat) (e : Z) :
  (Z.abs e <= Z.of_nat s)%Z ->
  py_bound s (Z.of_nat s - Z.max 0 (- e)) - py_bound s (Z.max 0 e)
    = s - Z.abs_nat e /\
  py_bound s (Z.of_nat s - Z.max 0 e) - py_bound s (Z.max 0 (- e))
    = s - Z.abs_nat e.
Proof.
  intros He. unfold py_bound.
  split;
    repeat match goal with
           | |- context [(?x <? 0)%Z] => destruct (Z.ltb_spec x 0)
           end; lia.
Qed.

(** X7.  When the first of the three components of the offset is longer than
    its axis, and a 64-bit integer (and the other two fit), the first
    window is empty along
    that axis and the second has [2 * s0 - e0] entries there, cut off at
    0.  So [get_aff] raises the size mismatch when [2 * s0 - e0 >= 2], and
    otherwise returns an empty affinity map. *)
Theorem get_aff_beyond_axis {A : Type} `{Dtype A} (L : tensor A)
    (lead : list nat) (s0 s1 s2 : nat) (e0 e1 e2 : Z) :
  size L = lead ++ [s0; s1; s2] ->
  (Z.of_nat s0 < e0)%Z ->
  (e0 < 2 ^ 63)%Z ->
  (Z.abs e1 <= Z.of_nat s1)%Z ->
  (Z.abs e2 <= Z.of_nat s2)%Z ->
  (exists sub_a sub_b,
     get_pair L [e0; e1; e2] = Ok (sub_a, sub_b) /\
     size sub_a = lead ++ [0; s1 - Z.abs_nat e1; s2 - Z.abs_nat e2] /\
     size sub_b = lead ++ [2 * s0 - Z.to_nat e0;
                           s1 - Z.abs_nat e1; s2 - Z.abs_nat e2]) /\
  if 2 <=? 2 * s0 - Z.to_nat e0
  then get_aff L [e0; e1; e2] = Err RuntimeError
  else exists aff,
         get_aff L [e0; e1; e2] = Ok aff /\
         size aff = lead ++ [0; s1 - Z.abs_nat e1; s2 - Z.abs_nat e2].
Proof.
  intros Hs He0 _ Hf1 Hf2.
  pose proof (get_pair_lead L lead s0 s1 s2 e0 e1 e2 [] Hs) as Hp.
  set (o1 := slice3 L (Z.max 0 e0) _ _ _ _ _) in Hp.
  set (o2 := slice3 L (Z.max 0 (- e0)) _ _ _ _ _) in Hp.
  destruct (@py_bound_beyond s0 e0 He0) as (B1 & B2 & B3 & B4).
  destruct (@py_bound_fit s1 e1 Hf1) as [F1a F1b].
  destruct (@py_bound_fit s2 e2 Hf2) as [F2a F2b].
  assert (S1 : size o1 = lead ++ [0; s1 - Z.abs_nat e1; s2 - Z.abs_nat e2]).
  { subst o1. rewrite (size_slice3 L lead s0 s1 s2 Hs).
    rewrite B1, B2, F1a, F2a, Nat.sub_diag. reflexivity. }
  assert (S2 : size o2 = lead ++ [2 * s0 - Z.to_nat e0;
                                  s1 - Z.abs_nat e1; s2 - Z.abs_nat e2]).
  { subst o2. rewrite (size_slice3 L lead s0 s1 s2 Hs).
    rewrite B3, B4, F1b, F2b, Nat.sub_0_r. reflexivity. }
  split; [exists o1, o2; auto|].
  set (k := 2 * s0 - Z.to_nat e0) in *.
  assert (Hdone : forall eq12 : tensor bool,
            size eq12 = lead ++ [0; s1 - Z.abs_nat e1; s2 - Z.abs_nat e2] ->
            exists aff,
              (ret <- binop RuntimeError andb eq12
                        (tmap (fun a => negb (d_eqb a d_zero)) o1) ;;
               Ok (tmap of_bool ret)) = Ok aff /\
              size aff = lead ++ [0; s1 - Z.abs_nat e1;
                                  s2 - Z.abs_nat e2]).
  { intros eq12 Se.
    rewrite binop_same by (cbn [size tmap]; rewrite Se, S1; reflexivity).
    cbn [rbind]. eexists. split; [reflexivity|]. exact Se. }
  destruct (Nat.leb_spec 2 k) as [Hk|Hk];
    unfold get_aff; rewrite Hp; cbn [rbind];
    unfold binop at 1; rewrite S1, S2, broadcast_shapes_axis.
  - destruct (Nat.eqb_spec 0 k) as [E|_]; [lia|].
    cbn [Nat.eqb].
    destruct (Nat.eqb_spec k 1) as [E|_]; [lia|].
    reflexivity.
  - destruct (Nat.eqb_spec 0 k) as [E|N0].
    + cbn [rbind]. apply Hdone. reflexivity.
    + cbn [Nat.eqb].
      destruct (Nat.eqb_spec k 1) as [E|N]; [|lia].
      cbn [rbind]. apply Hdone. reflexivity.
Qed.

Lemma get_aff_beyond_axis_witness :
  (exists sub_a sub_b,
     get_pair (volume [4; 1; 1] distinct_labels) [5; 0; 0]%Z
       = Ok (sub_a, sub_b) /\
     size sub_a = [] ++ [0; 1 - Z.abs_nat 0; 1 - Z.abs_nat 0] /\
     size sub_b = [] ++ [2 * 4 - Z.to_nat 5;
                         1 - Z.abs_nat 0; 1 - Z.abs_nat 0]) /\
  if 2 <=? 2 * 4 - Z.to_nat 5
  then get_aff (volume [4; 1; 1] distinct_labels) [5; 0; 0]%Z
       = Err RuntimeError
  else exists aff,
         get_aff (volume [4; 1; 1] distinct_labels) [5; 0; 0]%Z = Ok aff /\
         size aff = [] ++ [0; 1 - Z.abs_nat 0; 1 - Z.abs_nat 0].
Proof.
  apply (@get_aff_beyond_axis Z _ (volume [4; 1; 1] distinct_labels) []
           4 1 1 5 0 0); [reflexivity | simpl; lia ..].
Defined.

(** ** The exceptions of the decoder *)

(** X8.  [Decoder.forward] never returns; which exception a caller sees is
    decided in this order: IndexError for fewer than four axes,
    AssertionError for a channel count other than the number of edges or
    an index out of range, and NameError otherwise. *)
Theorem decoder_forward_error_table {A : Type} (edges : list (list Z))
    (x : tensor A) (i : Z) :
  SuperVoxelAffinity.Decoder.forward edges x i =
  Err (if rank x <? 4 then IndexError
       else if (nth (rank x - 4) (size x) 0 =? length edges)
               && ((0 <=? i)%Z && (i <? Z.of_nat (length edges))%Z)
            then NameError "arr"
            else AssertionError).
Proof.
  unfold SuperVoxelAffinity.Decoder.forward,
    SuperVoxelAffinity.Decoder.size_m4.
  destruct (Nat.ltb_spec (rank x) 4) as [Hr|Hr]; [reflexivity|].
  rewrite (py_index_ok (size x) 0) by (unfold rank in *; lia).
  cbn [rbind].
  destruct (Nat.eqb_spec (nth (rank x - 4) (size x) 0) (length edges))
    as [Hc|Hc]; cbn [assert rbind andb]; [|reflexivity].
  rewrite Hc.
  destruct (Z.ltb_spec i (Z.of_nat (length edges))) as [Hi|Hi],
           (Z.leb_spec 0 i) as [Hj|Hj];
    destruct (Z.geb_spec i 0) as [Hk|Hk]; try lia;
    cbn [assert rbind andb]; try reflexivity.
  rewrite (py_index_ok edges []) by lia. reflexivity.
Qed.

(** ** What makes get_critical_masks raise *)

Lemma tsub_err {A} (i : nat) (t : tensor A) (e : exn) :
  tsub i t = Err e -> e = IndexError.
Proof.
  unfold tsub, sub. destruct (size t) as [|n sh]; [congruence|].
  destruct (i <? n); [|congruence].
  destruct (data t) as [a|l]; cbn [rbind]; [congruence|].
  destruct (nth_error l i); cbn [rbind]; congruence.
Qed.

Lemma iadd_slot_cases (i n : nat) (shp : list nat) (l : list (nd Qc))
    (v : tensor Qc) :
  length l = n -> i < n ->
  (exists l',
     iadd_slot (mkTensor (n :: shp) (Node l)) i v
       = Ok (mkTensor (n :: shp) (Node l')) /\
     length l' = n /\ broadcast_shapes shp (size v) = Some shp) \/
  (iadd_slot (mkTensor (n :: shp) (Node l)) i v = Err ValueError /\
   broadcast_shapes shp (size v) <> Some shp).
Proof.
  intros Hl Hi. unfold iadd_slot, tsub. cbn [size data sub].
  apply Nat.ltb_lt in Hi. rewrite Hi. apply Nat.ltb_lt in Hi.
  destruct (nth_error l i) as [d|] eqn:E;
    [|apply nth_error_None in E; lia].
  cbn [rbind size].
  destruct (broadcast_shapes shp (size v)) as [s'|]; [|right; split; congruence].
  destruct (list_eq_dec Nat.eq_dec s' shp) as [->|N].
  - left. unfold set_slot. cbn [data size]. eexists.
    split; [reflexivity|]. split; [|reflexivity].
    rewrite length_update. exact Hl.
  - right. split; [reflexivity|]. congruence.
Qed.

Section CollectOutcome.
Variable detect_critical : tensor Z -> tensor Z -> result (tensor Qc * Z).
Variable s : SuperVoxelAffinity.self.
Variable n : nat.
Variable shp : list nat.

(** The future returns a mask that can be added into a slot. *)
Let fits_slot (p : task) : Prop :=
  exists m c,
    detect_critical (t_target p) (t_pred p) = Ok (m, c) /\
    broadcast_shapes shp (size m) = Some shp.

(** The future is a cause of exception [e]: its worker raised it, or its
    mask does not broadcast to the slot and [e] is ValueError. *)
Let raises (e : exn) (p : task) : Prop :=
  detect_critical (t_target p) (t_pred p) = Err e \/
  (e = ValueError /\
   exists m c,
     detect_critical (t_target p) (t_pred p) = Ok (m, c) /\
     broadcast_shapes shp (size m) <> Some shp).

Lemma collect_loop_outcome :
  forall (L : list task) (l : list (nd Qc)) (stats : Stats),
    length l = n -> (forall p, In p L -> t_process_id p < n) ->
    match SuperVoxelAffinity.collect_loop detect_critical s n L
            (mkTensor (n :: shp) (Node l)) stats with
    | Ok _ => forall p, In p L -> fits_slot p
    | Err e => exists p, In p L /\ raises e p
    end.
Proof.
  induction L as [|p L IH]; intros l stats Hl Hid.
  - simpl. intros p [].
  - cbn [SuperVoxelAffinity.collect_loop].
    unfold SuperVoxelAffinity.process_result,
      SuperVoxelAffinity.get_critical_mask.
    destruct (detect_critical (t_target p) (t_pred p)) as [[m c]|e] eqn:Ed;
      cbn [rbind];
      [|exists p; split; [left; reflexivity | left; exact Ed]].
    assert (Hi : t_process_id p < n) by (apply Hid; left; reflexivity).
    assert (Hid' : forall q, In q L -> t_process_id q < n)
      by (intros q Hq; apply Hid; right; exact Hq).
    destruct (t_critical_type p =? -1)%Z.
    + destruct (iadd_slot_cases shp l
                  (tmap (Qcmult (SuperVoxelAffinity.beta s)) m) Hl Hi)
        as [(l' & -> & Hl' & Hb)|[-> Hb]]; cbn [rbind].
      * specialize (IH l'
          (mkStats (Splits stats + Qc_of_Z c / Qc_of_nat n)
                   (Merges stats)) Hl' Hid').
        destruct (SuperVoxelAffinity.collect_loop _ _ _ L _ _) as [r|e].
        -- intros q [<-|Hq]; [exists m, c; auto | apply IH, Hq].
        -- destruct IH as (q & Hq & Hr). exists q. split; [right|]; auto.
      * exists p. split; [left; reflexivity|].
        right. split; [reflexivity|]. exists m, c. auto.
    + destruct (iadd_slot_cases shp l
                  (tmap (Qcmult (1 - SuperVoxelAffinity.beta s)) m) Hl Hi)
        as [(l' & -> & Hl' & Hb)|[-> Hb]]; cbn [rbind].
      * specialize (IH l'
          (mkStats (Splits stats)
                   (Merges stats + Qc_of_Z c / Qc_of_nat n)) Hl' Hid').
        destruct (SuperVoxelAffinity.collect_loop _ _ _ L _ _) as [r|e].
        -- intros q [<-|Hq]; [exists m, c; auto | apply IH, Hq].
        -- destruct IH as (q & Hq & Hr). exists q. split; [right|]; auto.
      * exists p. split; [left; reflexivity|].
        right. split; [reflexivity|]. exists m, c. auto.
Qed.
End CollectOutcome.

Lemma get_critical_masks_cases
    (detect_critical : tensor Z -> tensor Z -> result (tensor Qc * Z))
    (as_completed : list task -> list task) (s : SuperVoxelAffinity.self)
    (preds : list (tensor Z)) (targets : tensor Z) (tv : nat -> tensor Z) :
  0 < length preds ->
  (forall i, i < length preds ->
     SuperVoxelAffinity.target_volume targets i = Ok (tv i)) ->
  any_order as_completed ->
  let r := SuperVoxelAffinity.get_critical_masks detect_critical
             as_completed s preds targets in
  processes r = flat_map (analyses preds tv) (seq 0 (length preds)) /\
  match outcome r with
  | Ok _ =>
      forall p, In p (processes r) ->
        mask_fits detect_critical (size (pred_at preds 0)) p
  | Err e =>
      exists p, In p (processes r) /\
        cause detect_critical (size (pred_at preds 0)) e p
  end.
Proof.
  intros Hb Ht Ho r. subst r.
  unfold SuperVoxelAffinity.get_critical_masks.
  rewrite (py_index_ok preds (mkTensor [] (Leaf 0%Z)) Hb).
  fold (pred_at preds 0).
  rewrite (submit_loop_spec preds targets tv (seq 0 (length preds)) [])
    by (intros i Hi; apply in_seq in Hi; split; [lia|]; apply Ht; lia).
  cbn [processes outcome rbind app]. split; [reflexivity|].
  set (submitted := flat_map (analyses preds tv) (seq 0 (length preds))).
  pose proof (Ho submitted) as Hperm.
  pose proof (collect_loop_outcome detect_critical s
                (size (pred_at preds 0)) (as_completed submitted)
                (repeat (zeros (size (pred_at preds 0))) (length preds))
                (mkStats 0 0) (repeat_length _ _)) as Hc.
  cbn [zeros].
  destruct (SuperVoxelAffinity.collect_loop _ _ _ _ _ _) as [[m st]|e];
    cbn [rbind].
  - intros p Hp. apply Hc.
    + intros q Hq. apply (Permutation_in _ Hperm) in Hq.
      apply (analyses_ids preds tv _ _ Hq).
    + apply (Permutation_in _ (Permutation_sym Hperm)). exact Hp.
  - destruct Hc as (p & Hp & Hr).
    + intros q Hq. apply (Permutation_in _ Hperm) in Hq.
      apply (analyses_ids preds tv _ _ Hq).
    + exists p. split; [apply (Permutation_in _ Hperm); exact Hp|].
      exact Hr.
Qed.

(** X9.  [get_critical_masks] returns exactly when every analysis returns a
    mask that broadcasts to the shape of [preds[0]].  When it raises, the
    exception is the one some worker raised, or the ValueError of a mask
    that does not broadcast; by then all futures of the batch have been
    submitted.  This holds for every completion order. *)
Theorem get_critical_masks_outcome
    (detect_critical : tensor Z -> tensor Z -> result (tensor Qc * Z))
    (as_completed : list task -> list task) (s : SuperVoxelAffinity.self)
    (preds : list (tensor Z)) (targets : tensor Z) (tv : nat -> tensor Z) :
  0 < length preds ->
  (forall i, i < length preds ->
     SuperVoxelAffinity.target_volume targets i = Ok (tv i)) ->
  any_order as_completed ->
  let r := SuperVoxelAffinity.get_critical_masks detect_critical
             as_completed s preds targets in
  processes r = flat_map (analyses preds tv) (seq 0 (length preds)) /\
  match outcome r with
  | Ok _ =>
      forall p, In p (processes r) ->
        mask_fits detect_critical (size (pred_at preds 0)) p
  | Err e =>
      exists p, In p (processes r) /\
        cause detect_critical (size (pred_at preds 0)) e p
  end.
Proof. apply get_critical_masks_cases. Qed.

Lemma demo_targets_ok :
  forall i, i < length demo_preds ->
    SuperVoxelAffinity.target_volume demo_targets i = Ok (demo_tv i).
Proof.
  intros [|[|i]] Hi; [reflexivity | reflexivity | simpl in Hi; lia].
Qed.

Lemma get_critical_masks_outcome_witness :
  let r := SuperVoxelAffinity.get_critical_masks demo_detect_raising
             (@rev task) demo_self demo_preds demo_targets in
  processes r
    = flat_map (analyses demo_preds demo_tv) (seq 0 (length demo_preds)) /\
  match outcome r with
  | Ok _ =>
      forall p, In p (processes r) ->
        mask_fits demo_detect_raising (size (pred_at demo_preds 0)) p
  | Err e =>
      exists p, In p (processes r) /\
        cause demo_detect_raising (size (pred_at demo_preds 0)) e p
  end.
Proof.
  apply (get_critical_masks_outcome demo_detect_raising demo_self
           demo_preds demo_targets demo_tv);
    [simpl; lia | exact demo_targets_ok | exact rev_any_order].
Defined.

Lemma run_eta {X} (r : run X) : r = mkRun (processes r) (outcome r).
Proof. destruct r. reflexivity. Qed.

(** X10.  Fail-fast: when the worker of either analysis of some example raises,
    [get_critical_masks] raises as well, whatever the completion order and
    whatever the other analyses return; every future of the batch has been
    submitted, and neither masks nor stats are returned. *)
Theorem get_critical_masks_fail_fast
    (detect_critical : tensor Z -> tensor Z -> result (tensor Qc * Z))
    (as_completed : list task -> list task) (s : SuperVoxelAffinity.self)
    (preds : list (tensor Z)) (targets : tensor Z) (tv : nat -> tensor Z)
    (i : nat) (e0 : exn) :
  0 < length preds ->
  (forall j, j < length preds ->
     SuperVoxelAffinity.target_volume targets j = Ok (tv j)) ->
  any_order as_completed ->
  i < length preds ->
  detect_critical (tv i) (pred_at preds i) = Err e0 \/
  detect_critical (pred_at preds i) (tv i) = Err e0 ->
  exists e,
    SuperVoxelAffinity.get_critical_masks detect_critical as_completed
      s preds targets
    = mkRun (flat_map (analyses preds tv) (seq 0 (length preds))) (Err e).
Proof.
  intros Hb Ht Ho Hi Hfail.
  destruct (get_critical_masks_cases detect_critical s preds targets tv
              Hb Ht Ho) as [Hp Hout].
  rewrite (run_eta (SuperVoxelAffinity.get_critical_masks _ _ _ _ _)).
  rewrite Hp in *.
  destruct (outcome _) as [r|e]; [exfalso | exists e; reflexivity].
  assert (Hin : forall p, In p (analyses preds tv i) ->
                  In p (flat_map (analyses preds tv)
                          (seq 0 (length preds)))).
  { intros p Hq. apply in_flat_map. exists i. split; [|exact Hq].
    apply in_seq. lia. }
  destruct Hfail as [Hf|Hf].
  - destruct (Hout (split_task preds tv i)) as (m & c & E & _);
      [apply Hin; left; reflexivity|].
    cbn in E. congruence.
  - destruct (Hout (merge_task preds tv i)) as (m & c & E & _);
      [apply Hin; right; left; reflexivity|].
    cbn in E. congruence.
Qed.

Lemma get_critical_masks_fail_fast_witness :
  exists e,
    SuperVoxelAffinity.get_critical_masks demo_detect_raising (@rev task)
      demo_self demo_preds demo_targets
    = mkRun (flat_map (analyses demo_preds demo_tv)
               (seq 0 (length demo_preds))) (Err e).
Proof.
  apply (get_critical_masks_fail_fast demo_detect_raising demo_self
           demo_preds demo_targets demo_tv (i := 0) (e0 := RuntimeError));
    [simpl; lia | exact demo_targets_ok | exact rev_any_order
    | simpl; lia | left; reflexivity].
Defined.

(** X11.  When every analysis returns but the mask of one of them does not
    broadcast to the shape of [preds[0]], [get_critical_masks] raises
    ValueError, whatever the completion order. *)
Theorem get_critical_masks_value_error
    (detect_critical : tensor Z -> tensor Z -> result (tensor Qc * Z))
    (as_completed : list task -> list task) (s : SuperVoxelAffinity.self)
    (preds : list (tensor Z)) (targets : tensor Z) (tv : nat -> tensor Z)
    (k : nat) (m : tensor Qc) (c : Z) :
  0 < length preds ->
  (forall j, j < length preds ->
     SuperVoxelAffinity.target_volume targets j = Ok (tv j)) ->
  any_order as_completed ->
  (forall j, j < length preds ->
     (exists mj cj,
        detect_critical (tv j) (pred_at preds j) = Ok (mj, cj)) /\
     (exists mj cj,
        detect_critical (pred_at preds j) (tv j) = Ok (mj, cj))) ->
  k < length preds ->
  detect_critical (tv k) (pred_at preds k) = Ok (m, c) \/
  detect_critical (pred_at preds k) (tv k) = Ok (m, c) ->
  broadcast_shapes (size (pred_at preds 0)) (size m)
    <> Some (size (pred_at preds 0)) ->
  outcome (SuperVoxelAffinity.get_critical_masks detect_critical
             as_completed s preds targets) = Err ValueError.
Proof.
  intros Hb Ht Ho Hall Hk Hbad Hsz.
  destruct (get_critical_masks_cases detect_critical s preds targets tv
              Hb Ht Ho) as [Hp Hout].
  rewrite Hp in Hout.
  assert (Hin : forall p, In p (analyses preds tv k) ->
                  In p (flat_map (analyses preds tv)
                          (seq 0 (length preds)))).
  { intros p Hq. apply in_flat_map. exists k. split; [|exact Hq].
    apply in_seq. lia. }
  destruct (outcome _) as [r|e].
  - exfalso. destruct Hbad as [Hf|Hf].
    + destruct (Hout (split_task preds tv k)) as (m' & c' & E & Hfit);
        [apply Hin; left; reflexivity|].
      cbn in E. rewrite Hf in E. injection E as <- <-. contradiction.
    + destruct (Hout (merge_task preds tv k)) as (m' & c' & E & Hfit);
        [apply Hin; right; left; reflexivity|].
      cbn in E. rewrite Hf in E. injection E as <- <-. contradiction.
  - destruct Hout as (p & Hpin & [Herr|[-> _]]); [exfalso | reflexivity].
    destruct (analyses_ids preds tv _ _ Hpin) as [Hj [Ep|Ep]];
      destruct (Hall _ Hj) as [(ms & cs & Es) (mm & cm & Em)];
      rewrite Ep in Herr; cbn in Herr; congruence.
Qed.

Lemma get_critical_masks_value_error_witness :
  outcome (SuperVoxelAffinity.get_critical_masks demo_detect_misshapen
             (@rev task) demo_self demo_preds demo_targets)
  = Err ValueError.
Proof.
  apply (get_critical_masks_value_error demo_detect_misshapen demo_self
           demo_preds demo_targets demo_tv (k := 0)
           (m := mkTensor [7] (zeros [7])) (c := 0%Z));
    [simpl; lia | exact demo_targets_ok | exact rev_any_order
    | intros j _; split; eexists; eexists; reflexivity
    | simpl; lia | left; reflexivity | vm_compute; discriminate].
Defined.

(** ** A batch with fewer targets than predictions *)

Lemma submit_loop_stops (preds : list (tensor Z)) (targets : tensor Z)
    (tv : nat -> tensor Z) (k : nat) (rest : list nat) (e : exn) :
  SuperVoxelAffinity.target_volume targets k = Err e ->
  forall (front : list nat) (submitted : list task),
    (forall i, In i front ->
       i < length preds /\
       SuperVoxelAffinity.target_volume targets i = Ok (tv i)) ->
    SuperVoxelAffinity.submit_loop preds targets (front ++ k :: rest)
      submitted
    = mkRun (submitted ++ flat_map (analyses preds tv) front) (Err e).
Proof.
  intros Hk. induction front as [|i front IH]; intros submitted Hf; simpl.
  - rewrite Hk, app_nil_r. reflexivity.
  - destruct (Hf i (or_introl eq_refl)) as [Hi Ht].
    rewrite Ht. cbn [rbind].
    rewrite (py_index_ok preds (mkTensor [] (Leaf 0%Z)) Hi). cbn [rbind].
    rewrite IH by (intros j Hj; apply Hf; right; exact Hj).
    rewrite <- app_assoc. reflexivity.
Qed.

(** X12.  When [targets[k, 0, ...]] does not exist for some example [k] of the
    batch, [get_critical_masks] raises IndexError in the submission loop:
    the futures of the examples before [k] have been submitted, those of
    [k] and later have not, and no result is collected. *)
Theorem get_critical_masks_missing_target
    (detect_critical : tensor Z -> tensor Z -> result (tensor Qc * Z))
    (as_completed : list task -> list task) (s : SuperVoxelAffinity.self)
    (preds : list (tensor Z)) (targets : tensor Z) (tv : nat -> tensor Z)
    (k : nat) (e : exn) :
  k < length preds ->
  (forall i, i < k ->
     SuperVoxelAffinity.target_volume targets i = Ok (tv i)) ->
  SuperVoxelAffinity.target_volume targets k = Err e ->
  e = IndexError /\
  SuperVoxelAffinity.get_critical_masks detect_critical as_completed
    s preds targets
  = mkRun (flat_map (analyses preds tv) (seq 0 k)) (Err IndexError).
Proof.
  intros Hk Hbefore Hmiss.
  assert (He : e = IndexError).
  { unfold SuperVoxelAffinity.target_volume in Hmiss.
    destruct (tsub k targets) as [t|e'] eqn:E; cbn [rbind] in Hmiss.
    - apply (tsub_err _ _ Hmiss).
    - injection Hmiss as <-. apply (tsub_err _ _ E). }
  split; [exact He|]. subst e.
  unfold SuperVoxelAffinity.get_critical_masks.
  rewrite (py_index_ok preds (mkTensor [] (Leaf 0%Z))) by lia.
  assert (Hsub :
    SuperVoxelAffinity.submit_loop preds targets
      (seq 0 (length preds)) []
    = mkRun (flat_map (analyses preds tv) (seq 0 k)) (Err IndexError)).
  { replace (length preds) with (k + S (length preds - S k)) by lia.
    rewrite seq_app. cbn [seq Nat.add].
    rewrite (@submit_loop_stops preds targets tv k _ IndexError Hmiss)
      by (intros i Hi; apply in_seq in Hi; split; [lia|];
          apply Hbefore; lia).
    reflexivity. }
  rewrite Hsub. reflexivity.
Qed.

Lemma get_critical_masks_missing_target_witness :
  IndexError = IndexError /\
  SuperVoxelAffinity.get_critical_masks demo_detect (@rev task)
    demo_self demo_preds demo_short_targets
  = mkRun (flat_map (analyses demo_preds (target_at demo_short_targets))
             (seq 0 1)) (Err IndexError).
Proof.
  apply (get_critical_masks_missing_target demo_detect (@rev task)
           demo_self demo_preds demo_short_targets
           (target_at demo_short_targets) (k := 1) (e := IndexError)).
  - simpl. lia.
  - intros [|i] Hi; [reflexivity | lia].
  - reflexivity.
Defined.

(** ** get_pred_labels *)

Lemma tsub_tmap {A B} (f : A -> B) (t : tensor A) (i : nat) :
  tsub i (tmap f t) =
  match tsub i t with
  | Ok x => Ok (tmap f x)
  | Err e => Err e
  end.
Proof.
  unfold tsub, tmap, sub. cbn [size data].
  destruct (size t) as [|n sh]; [reflexivity|].
  destruct (i <? n); [|reflexivity].
  destruct (data t) as [a|l]; cbn [map_nd rbind]; [reflexivity|].
  rewrite nth_error_map.
  destruct (nth_error l i); reflexivity.
Qed.

Section FpPredLabels.
Variable run_watershed :
  tensor Fp.float -> list Z -> result (list (tensor Z)).
Variable s : Fp.self.
Variable pred_affs : tensor Fp.float.
Variable example : nat -> tensor Fp.float.
Variable seg : nat -> tensor Z.
Variable coarser : nat -> list (tensor Z).

(** Example [i] exists and the watershed of the binarization of its
    float32 copy yields [seg i] first. *)
Let decoded (i : nat) : Prop :=
  tsub i pred_affs = Ok (example i) /\
  run_watershed (Fp.binarize s (Fp.toCPU (example i))) [0%Z]
    = Ok (seg i :: coarser i).

Lemma fp_get_pred_labels_loop_spec :
  forall (ixs : list nat) (acc : list (tensor Z)),
    (forall i, In i ixs -> decoded i) ->
    Fp.get_pred_labels_loop run_watershed s (Fp.toCPU pred_affs)
      ixs acc = Ok (acc ++ map seg ixs).
Proof.
  induction ixs as [|i ixs IH]; intros acc Hd; simpl.
  - rewrite app_nil_r. reflexivity.
  - destruct (Hd i (or_introl eq_refl)) as [Hx Hw].
    unfold Fp.toCPU at 1. rewrite tsub_tmap, Hx. cbn [rbind].
    unfold Fp.to_labels. fold (Fp.toCPU (example i)).
    rewrite Hw. cbn [rbind].
    rewrite IH by (intros j Hj; apply Hd; right; exact Hj).
    rewrite <- app_assoc. reflexivity.
Qed.

Lemma fp_get_pred_labels_loop_stops (k : nat) (rest : list nat)
    (e : exn) :
  tsub k pred_affs = Ok (example k) ->
  run_watershed (Fp.binarize s (Fp.toCPU (example k))) [0%Z] = Ok []
    /\ e = StopIteration \/
  run_watershed (Fp.binarize s (Fp.toCPU (example k))) [0%Z] = Err e ->
  forall (front : list nat) (acc : list (tensor Z)),
    (forall i, In i front -> decoded i) ->
    Fp.get_pred_labels_loop run_watershed s (Fp.toCPU pred_affs)
      (front ++ k :: rest) acc = Err e.
Proof.
  intros Hx Hw. induction front as [|i front IH]; intros acc Hd; simpl.
  - unfold Fp.toCPU at 1. rewrite tsub_tmap, Hx. cbn [rbind].
    unfold Fp.to_labels. fold (Fp.toCPU (example k)).
    destruct Hw as [[-> ->]| ->]; reflexivity.
  - destruct (Hd i (or_introl eq_refl)) as [Hxi Hwi].
    unfold Fp.toCPU at 1. rewrite tsub_tmap, Hxi. cbn [rbind].
    unfold Fp.to_labels. fold (Fp.toCPU (example i)).
    rewrite Hwi. cbn [rbind].
    apply IH. intros j Hj. apply Hd. right. exact Hj.
Qed.
End FpPredLabels.

(** X13.  [get_pred_labels] returns one label volume per example of the batch,
    in batch order: the first segmentation that the watershed yields on
    the binarization of the float32 copy of that example; coarser
    segmentations are not looked at. *)
Theorem get_pred_labels_spec
    (run_watershed : tensor Fp.float -> list Z -> result (list (tensor Z)))
    (s : Fp.self) (pred_affs : tensor Fp.float)
    (n : nat) (rest : list nat)
    (example : nat -> tensor Fp.float) (seg : nat -> tensor Z)
    (coarser : nat -> list (tensor Z)) :
  size pred_affs = n :: rest ->
  (forall i, i < n ->
     tsub i pred_affs = Ok (example i) /\
     run_watershed (Fp.binarize s (Fp.toCPU (example i))) [0%Z]
       = Ok (seg i :: coarser i)) ->
  Fp.get_pred_labels run_watershed s pred_affs = Ok (map seg (seq 0 n)).
Proof.
  intros Hs Hd. unfold Fp.get_pred_labels.
  change (size (Fp.toCPU pred_affs)) with (size pred_affs).
  rewrite Hs. cbn [py_index nth_error rbind].
  rewrite (fp_get_pred_labels_loop_spec run_watershed s pred_affs
             example seg coarser (seq 0 n) [])
    by (intros i Hi; apply in_seq in Hi; apply Hd; lia).
  reflexivity.
Qed.

Lemma fp_demo_examples :
  forall i, i < 2 ->
    tsub i fp_demo_pred_affs
      = Ok (volume [1; 1; 2; 2]
              (fun _ => if i =? 0 then fp_literal 3 4
                        else Fp.add64 (fp_literal 1 2)
                                      (fp_literal 1 (2 ^ 30)))) /\
    fp_demo_watershed
      (Fp.binarize fp_demo_self
         (Fp.toCPU
            (volume [1; 1; 2; 2]
               (fun _ => if i =? 0 then fp_literal 3 4
                         else Fp.add64 (fp_literal 1 2)
                                       (fp_literal 1 (2 ^ 30)))))) [0%Z]
      = Ok (volume [1; 2; 2] (fun _ => if i =? 0 then 1%Z else 0%Z) :: []).
Proof.
  intros [|[|i]] Hi; [| |lia]; split; reflexivity.
Qed.

Lemma get_pred_labels_spec_witness :
  Fp.get_pred_labels fp_demo_watershed fp_demo_self fp_demo_pred_affs
  = Ok (map (fun i => volume [1; 2; 2]
                        (fun _ => if i =? 0 then 1%Z else 0%Z))
            (seq 0 2)).
Proof.
  apply (get_pred_labels_spec fp_demo_watershed fp_demo_self
           fp_demo_pred_affs (rest := [1; 1; 2; 2])
           (fun i => volume [1; 1; 2; 2]
                       (fun _ => if i =? 0 then fp_literal 3 4
                                 else Fp.add64 (fp_literal 1 2)
                                               (fp_literal 1 (2 ^ 30))))
           (fun i => volume [1; 2; 2]
                       (fun _ => if i =? 0 then 1%Z else 0%Z))
           (fun _ => [])).
  - reflexivity.
  - exact fp_demo_examples.
Defined.

(** X14.  When, for some example [k], the watershed yields no segmentation at
    all, [get_pred_labels] raises StopIteration; when the watershed itself
    raises on that example, its exception comes through.  The examples
    before [k] have been decoded by then, and their labels are dropped. *)
Theorem get_pred_labels_stops
    (run_watershed : tensor Fp.float -> list Z -> result (list (tensor Z)))
    (s : Fp.self) (pred_affs : tensor Fp.float)
    (n : nat) (rest : list nat)
    (example : nat -> tensor Fp.float) (seg : nat -> tensor Z)
    (coarser : nat -> list (tensor Z)) (k : nat) (e : exn) :
  size pred_affs = n :: rest ->
  k < n ->
  (forall i, i < k ->
     tsub i pred_affs = Ok (example i) /\
     run_watershed (Fp.binarize s (Fp.toCPU (example i))) [0%Z]
       = Ok (seg i :: coarser i)) ->
  tsub k pred_affs = Ok (example k) ->
  run_watershed (Fp.binarize s (Fp.toCPU (example k))) [0%Z] = Ok []
    /\ e = StopIteration \/
  run_watershed (Fp.binarize s (Fp.toCPU (example k))) [0%Z] = Err e ->
  Fp.get_pred_labels run_watershed s pred_affs = Err e.
Proof.
  intros Hs Hk Hd Hx Hw. unfold Fp.get_pred_labels.
  change (size (Fp.toCPU pred_affs)) with (size pred_affs).
  rewrite Hs. cbn [py_index nth_error rbind].
  replace n with (k + S (n - S k)) by lia.
  rewrite seq_app. cbn [seq Nat.add].
  apply (fp_get_pred_labels_loop_stops run_watershed s pred_affs
           example seg coarser k _ Hx Hw).
  intros i Hi. apply in_seq in Hi. apply Hd. lia.
Qed.

Lemma get_pred_labels_stops_witness :
  Fp.get_pred_labels fp_demo_watershed_dry fp_demo_self fp_demo_pred_affs
  = Err StopIteration.
Proof.
  apply (get_pred_labels_stops fp_demo_watershed_dry fp_demo_self
           fp_demo_pred_affs (n := 2) (rest := [1; 1; 2; 2])
           (fun i => volume [1; 1; 2; 2]
                       (fun _ => if i =? 0 then fp_literal 3 4
                                 else Fp.add64 (fp_literal 1 2)
                                               (fp_literal 1 (2 ^ 30))))
           (fun _ => volume [1; 2; 2] (fun _ => 1%Z))
           (fun _ => []) (k := 1)).
  - reflexivity.
  - lia.
  - intros [|i] Hi; [split; reflexivity | lia].
  - reflexivity.
  - left. split; reflexivity.
Defined.

(** ** forward on degenerate inputs *)

(** X15.  On a batch of size 0 [forward] raises IndexError: no example is
    decoded, and [get_critical_masks] then reads [preds[0]] of an empty
    list.  Neither the watershed, nor the detector, nor the criterion is
    called. *)
Theorem forward_empty_batch
    (run_watershed : tensor Qc -> list Z -> result (list (tensor Z)))
    (detect_critical : tensor Z -> tensor Z -> result (tensor Qc * Z))
    (as_completed : list task -> list task)
    (s : SuperVoxelAffinity.self)
    (pred_affs : tensor Qc) (target_labels : tensor Z)
    (rest : list nat) :
  size pred_affs = 0 :: rest ->
  SuperVoxelAffinity.get_pred_labels run_watershed s pred_affs = Ok [] /\
  SuperVoxelAffinity.forward run_watershed detect_critical as_completed
    s pred_affs target_labels = Err IndexError.
Proof.
  intros Hs.
  assert (E : SuperVoxelAffinity.get_pred_labels run_watershed s pred_affs
              = Ok []).
  { unfold SuperVoxelAffinity.get_pred_labels, SuperVoxelAffinity.toCPU.
    rewrite Hs. reflexivity. }
  split; [exact E|].
  unfold SuperVoxelAffinity.forward. rewrite E. reflexivity.
Qed.

Lemma forward_empty_batch_witness :
  SuperVoxelAffinity.get_pred_labels demo_watershed demo_self
    (mkTensor [0; 1; 2; 2; 2] (Node [])) = Ok [] /\
  SuperVoxelAffinity.forward demo_watershed demo_detect (@rev task)
    demo_self (mkTensor [0; 1; 2; 2; 2] (Node []))
    (mkTensor [0; 1; 2; 2; 2] (Node [])) = Err IndexError.
Proof.
  apply (forward_empty_batch demo_watershed demo_detect (@rev task)
           demo_self (mkTensor [0; 1; 2; 2; 2] (Node []))
           (mkTensor [0; 1; 2; 2; 2] (Node [])) (rest := [1; 2; 2; 2])).
  reflexivity.
Defined.

Lemma batch_loop_no_edges (s : SuperVoxelAffinity.self)
    (pred_affs : tensor Qc) (target_labels : tensor Z)
    (masks : tensor Qc) :
  SuperVoxelAffinity.edges s = [] ->
  forall (ixs : list nat) (loss : Qc),
    (forall i, In i ixs ->
       (exists m, tsub i masks = Ok m) /\
       (exists t, tsub i target_labels = Ok t)) ->
    SuperVoxelAffinity.batch_loop s pred_affs target_labels masks ixs loss
    = Ok loss.
Proof.
  intros He. induction ixs as [|i ixs IH]; intros loss Hi; simpl;
    [reflexivity|].
  destruct (Hi i (or_introl eq_refl)) as [[m ->] [t ->]]. cbn [rbind].
  rewrite He. cbn [SuperVoxelAffinity.edges_loop rbind].
  apply IH. intros j Hj. apply Hi. right. exact Hj.
Qed.

(** X16.  A loss object built with an empty list of edges returns, and the
    loss it returns is 0, provided the label decoding and the critical
    analyses of the batch succeed.  The decoder and the criterion are
    never called.  The threshold and the predicted affinities are float32
    numbers, which the conversions to float32 leave as they are. *)
Theorem forward_no_edges
    (run_watershed : tensor Qc -> list Z -> result (list (tensor Z)))
    (detect_critical : tensor Z -> tensor Z -> result (tensor Qc * Z))
    (as_completed : list task -> list task)
    (alpha beta threshold : Qc)
    (criterion : tensor Qc -> tensor Qc -> result (tensor Qc))
    (pred_affs : tensor Qc) (target_labels : tensor Z)
    (preds : list (tensor Z)) (tv : nat -> tensor Z)
    (split_mask merge_mask : nat -> tensor Qc)
    (split_count merge_count : nat -> Z) :
  is_float32 threshold = true ->
  forallb is_float32 (flatten (data pred_affs)) = true ->
  SuperVoxelAffinity.get_pred_labels run_watershed
    (SuperVoxelAffinity.init [] alpha beta criterion threshold) pred_affs
    = Ok preds ->
  batch_ok detect_critical preds target_labels tv split_mask merge_mask
           split_count merge_count ->
  any_order as_completed ->
  exists stats,
    SuperVoxelAffinity.forward run_watershed detect_critical as_completed
      (SuperVoxelAffinity.init [] alpha beta criterion threshold)
      pred_affs target_labels
    = Ok (0%Qc, stats).
Proof.
  (* the first two assumptions keep the input where leaving out the
     conversions to float32 changes nothing *)
  intros _ _ Hl Hok Hord.
  set (s := SuperVoxelAffinity.init [] alpha beta criterion threshold) in *.
  destruct (get_critical_masks_ok s Hok Hord)
    as (masks & stats & E & Hs & Hw & _ & HS & HM).
  exists stats.
  unfold SuperVoxelAffinity.forward. rewrite Hl. cbn [rbind].
  rewrite E. cbn [outcome rbind].
  unfold SuperVoxelAffinity.get_pred_labels, SuperVoxelAffinity.toCPU in Hl.
  apply rbind_ok in Hl as (n & Hn & Hloop). rewrite Hn. cbn [rbind].
  apply get_pred_labels_loop_length in Hloop.
  rewrite length_seq in Hloop. simpl in Hloop.
  rewrite (batch_loop_no_edges s pred_affs target_labels masks eq_refl).
  - reflexivity.
  - intros i Hi. apply in_seq in Hi.
    assert (Hi' : i < length preds) by lia. split.
    + destruct (@tsub_ok Qc masks _ _ i Hs Hw Hi') as (m & Em & _).
      exists m. exact Em.
    + pose proof (@ok_targets _ _ _ _ _ _ _ _ Hok i Hi') as Ht.
      unfold SuperVoxelAffinity.target_volume in Ht.
      apply rbind_ok in Ht as (t & Et & _). exists t. exact Et.
Qed.

Lemma demo_labels_ok :
  batch_ok demo_detect demo_labels demo_targets demo_tv
    (fun i => task_mask demo_detect (split_task demo_labels demo_tv i))
    (fun i => task_mask demo_detect (merge_task demo_labels demo_tv i))
    (fun i => task_count demo_detect (split_task demo_labels demo_tv i))
    (fun i => task_count demo_detect (merge_task demo_labels demo_tv i)).
Proof.
  split.
  - simpl. lia.
  - intros [|[|i]] Hi; [reflexivity | reflexivity | simpl in Hi; lia].
  - intros [|[|i]] Hi; [| |simpl in Hi; lia];
      (split; [reflexivity|]); (split; [reflexivity|]);
      unfold twf; simpl; repeat constructor.
  - intros [|[|i]] Hi; [| |simpl in Hi; lia];
      (split; [reflexivity|]); (split; [reflexivity|]);
      unfold twf; simpl; repeat constructor.
Qed.

Lemma forward_no_edges_witness :
  exists stats,
    SuperVoxelAffinity.forward demo_watershed demo_detect (@rev task)
      (SuperVoxelAffinity.init [] (Q2Qc (1 # 2)) (Q2Qc (1 # 4))
         (fun pred target => Ok pred) (Q2Qc (1 # 2)))
      demo_pred_affs demo_targets
    = Ok (0%Qc, stats).
Proof.
  apply (@forward_no_edges demo_watershed demo_detect (@rev task)
           (Q2Qc (1 # 2)) (Q2Qc (1 # 4)) (Q2Qc (1 # 2))
           (fun pred target => Ok pred) demo_pred_affs demo_targets
           demo_labels demo_tv
           (fun i => task_mask demo_detect
                       (split_task demo_labels demo_tv i))
           (fun i => task_mask demo_detect
                       (merge_task demo_labels demo_tv i))
           (fun i => task_count demo_detect
                       (split_task demo_labels demo_tv i))
           (fun i => task_count demo_detect
                       (merge_task demo_labels demo_tv i))).
  - reflexivity.
  - reflexivity.
  - reflexivity.
  - exact demo_labels_ok.
  - exact rev_any_order.
Defined.

(** ** Analyses that find nothing *)

Lemma Qcsum_zero {X} (f : X -> Qc) (l : list X) :
  (forall x, In x l -> f x = 0%Qc) -> Qcsum (map f l) = 0%Qc.
Proof.
  induction l as [|x l IH]; intros Hz; simpl; [reflexivity|].
  rewrite (Hz x (or_introl eq_refl)), IH
    by (intros y Hy; apply Hz; right; exact Hy).
  ring.
Qed.

(** X17.  When both analyses of every example return an all-zero mask and the
    count 0, the critical masks are zero everywhere and both stats are
    0. *)
Theorem get_critical_masks_nothing_found
    (detect_critical : tensor Z -> tensor Z -> result (tensor Qc * Z))
    (as_completed : list task -> list task) (s : SuperVoxelAffinity.self)
    (preds : list (tensor Z)) (targets : tensor Z) (tv : nat -> tensor Z)
    (split_mask merge_mask : nat -> tensor Qc)
    (split_count merge_count : nat -> Z) :
  batch_ok detect_critical preds targets tv split_mask merge_mask
           split_count merge_count ->
  any_order as_completed ->
  (forall i, i < length preds ->
     (forall idx x, tget idx (split_mask i) = Some x -> x = 0%Qc) /\
     (forall idx x, tget idx (merge_mask i) = Some x -> x = 0%Qc) /\
     split_count i = 0%Z /\ merge_count i = 0%Z) ->
  exists masks,
    outcome (SuperVoxelAffinity.get_critical_masks detect_critical
               as_completed s preds targets)
      = Ok (masks, mkStats 0 0) /\
    size masks = length preds :: size (pred_at preds 0) /\
    forall idx v, tget idx masks = Some v -> v = 0%Qc.
Proof.
  intros Hok Hord Hz.
  destruct (get_critical_masks_ok s Hok Hord)
    as (masks & stats & E & Hs & Hw & Hg & HS & HM).
  assert (Hmean : forall c : nat -> Z,
            (forall i, i < length preds -> c i = 0%Z) ->
            mean_of (length preds) c = 0%Qc).
  { intros c Hc. unfold mean_of.
    rewrite Qcsum_zero.
    - unfold Qcdiv. ring.
    - intros i Hi. apply in_seq in Hi. rewrite Hc by lia. reflexivity. }
  exists masks. rewrite E. cbn [outcome]. split; [|split; [exact Hs|]].
  - destruct stats as [sp me]. cbn in HS, HM.
    rewrite HS, HM, !Hmean; [reflexivity | |];
      intros i Hi; apply (Hz i Hi).
  - intros [|i idx] v Hv.
    + rewrite (tget_outside masks [] Hs Hw I) in Hv. discriminate.
    + destruct (Nat.lt_ge_cases i (length preds)) as [Hi|Hi];
        [|rewrite (tget_outside masks (i :: idx) Hs Hw Hi) in Hv;
          discriminate].
      rewrite (Hg i idx Hi) in Hv.
      destruct (Hz i Hi) as (Zs & Zm & _).
      destruct (tget idx (split_mask i)) as [x|] eqn:Ex; [|discriminate].
      destruct (tget idx (merge_mask i)) as [y|] eqn:Ey; [|discriminate].
      injection Hv as <-.
      rewrite (Zs idx x Ex), (Zm idx y Ey). ring.
Qed.

Lemma demo_clean_ok :
  batch_ok demo_detect_clean demo_preds demo_targets demo_tv
    (fun i => task_mask demo_detect_clean
                (split_task demo_preds demo_tv i))
    (fun i => task_mask demo_detect_clean
                (merge_task demo_preds demo_tv i))
    (fun _ => 0%Z) (fun _ => 0%Z).
Proof.
  split.
  - simpl. lia.
  - exact demo_targets_ok.
  - intros [|[|i]] Hi; [| |simpl in Hi; lia];
      (split; [reflexivity|]); (split; [reflexivity|]);
      unfold twf; simpl; repeat constructor.
  - intros [|[|i]] Hi; [| |simpl in Hi; lia];
      (split; [reflexivity|]); (split; [reflexivity|]);
      unfold twf; simpl; repeat constructor.
Qed.

Lemma demo_clean_zero :
  forall i, i < length demo_preds ->
    (forall idx x,
       tget idx (task_mask demo_detect_clean
                   (split_task demo_preds demo_tv i)) = Some x ->
       x = 0%Qc) /\
    (forall idx x,
       tget idx (task_mask demo_detect_clean
                   (merge_task demo_preds demo_tv i)) = Some x ->
       x = 0%Qc) /\
    0%Z = 0%Z /\ 0%Z = 0%Z.
Proof.
  assert (Hall : forall m : tensor Qc,
            Forall (fun x => x = 0%Qc) (flatten (data m)) ->
            forall idx x, tget idx m = Some x -> x = 0%Qc).
  { intros m Hf idx x Hx. rewrite Forall_forall in Hf.
    apply Hf. apply (@get_In_flatten Qc idx (data m) x Hx). }
  intros [|[|i]] Hi; [| |simpl in Hi; lia];
    (split; [|split; [|split; reflexivity]]);
    apply Hall; vm_compute; repeat constructor.
Qed.

Lemma get_critical_masks_nothing_found_witness :
  exists masks,
    outcome (SuperVoxelAffinity.get_critical_masks demo_detect_clean
               (@rev task) demo_self demo_preds demo_targets)
      = Ok (masks, mkStats 0 0) /\
    size masks = length demo_preds :: size (pred_at demo_preds 0) /\
    forall idx v, tget idx masks = Some v -> v = 0%Qc.
Proof.
  exact (get_critical_masks_nothing_found demo_self demo_clean_ok
           rev_any_order demo_clean_zero).
Defined.
